(** * ApplySharp: the frontend (pages/index.js) and the analysis pipeline

    The first half embeds [frontend/pages/index.js]: the JavaScript values
    the page receives from the two endpoints, the handlers of each stage
    component and what each component renders from its data.  The second
    half models the session-scoped pipeline (gatherer, synthesizer, session
    store, generation engine) from its written contract.

    Conventions of the embedding.
    - A JavaScript value is a [value]; an object literal or a parsed JSON
      object is a [gmap string value] of its own properties.
    - A JavaScript string is a [string], one [ascii] per code unit.
    - A computation that can throw returns [option]: [None] is the thrown
      [TypeError] (or React's refusal to render an object).
    - What a component renders is a list of [node]s.  Class names, icons,
      animation and the fixed page headers are static decoration and are
      left out; every child, attribute and conditional that depends on the
      data or on the state is kept. *)

From Stdlib Require Import Ascii String.
From stdpp Require Import gmap strings list fin_maps pretty.

#[local] Set Warnings "-register-all".

(* ===================================================================== *)
(** ** JavaScript values and the operations the page uses on them *)
(* ===================================================================== *)
Module JS.

Inductive value :=
| VUndefined
| VNull
| VBool (b : bool)
| VNum (n : Z)
| VStr (s : string)
| VArr (xs : list value)
| VObj (o : gmap string value).

(** ToBoolean: what [!x], [x && y], [x || y] and [x ? y : z] test. *)
Definition truthy (v : value) : bool :=
  match v with
  | VUndefined | VNull => false
  | VBool b => b
  | VNum n => negb (n =? 0)%Z
  | VStr s => negb (String.eqb s "")
  | VArr _ | VObj _ => true
  end.

(** [a || b] *)
Definition or_else (a b : value) : value := if truthy a then a else b.

(** [v.k] for a property name [k] that no prototype defines (every name
    the page reads on response data is of this kind; [length] is
    [length_of]).  Reading a property of [null] or [undefined] throws. *)
Definition get (v : value) (k : string) : option value :=
  match v with
  | VUndefined | VNull => None
  | VObj o => Some (default VUndefined (o !! k))
  | VBool _ | VNum _ | VStr _ | VArr _ => Some VUndefined
  end.

(** [v?.k] *)
Definition get_opt (v : value) (k : string) : value :=
  match v with
  | VObj o => default VUndefined (o !! k)
  | _ => VUndefined
  end.

(** [v.length] for a [v] that is neither [null] nor [undefined]: arrays
    and strings have one, an object has the own property of that name if
    any, and on anything else it is [undefined]. *)
Definition length_of (v : value) : value :=
  match v with
  | VArr xs => VNum (Z.of_nat (length xs))
  | VStr s => VNum (Z.of_nat (String.length s))
  | VObj o => default VUndefined (o !! "length")
  | _ => VUndefined
  end.

(** [x > 0] on a number or a boolean; [undefined > 0] is false.  (A
    string or an object standing for a number is not coerced here: the
    numbers of this embedding are the integers.) *)
Definition gt0 (x : value) : bool :=
  match x with
  | VNum n => (0 <? n)%Z
  | VBool b => b
  | _ => false
  end.

(** [v.length > 0] *)
Definition length_gt0 (v : value) : bool := gt0 (length_of v).

(** The elements [v.map(f)] and [v.slice(..)] range over: only an array
    has these methods as the page uses them ([map] on a string throws). *)
Definition elements_of (v : value) : option (list value) :=
  match v with
  | VArr xs => Some xs
  | _ => None
  end.

(** ToString, as used by ToPropertyKey in [answers[q.id]] and by React
    for a number child; [elem] is the text of one array element in
    Array.prototype.join, where [null] and [undefined] print as nothing. *)
Fixpoint elem (v : value) : string :=
  match v with
  | VUndefined | VNull => ""
  | VBool true => "true"
  | VBool false => "false"
  | VNum n => pretty n
  | VStr s => s
  | VArr xs =>
      (fix join (l : list value) : string :=
         match l with
         | [] => ""
         | [x] => elem x
         | x :: l' => elem x +:+ "," +:+ join l'
         end) xs
  | VObj _ => "[object Object]"
  end.

Definition to_string (v : value) : string :=
  match v with
  | VUndefined => "undefined"
  | VNull => "null"
  | _ => elem v
  end.

Definition is_undefined (v : value) : bool :=
  match v with VUndefined => true | _ => false end.

(** What [JSON.stringify] puts on the wire for an object literal, read
    back as an object: a property whose value is [undefined] is dropped.
    (The property values the page serialises are strings, a map of strings
    and a value that came out of [JSON.parse], which holds no [undefined]
    below its top, so nothing is dropped deeper.) *)
Definition stringify_object (o : gmap string value) : gmap string value :=
  filter (λ kv, is_undefined kv.2 = false) o.

(** String.prototype.trim on the white space of the Latin-1 range. *)
Definition is_white (c : ascii) : bool :=
  match Ascii.nat_of_ascii c with
  | 9 | 10 | 11 | 12 | 13 | 32 | 160 => true
  | _ => false
  end.

Fixpoint trim_start (s : string) : string :=
  match s with
  | String c s' => if is_white c then trim_start s' else s
  | EmptyString => ""
  end.

Fixpoint trim_end (s : string) : string :=
  match s with
  | String c s' =>
      let r := trim_end s' in
      if String.eqb r "" && is_white c then "" else String c r
  | EmptyString => ""
  end.

Definition trim (s : string) : string := trim_end (trim_start s).

(** [s.split('.')[0]]: the text before the first full stop. *)
Fixpoint before_dot (s : string) : string :=
  match s with
  | String c s' => if Ascii.eqb c "."%char then "" else String c (before_dot s')
  | EmptyString => ""
  end.

(** [s.substring(0, n)] *)
Fixpoint substring0 (n : nat) (s : string) : string :=
  match n, s with
  | S n', String c s' => String c (substring0 n' s')
  | _, _ => ""
  end.

End JS.

(* ===================================================================== *)
(** ** frontend/pages/index.js *)
(* ===================================================================== *)
Module Frontend.
Import JS.

(** *** What React puts on the page *)

Inductive node :=
| Text (s : string)
| El (tag : string) (props : list (string * value)) (kids : list node).

(** A JSX child [{v}]: a string or a number is a text node, [null],
    [undefined], booleans and the empty string render nothing, an array
    renders its elements, and a plain object is refused ("Objects are not
    valid as a React child"), which fails the whole render. *)
Fixpoint child (v : value) : option (list node) :=
  match v with
  | VUndefined | VNull | VBool _ => Some []
  | VNum n => Some [Text (pretty n)]
  | VStr s => Some (if String.eqb s "" then [] else [Text s])
  | VArr xs =>
      (fix go (l : list value) : option (list node) :=
         match l with
         | [] => Some []
         | x :: l' =>
             match child x, go l' with
             | Some a, Some b => Some (a ++ b)
             | _, _ => None
             end
         end) xs
  | VObj _ => None
  end.

(** [arr.map(f)] rendered as children, where rendering one element can
    fail; [f] is given the index as the source's callbacks are. *)
Fixpoint render_each (f : nat → value → option (list node))
    (i : nat) (l : list value) : option (list node) :=
  match l with
  | [] => Some []
  | x :: l' =>
      a ← f i x;
      b ← render_each f (S i) l';
      Some (a ++ b)
  end.

(** [v.length > 0 && (<Card> ... v.map(f) ... </Card>)]: nothing when the
    test is false, a failure when [v] has a positive length and no [map]. *)
Definition when_nonempty (v : value)
    (body : list value → option (list node)) : option (list node) :=
  if length_gt0 v then xs ← elements_of v; body xs else Some [].

(** The small components [Tag] and [Card]. *)
Definition Tag (color : string) (kids : list node) : node :=
  El "span" [("color", VStr color)] kids.

Definition Card (kids : list node) : node := El "div" [] kids.

(** [{error && <div>{error}</div>}] for the string state [error]. *)
Definition error_box (error : string) : list node :=
  if String.eqb error "" then [] else [El "div" [] [Text error]].

(** *** STAGES *)
Inductive Stage := PASSWORD | INPUT | ANALYZING | QUESTIONS | GENERATING | RESULTS.

#[global] Instance Stage_eq_dec : EqDecision Stage.
Proof. solve_decision. Defined.

(** *** PasswordStage *)

(** [handleSubmit] of the password form on the typed text [pwd]: the
    result is the argument [onSuccess] is called with, or the error the
    stage shows. *)
Definition PasswordStage_handleSubmit (pwd : string) : string + string :=
  if String.eqb (trim pwd) "" then inr "Enter the access password."
  else inl (trim pwd).

(** *** InputStage *)

Record File := { name : string; size : N }.

Record Form := {
  company : string;
  role : string;
  location : string;
  jobDescription : string;
}.

Inductive Field := Fcompany | Frole | Flocation | FjobDescription.

Record InputState := {
  form : Form;
  cvFile : option File;
  linkedinFile : option File;
  error : string;
  rulesChecked : bool;
}.

(** The [useState] initial values. *)
Definition InputStage_init : InputState :=
  {| form := {| company := ""; role := ""; location := ""; jobDescription := "" |};
     cvFile := None; linkedinFile := None; error := ""; rulesChecked := false |}.

(** A [FormData] is the list of its entries, in the order of [append]. *)
Inductive FormValue := FText (s : string) | FFile (f : File).
Definition FormData := list (string * FormValue).

(** [update(field)(e)] with [v = e.target.value] *)
Definition update (field : Field) (v : string) (f : Form) : Form :=
  match field with
  | Fcompany => {| company := v; role := role f; location := location f; jobDescription := jobDescription f |}
  | Frole => {| company := company f; role := v; location := location f; jobDescription := jobDescription f |}
  | Flocation => {| company := company f; role := role f; location := v; jobDescription := jobDescription f |}
  | FjobDescription => {| company := company f; role := role f; location := location f; jobDescription := v |}
  end.

Definition setForm (g : Form → Form) (st : InputState) : InputState :=
  {| form := g (form st); cvFile := cvFile st; linkedinFile := linkedinFile st;
     error := error st; rulesChecked := rulesChecked st |}.

Definition setCvFile (f : File) (st : InputState) : InputState :=
  {| form := form st; cvFile := Some f; linkedinFile := linkedinFile st;
     error := error st; rulesChecked := rulesChecked st |}.

Definition setLinkedinFile (f : File) (st : InputState) : InputState :=
  {| form := form st; cvFile := cvFile st; linkedinFile := Some f;
     error := error st; rulesChecked := rulesChecked st |}.

Definition setError (e : string) (st : InputState) : InputState :=
  {| form := form st; cvFile := cvFile st; linkedinFile := linkedinFile st;
     error := e; rulesChecked := rulesChecked st |}.

Definition setRulesChecked (b : bool) (st : InputState) : InputState :=
  {| form := form st; cvFile := cvFile st; linkedinFile := linkedinFile st;
     error := error st; rulesChecked := b |}.

(** [!s] for a string *)
Definition empty (s : string) : bool := String.eqb s "".

(** [handleSubmit]: the state after it and the [FormData] handed to
    [onAnalyze], if any. *)
Definition InputStage_handleSubmit (password : string) (st : InputState)
    : InputState * option FormData :=
  let st := setError "" st in
  if negb (rulesChecked st) then
    (setError "Please confirm you have read the CV upload rules." st, None)
  else if empty (company (form st)) || empty (role (form st))
          || empty (location (form st)) || empty (jobDescription (form st)) then
    (setError "All fields are required." st, None)
  else
    match cvFile st with
    | None => (setError "Please upload your CV as a PDF." st, None)
    | Some cv =>
        if String.length (jobDescription (form st)) <? 100 then
          (setError "Job description is too short. Please paste the full JD." st, None)
        else
          let fd :=
            [("password", FText password);
             ("company", FText (company (form st)));
             ("role", FText (role (form st)));
             ("location", FText (location (form st)));
             ("job_description", FText (jobDescription (form st)));
             ("cv_file", FFile cv)] in
          let fd :=
            match linkedinFile st with
            | Some li => fd ++ [("linkedin_file", FFile li)]
            | None => fd
            end in
          (st, Some fd)
    end.

(** The [maxLength] of the input bound to each field. *)
Definition maxLength (field : Field) : N :=
  match field with
  | FjobDescription => 8000
  | Fcompany | Frole | Flocation => 200
  end.

(** What the user can do on the input stage.  [Change] is the [onChange]
    of a text input: the browser never lets an edit leave more than
    [maxLength] code units in the input, which is the premise of
    [input_change] below. *)
Inductive InputEvent :=
| Change (field : Field) (v : string)
| PickCv (f : File)
| PickLinkedin (f : File)
| Tick (checked : bool)
| Submit.

Definition InputStage_on (password : string) (ev : InputEvent) (st : InputState)
    : InputState :=
  match ev with
  | Change field v => setForm (update field v) st
  | PickCv f => setCvFile f st
  | PickLinkedin f => setLinkedinFile f st
  | Tick b => setRulesChecked b st
  | Submit => (InputStage_handleSubmit password st).1
  end.

Inductive input_reachable (password : string) : InputState → Prop :=
| input_start : input_reachable password InputStage_init
| input_change st field v :
    input_reachable password st →
    (N.of_nat (String.length v) ≤ maxLength field)%N →
    input_reachable password (InputStage_on password (Change field v) st)
| input_other st ev :
    input_reachable password st →
    (∀ field v, ev ≠ Change field v) →
    input_reachable password (InputStage_on password ev st).

(** *** QuestionsStage *)

(** The six lists the stage takes from [analysisData], each
    [analysisData?.field || []]. *)
Definition list_field (analysisData : value) (k : string) : value :=
  or_else (get_opt analysisData k) (VArr []).

(** One heads-up tip: [<p>{tip.tip}</p>], then the source as a link when
    [tip.source_url] is truthy and as plain text otherwise, then
    [{tip.action_taken && <Tag color="success">..</Tag>}]. *)
Definition tip_card (tip : value) : option (list node) :=
  t ← get tip "tip";
  kt ← child t;
  url ← get tip "source_url";
  src ← get tip "source";
  ks ← child src;
  act ← get tip "action_taken";
  ka ← child act;
  Some [El "div" []
          [El "p" [] kt;
           El "div" []
             ((if truthy url
               then [El "a" [("href", url)] (Text "↗ " :: ks)]
               else [El "span" [] ks])
              ++ (if truthy act then [Tag "success" ka] else ka))]].

Definition heads_up_card (headsUp : value) : option (list node) :=
  when_nonempty headsUp (λ tips,
    cards ← render_each (λ _ tip, tip_card tip) 0 tips;
    Some [Card [El "h3" [] [Text "Heads Up — Recruiter Intelligence"];
                El "div" [] cards]]).

(** [{label} ({v.length})] followed by one item per element, the element
    itself being the child: the gaps, AI-word and auto-fix cards. *)
Definition counted_card (label : string) (container : string)
    (item : list node → node) (v : value) : option (list node) :=
  when_nonempty v (λ xs,
    count ← child (length_of v);
    items ← render_each (λ _ x, k ← child x; Some [item k]) 0 xs;
    Some [Card [El "p" [] ([Text label; Text " ("] ++ count ++ [Text ")"]);
                El container [] items]]).

Definition gap_item (k : list node) : node :=
  El "li" [] (El "span" [] [Text "→"] :: k).
Definition ai_word_item (k : list node) : node := Tag "danger" k.
Definition auto_fix_item (k : list node) : node :=
  El "li" [] (El "span" [] [Text "✓"] :: k).

(** [{contradictions.map((c, i) => <div><span>⚠</span>{c}</div>)}] *)
Definition contradictions_card (contradictions : value) : option (list node) :=
  when_nonempty contradictions (λ cs,
    rows ← render_each (λ _ c,
              k ← child c;
              Some [El "div" [] (El "span" [] [Text "⚠"] :: k)]) 0 cs;
    Some [Card (El "p" [] [Text "LINKEDIN VS CV MISMATCHES"] :: rows)]).

(** [answers[id]] for an arbitrary [id]: the own property under
    ToPropertyKey(id). *)
Definition answer_key (id : value) : string := to_string id.

(** [updateAnswer(id, val)]: [{ ...a, [id]: val }] *)
Definition updateAnswer (id : value) (val : string)
    (a : gmap string string) : gmap string string :=
  <[answer_key id := val]> a.

(** One question with its answer box; the box shows
    [answers[q.id] || ''] and its [onChange] is [updateAnswer(q.id, _)]. *)
Definition question_item (answers : gmap string string) (i : nat) (q : value)
    : option (list node) :=
  id ← get q "id";
  qu ← get q "question";
  kq ← child qu;
  cx ← get q "context";
  kc ← child cx;
  Some [El "div" []
          [El "span" [] [Text "Q"; Text (pretty (i + 1))];
           El "p" [] kq;
           El "p" [] kc;
           El "textarea"
             [("rows", VNum 2);
              ("value", VStr (default "" (answers !! answer_key id)))] []]].

Definition questions_card (answers : gmap string string) (questions : value)
    : option (list node) :=
  when_nonempty questions (λ qs,
    items ← render_each (question_item answers) 0 qs;
    Some [Card [El "p" [] [Text "Answer these to sharpen your CV"];
                El "div" [] items]]).

Record QuestionsState := {
  answers : gmap string string;
  loading : bool;
  q_error : string;
}.

Definition QuestionsStage_init : QuestionsState :=
  {| answers := ∅; loading := false; q_error := "" |}.

(** The generate button: [disabled={loading}], its label by [loading]. *)
Definition generate_button (loading : bool) : node :=
  El "button" [("disabled", VBool loading)]
    [Text (if loading then "Generating your application..."
           else "Generate My CV, Cover Letter & Tips →")].

(** The render of the stage, in the order of the source. *)
Definition QuestionsStage (analysisData : value) (st : QuestionsState)
    : option (list node) :=
  let questions := list_field analysisData "questions" in
  let gaps := list_field analysisData "gaps_found" in
  let autoFixes := list_field analysisData "auto_fixes" in
  let headsUp := list_field analysisData "heads_up_tips" in
  let aiWords := list_field analysisData "ai_words_detected" in
  let contradictions := list_field analysisData "linkedin_contradictions" in
  h ← heads_up_card headsUp;
  g ← counted_card "GAPS DETECTED" "ul" gap_item gaps;
  w ← counted_card "AI WORDS TO REMOVE" "div" ai_word_item aiWords;
  f ← counted_card "AUTO-FIXES" "ul" auto_fix_item autoFixes;
  c ← contradictions_card contradictions;
  q ← questions_card (answers st) questions;
  Some (h ++ [El "div" [] (g ++ w ++ f)] ++ c ++ q ++ error_box (q_error st)
        ++ [generate_button (loading st)]).

(** Typing [val] into the answer box of the [i]-th rendered question. *)
Definition type_answer (analysisData : value) (i : nat) (val : string)
    (st : QuestionsState) : QuestionsState :=
  match elements_of (list_field analysisData "questions") with
  | Some qs =>
      match qs !! i with
      | Some q =>
          match get q "id" with
          | Some id =>
              {| answers := updateAnswer id val (answers st);
                 loading := loading st; q_error := q_error st |}
          | None => st
          end
      | None => st
      end
  | None => st
  end.

(** The body of the generate request as it goes on the wire:
    [JSON.stringify({ password, session_id: analysisData.session_id,
    user_answers: answers })].  Reading [session_id] of a [null]
    [analysisData] throws before anything is sent. *)
Definition generate_body (password : string) (analysisData : value)
    (a : gmap string string) : option (gmap string value) :=
  sid ← get analysisData "session_id";
  Some (stringify_object
          (<["password" := VStr password]>
             (<["session_id" := sid]>
                (<["user_answers" := VObj (VStr <$> a)]> ∅)))).

(** What [fetch] followed by [res.json()] comes back with: a rejection
    carrying a message, or a response with its [ok] flag and body. *)
Inductive Fetched :=
| Rejected (message : string)
| Responded (ok : bool) (data : value).

(** The message of the [TypeError] thrown by a property read on [null] or
    [undefined] (the engine's wording). *)
Definition type_error_message : string := "TypeError".

(** [if (!res.ok) throw new Error(data.detail || fallback)], then the
    callback: the data passed on, or the message of what was thrown. *)
Definition settle (fallback : string) (r : Fetched) : value + string :=
  match r with
  | Rejected m => inr m
  | Responded true data => inl data
  | Responded false data =>
      match get data "detail" with
      | Some d => inr (to_string (or_else d (VStr fallback)))
      | None => inr type_error_message
      end
  end.

(** [handleGenerate]: the request sent (if any), the state once the
    handler has finished, and the data [onGenerate] is called with. *)
Definition QuestionsStage_handleGenerate (password : string)
    (analysisData : value) (net : gmap string value → Fetched)
    (st : QuestionsState)
    : option (gmap string value) * QuestionsState * option value :=
  match generate_body password analysisData (answers st) with
  | None =>
      (None,
       {| answers := answers st; loading := false; q_error := type_error_message |},
       None)
  | Some body =>
      match settle "Generation failed." (net body) with
      | inl data =>
          (Some body,
           {| answers := answers st; loading := false; q_error := "" |},
           Some data)
      | inr m =>
          (Some body,
           {| answers := answers st; loading := false; q_error := m |},
           None)
      end
  end.

(** *** ResultsStage: the banner of applied tips *)

(** [<Tag>{t.tip.split('.')[0].substring(0, 50)}</Tag>]: [split] exists
    on strings only. *)
Definition banner_tag (t : value) : option (list node) :=
  tip ← get t "tip";
  match tip with
  | VStr s =>
      k ← child (VStr (substring0 50 (before_dot s)));
      Some [Tag "gold" k]
  | _ => None
  end.

(** [headsUp.length > 0 && ... headsUp.slice(0, 3).map(..)] over
    [data?.heads_up_tips || []]. *)
Definition ResultsStage_banner (data : value) : option (list node) :=
  when_nonempty (list_field data "heads_up_tips") (λ tips,
    tags ← render_each (λ _ t, banner_tag t) 0 (take 3 tips);
    Some [El "div" [] (El "span" [] [Text "⚡ RECRUITER TIPS APPLIED"] :: tags)]).

(** *** App *)

Record AppState := {
  stage : Stage;
  password : string;
  analysisData : value;
  resultData : value;
}.

Definition App_init : AppState :=
  {| stage := PASSWORD; password := ""; analysisData := VNull; resultData := VNull |}.

Definition setStage (s : Stage) (a : AppState) : AppState :=
  {| stage := s; password := password a;
     analysisData := analysisData a; resultData := resultData a |}.

Definition setPassword (p : string) (a : AppState) : AppState :=
  {| stage := stage a; password := p;
     analysisData := analysisData a; resultData := resultData a |}.

Definition setAnalysisData (d : value) (a : AppState) : AppState :=
  {| stage := stage a; password := password a;
     analysisData := d; resultData := resultData a |}.

Definition setResultData (d : value) (a : AppState) : AppState :=
  {| stage := stage a; password := password a;
     analysisData := analysisData a; resultData := d |}.

Definition handlePasswordSuccess (pwd : string) (a : AppState) : AppState :=
  setStage INPUT (setPassword pwd a).

Definition handleAnalyze (data : value) (a : AppState) : AppState :=
  setStage QUESTIONS (setAnalysisData data a).

Definition handleGenerate (data : value) (a : AppState) : AppState :=
  setStage RESULTS (setResultData data a).

Definition handleRestart (a : AppState) : AppState :=
  setStage INPUT (setResultData VNull (setAnalysisData VNull a)).

(** [InputStageWrapper.handleAnalyze(formData)]: [onAnalyzing()], the
    fetch, then [onAnalyze(data)] or [onError()], with the reply taken at
    once; [Live_on] below has the request in flight in between. *)
Definition InputStageWrapper_handleAnalyze (fd : FormData)
    (net : FormData → Fetched) (a : AppState) : AppState :=
  let a := setStage ANALYZING a in
  match settle "Analysis failed." (net fd) with
  | inl data => handleAnalyze data a
  | inr _ => setStage INPUT a
  end.

(** The [onGenerate] prop of the questions stage:
    [setStage(GENERATING); Promise.resolve(data).then(handleGenerate)]. *)
Definition App_onGenerate (data : value) (a : AppState) : AppState :=
  handleGenerate data (setStage GENERATING a).

(** What can happen to the app, each event tied to the stage whose
    component offers it: the password form, the input form with the state
    the user has brought it to, the generate button with the answers
    typed so far, and the restart button.  The network's replies are part
    of the event. *)
Inductive AppEvent :=
| SubmitPassword (pwd : string)
| SubmitInput (st : InputState) (net : FormData → Fetched)
| ClickGenerate (st : QuestionsState) (net : gmap string value → Fetched)
| ClickRestart.

Definition App_on (ev : AppEvent) (a : AppState) : AppState :=
  match ev, stage a with
  | SubmitPassword pwd, PASSWORD =>
      match PasswordStage_handleSubmit pwd with
      | inl p => handlePasswordSuccess p a
      | inr _ => a
      end
  | SubmitInput st net, INPUT =>
      match (InputStage_handleSubmit (password a) st).2 with
      | Some fd => InputStageWrapper_handleAnalyze fd net a
      | None => a
      end
  | ClickGenerate st net, QUESTIONS =>
      match (QuestionsStage_handleGenerate (password a) (analysisData a) net st).2 with
      | Some data => App_onGenerate data a
      | None => a
      end
  | ClickRestart, RESULTS => handleRestart a
  | _, _ => a
  end.

(** The requests a run of the app sends, oldest first. *)
Inductive Request :=
| AnalyzeRequest (fd : FormData)
| GenerateRequest (body : gmap string value).

Definition App_sends (ev : AppEvent) (a : AppState) : list Request :=
  match ev, stage a with
  | SubmitInput st net, INPUT =>
      match (InputStage_handleSubmit (password a) st).2 with
      | Some fd => [AnalyzeRequest fd]
      | None => []
      end
  | ClickGenerate st net, QUESTIONS =>
      match (QuestionsStage_handleGenerate (password a) (analysisData a) net st).1.1 with
      | Some body => [GenerateRequest body]
      | None => []
      end
  | _, _ => []
  end.

(** A run from a state: the states passed through (the first excluded)
    and the requests sent. *)
Fixpoint App_run (evs : list AppEvent) (a : AppState)
    : list AppState * list Request :=
  match evs with
  | [] => ([], [])
  | ev :: evs' =>
      let a' := App_on ev a in
      let r := App_run evs' a' in
      (a' :: r.1, App_sends ev a ++ r.2)
  end.

(** *** PasswordStage: the form state *)

Record PasswordState := {
  pwd : string;
  pw_error : string;
  show : bool;
}.

Definition PasswordStage_init : PasswordState :=
  {| pwd := ""; pw_error := ""; show := false |}.

(** Typing into the input ([setPwd(e.target.value); setError('')]), the
    eye button ([setShow(!show)]) and the form's submit. *)
Inductive PasswordEvent :=
| TypePassword (v : string)
| ToggleShow
| SubmitPasswordForm.

(** The state after an event and, for a submit that passes, the argument
    of [onSuccess]. *)
Definition PasswordStage_on (ev : PasswordEvent) (st : PasswordState)
    : PasswordState * option string :=
  match ev with
  | TypePassword v => ({| pwd := v; pw_error := ""; show := show st |}, None)
  | ToggleShow =>
      ({| pwd := pwd st; pw_error := pw_error st; show := negb (show st) |}, None)
  | SubmitPasswordForm =>
      match PasswordStage_handleSubmit (pwd st) with
      | inl p => (st, Some p)
      | inr e => ({| pwd := pwd st; pw_error := e; show := show st |}, None)
      end
  end.

(** The input ([type={show ? 'text' : 'password'}]) and
    [{error && <p>{error}</p>}]. *)
Definition PasswordStage (st : PasswordState) : list node :=
  [El "input" [("type", VStr (if show st then "text" else "password"));
               ("value", VStr (pwd st))] []]
  ++ (if String.eqb (pw_error st) "" then []
      else [El "p" [] [Text (pw_error st)]]).

(** *** FileZone *)

(** [const f = files[0]; if (f) onFile(f)], the body of both
    [handleChange] (the file dialog) and [handleDrop]: [files] is the
    selection, [onFile] the setter the zone was given. *)
Definition FileZone_take {S : Type} (onFile : File → S → S)
    (files : list File) (st : S) : S :=
  match files with
  | f :: _ => onFile f st
  | [] => st
  end.

(** The zone's own state is [dragging]: set by [onDragOver], cleared by
    [onDragLeave] and by a drop. *)
Inductive ZoneEvent :=
| DragOver
| DragLeave
| Drop (files : list File)
| Choose (files : list File).

Definition FileZone_dragging (ev : ZoneEvent) (dragging : bool) : bool :=
  match ev with
  | DragOver => true
  | DragLeave | Drop _ => false
  | Choose _ => dragging
  end.

Definition FileZone_files (ev : ZoneEvent) : list File :=
  match ev with
  | Drop files | Choose files => files
  | DragOver | DragLeave => []
  end.

(** [(file.size / 1024).toFixed(0)]: the quotient is exact in floating
    point for any file size, and [toFixed] takes the nearest integer, the
    larger one on a tie. *)
Definition kilobytes (bytes : N) : N := ((bytes + 512) / 1024)%N.

(** What the zone shows: the file's name and size, or the invitation to
    drop one. *)
Definition FileZone (file : option File) : list node :=
  match file with
  | Some f =>
      [El "span" [] [Text (name f)];
       El "span" [] [Text "("; Text (pretty (kilobytes (size f))); Text " KB)"]]
  | None =>
      [El "p" [] [Text "Drop PDF here or "; El "span" [] [Text "click to browse"]];
       El "p" [] [Text "Max 5MB · PDF only"]]
  end.

(** The input stage with its two zones: an event of the form itself, or
    an event of the CV zone ([onFile={setCvFile}]) or of the LinkedIn zone
    ([onFile={setLinkedinFile}]). *)
Inductive FormEvent :=
| OnForm (ev : InputEvent)
| OnCvZone (ev : ZoneEvent)
| OnLinkedinZone (ev : ZoneEvent).

Definition InputStage_form_on (password : string) (ev : FormEvent)
    (st : InputState) : InputState :=
  match ev with
  | OnForm ev => InputStage_on password ev st
  | OnCvZone ev => FileZone_take setCvFile (FileZone_files ev) st
  | OnLinkedinZone ev => FileZone_take setLinkedinFile (FileZone_files ev) st
  end.

(** [form[field]] *)
Definition field_of (field : Field) (f : Form) : string :=
  match field with
  | Fcompany => company f
  | Frole => role f
  | Flocation => location f
  | FjobDescription => jobDescription f
  end.

(** *** AnalyzingStage *)

Definition ANALYSIS_STEPS : list string :=
  ["Parsing your CV...";
   "Gathering ATS intelligence (Container A)...";
   "Researching company culture (Container B)...";
   "Mapping role requirements (Container C)...";
   "Finding ABC intersection — highest priority items...";
   "Detecting gaps and AI patterns...";
   "Preparing your questions..."].

(** The interval's callback:
    [setStep(s => Math.min(s + 1, ANALYSIS_STEPS.length - 1))]. *)
Definition AnalyzingStage_tick (step : nat) : nat :=
  Nat.min (step + 1) (length ANALYSIS_STEPS - 1).

(** One line of the list: shown at full opacity when [i <= step], with a
    check mark when [i < step] and a pulsing dot when [i === step]. *)
Definition step_row (step i : nat) (s : string) : node :=
  El "div" [("opacity", VNum (if i <=? step then 100 else 20))]
    [El "div" []
       ((if i <? step then [El "svg" [] []] else [])
        ++ (if i =? step then [El "div" [] []] else []));
     El "span" [("color", VStr (if i =? step then "gold"
                                else if i <? step then "ghost" else "muted"))]
       [Text s]].

Definition AnalyzingStage (step : nat) : list node :=
  imap (step_row step) ANALYSIS_STEPS.

(** *** ResultsStage *)

Record ResultsState := {
  activeTab : string;
  copied : string;
}.

Definition ResultsStage_init : ResultsState :=
  {| activeTab := "cv-ats"; copied := "" |}.

(** [TABS]: id, label, icon. *)
Definition TABS : list (string * string * string) :=
  [("cv-ats", "CV (ATS)", "📄");
   ("cv-human", "CV (Polished)", "✨");
   ("cover", "Cover Letter", "📝");
   ("linkedin", "LinkedIn Tips", "🔗");
   ("strategy", "Strategy", "🎯");
   ("changelog", "Change Log", "📋")].

(** [data?.output || {}] *)
Definition output_of (data : value) : value :=
  or_else (get_opt data "output") (VObj ∅).

(** [tabContent[tab]]: an object literal with the three text tabs. *)
Definition tabContent (output : value) (tab : string) : value :=
  if String.eqb tab "cv-ats" then get_opt output "cv_ats_version"
  else if String.eqb tab "cv-human" then get_opt output "cv_human_version"
  else if String.eqb tab "cover" then get_opt output "cover_letter"
  else VUndefined.

(** [['cv-ats', 'cv-human', 'cover'].includes(tab)] *)
Definition is_text_tab (tab : string) : bool :=
  String.eqb tab "cv-ats" || String.eqb tab "cv-human" || String.eqb tab "cover".

(** [{v && (<wrapper>{v}</wrapper>)}]: the wrapped child when [v] is
    truthy, what React makes of the falsy [v] otherwise. *)
Definition when_truthy (v : value) (wrap : list node → node)
    : option (list node) :=
  k ← child v;
  Some (if truthy v then [wrap k] else k).

(** [v.length === 0] *)
Definition length_is0 (v : value) : bool :=
  match length_of v with
  | VNum 0 => true
  | _ => false
  end.

(** The row of four counters; each shows [{val}] over its label. *)
Definition summary_card (label : string) (v : value) : option (list node) :=
  k ← child (length_of v);
  Some [Card [El "p" [] k; El "p" [] [Text label]]].

Definition summary_row (aiWords autoFixes changeLog linkedinTips : value)
    : option (list node) :=
  a ← summary_card "AI Words Removed" aiWords;
  f ← summary_card "Auto-Fixes Applied" autoFixes;
  c ← summary_card "Changes Made" changeLog;
  l ← summary_card "LinkedIn Tips" linkedinTips;
  Some [El "div" [] (a ++ f ++ c ++ l)].

(** The tab bar: one button per tab, the active one marked. *)
Definition tab_bar (st : ResultsState) : list node :=
  (λ t : string * string * string,
     El "button" [("active", VBool (String.eqb (activeTab st) t.1.1))]
       [Text t.2; Text " "; Text t.1.2]) <$> TABS.

Definition text_blurb (tab : string) : list node :=
  (if String.eqb tab "cv-ats"
   then [El "p" [] [Text "ATS-optimised version — plain text, maximum keyword density. Use this to submit via online forms."]]
   else [])
  ++ (if String.eqb tab "cv-human"
      then [El "p" [] [Text "Polished version — for emailing directly to a hiring manager or attaching to an application."]]
      else [])
  ++ (if String.eqb tab "cover"
      then [El "p" [] [Text "Tailored cover letter — company-specific, human-voiced, anti-AI-pattern."]]
      else []).

(** The panel of a text tab:
    [includes(activeTab) && tabContent[activeTab] && (...)]. *)
Definition text_panel (output : value) (st : ResultsState)
    : option (list node) :=
  if is_text_tab (activeTab st) then
    when_truthy (tabContent output (activeTab st)) (λ k,
      El "div" []
        [El "div" []
           [El "div" [] (text_blurb (activeTab st));
            El "button" []
              [Text (if String.eqb (copied st) (activeTab st)
                     then "✓ Copied!" else "⎘ Copy")]];
         Card [El "pre" [] k]])
  else Some [].

(** One LinkedIn tip. *)
Definition linkedin_tip_card (tip : value) : option (list node) :=
  section ← get tip "section";
  ks ← child section;
  issue ← get tip "current_issue";
  ki ← when_truthy issue (λ k,
          El "div" [] [El "p" [] [Text "CURRENT ISSUE"]; El "p" [] k]);
  rec ← get tip "recommended_text";
  kr ← when_truthy rec (λ k,
          El "div" [] [El "p" [] [Text "RECOMMENDED"]; El "p" [] k]);
  why ← get tip "why";
  kw ← when_truthy why (λ k, El "p" [] k);
  Some [Card (El "div" [] [Tag "gold" ks] :: ki ++ kr ++ kw)].

(** [list.length === 0 ? <Card>placeholder</Card> : list.map(card)] *)
Definition cards_or (placeholder : string)
    (card : value → option (list node)) (v : value) : option (list node) :=
  if length_is0 v then Some [Card [El "p" [] [Text placeholder]]]
  else xs ← elements_of v; render_each (λ _ x, card x) 0 xs.

Definition linkedin_panel (linkedinTips : value) (st : ResultsState)
    : option (list node) :=
  if String.eqb (activeTab st) "linkedin" then
    cards ← cards_or "No LinkedIn PDF was provided. Upload your LinkedIn PDF next time for personalised tips."
               linkedin_tip_card linkedinTips;
    Some [El "div" []
            (El "p" [] [Text "Specific, actionable LinkedIn improvements based on this role and company."]
             :: cards)]
  else Some [].

(** [{output?.application_strategy || 'No strategy generated.'}] *)
Definition strategy_panel (output : value) (st : ResultsState)
    : option (list node) :=
  if String.eqb (activeTab st) "strategy" then
    k ← child (or_else (get_opt output "application_strategy")
                 (VStr "No strategy generated."));
    Some [Card [El "p" [] [Text "Application Strategy"]; El "p" [] k]]
  else Some [].

(** One change-log entry: original, changed to, reason. *)
Definition change_card (c : value) : option (list node) :=
  o ← get c "original";
  ko ← child o;
  t ← get c "changed_to";
  kt ← child t;
  r ← get c "reason";
  kr ← child r;
  Some [Card [El "div" []
                [El "div" [] [El "p" [] [Text "ORIGINAL"]; El "p" [] ko];
                 El "div" [] [El "p" [] [Text "CHANGED TO"]; El "p" [] kt]];
              El "p" [] kr]].

Definition changelog_panel (changeLog : value) (st : ResultsState)
    : option (list node) :=
  if String.eqb (activeTab st) "changelog" then
    cards ← cards_or "No detailed change log available." change_card changeLog;
    Some [El "div" []
            (El "p" [] [Text "Every change made to your CV — and exactly why. Full transparency."]
             :: cards)]
  else Some [].

(** [aiWords.length > 0 && (...)]: the notice under the panel. *)
Definition ai_words_notice (aiWords : value) : option (list node) :=
  when_nonempty aiWords (λ ws,
    tags ← render_each (λ _ w, k ← child w; Some [Tag "danger" k]) 0 ws;
    Some [Card [El "p" [] [Text "AI-PATTERN WORDS REMOVED FROM YOUR CV"];
                El "div" [] tags;
                El "p" [] [Text "These words are statistically flagged by recruiters and AI detectors as generated content. We replaced them with natural, specific language."]]]).

(** The panel under the tab bar: the four conditionals of the source, of
    which at most one applies. *)
Definition ResultsStage_panel (data : value) (st : ResultsState)
    : option (list node) :=
  let output := output_of data in
  t ← text_panel output st;
  l ← linkedin_panel (list_field output "linkedin_tips") st;
  s ← strategy_panel output st;
  c ← changelog_panel (list_field output "change_log") st;
  Some (t ++ l ++ s ++ c).

(** The render of the stage, in the order of the source. *)
Definition ResultsStage (data : value) (st : ResultsState)
    : option (list node) :=
  let output := output_of data in
  let autoFixes := list_field data "auto_fixes_applied" in
  let aiWords := list_field data "ai_words_removed" in
  let changeLog := list_field output "change_log" in
  let linkedinTips := list_field output "linkedin_tips" in
  b ← ResultsStage_banner data;
  r ← summary_row aiWords autoFixes changeLog linkedinTips;
  p ← ResultsStage_panel data st;
  n ← ai_words_notice aiWords;
  Some ([El "button" [] [Text "New Application"]] ++ b ++ r
        ++ [El "div" [] (tab_bar st)] ++ [El "div" [] p] ++ n).

(** What the user can do on the results stage besides restarting: pick a
    tab ([setActiveTab(t.id)] for a [t] of [TABS]), press the copy button
    of a text panel ([handleCopy(tabContent[activeTab], activeTab)]), and
    the timer that [handleCopy] starts running out ([setCopied('')]). *)
Inductive ResultsEvent :=
| PickTab (i : nat)
| PressCopy
| CopyExpired.

(** The state after an event and the text handed to [copyToClipboard],
    if any.  The copy button exists only on a text tab whose content is
    truthy. *)
Definition ResultsStage_on (data : value) (ev : ResultsEvent)
    (st : ResultsState) : ResultsState * option string :=
  match ev with
  | PickTab i =>
      match TABS !! i with
      | Some t => ({| activeTab := t.1.1; copied := copied st |}, None)
      | None => (st, None)
      end
  | PressCopy =>
      if is_text_tab (activeTab st)
         && truthy (tabContent (output_of data) (activeTab st))
      then ({| activeTab := activeTab st; copied := activeTab st |},
            Some (to_string (tabContent (output_of data) (activeTab st))))
      else (st, None)
  | CopyExpired => ({| activeTab := activeTab st; copied := "" |}, None)
  end.

(** *** The page: the App with the state of the mounted stage *)

(** Each stage component is rendered under [stage === STAGES.X && ...],
    so it is unmounted when the stage changes and mounted anew, with its
    [useState] initial values, when the stage comes back. *)
Record Page := {
  app : AppState;
  password_st : PasswordState;
  input_st : InputState;
  questions_st : QuestionsState;
  results_st : ResultsState;
}.

Definition Page_init : Page :=
  {| app := App_init; password_st := PasswordStage_init;
     input_st := InputStage_init; questions_st := QuestionsStage_init;
     results_st := ResultsStage_init |}.

(** The page once the app has moved to [a']: a stage that is entered is
    mounted with its initial state; [kept] is the state of the stages when
    the stage does not change. *)
Definition remount (old : Stage) (a' : AppState) (kept : Page) : Page :=
  if decide (stage a' = old) then
    {| app := a'; password_st := password_st kept; input_st := input_st kept;
       questions_st := questions_st kept; results_st := results_st kept |}
  else
    {| app := a'; password_st := PasswordStage_init;
       input_st := InputStage_init; questions_st := QuestionsStage_init;
       results_st := ResultsStage_init |}.

Inductive PageEvent :=
| OnPassword (ev : PasswordEvent)
| OnInput (ev : FormEvent) (net : FormData → Fetched)
| TypeAnswer (i : nat) (val : string)
| PressGenerate (net : gmap string value → Fetched)
| OnResults (ev : ResultsEvent)
| PressRestart.

Definition with_password_st (s : PasswordState) (p : Page) : Page :=
  {| app := app p; password_st := s; input_st := input_st p;
     questions_st := questions_st p; results_st := results_st p |}.

Definition with_input_st (s : InputState) (p : Page) : Page :=
  {| app := app p; password_st := password_st p; input_st := s;
     questions_st := questions_st p; results_st := results_st p |}.

Definition with_questions_st (s : QuestionsState) (p : Page) : Page :=
  {| app := app p; password_st := password_st p; input_st := input_st p;
     questions_st := s; results_st := results_st p |}.

Definition with_results_st (s : ResultsState) (p : Page) : Page :=
  {| app := app p; password_st := password_st p; input_st := input_st p;
     questions_st := questions_st p; results_st := s |}.

(** One event on the page.  An event of a stage that is not the mounted
    one cannot occur and changes nothing.  A submit that passes leaves the
    input stage for the analyzing stage before the reply comes, so the
    input stage is mounted anew even when the analysis fails and the app
    comes back to it. *)
Definition Page_on (ev : PageEvent) (p : Page) : Page :=
  match ev, stage (app p) with
  | OnPassword ev, PASSWORD =>
      let r := PasswordStage_on ev (password_st p) in
      match r.2 with
      | Some pw => remount PASSWORD (handlePasswordSuccess pw (app p)) p
      | None => with_password_st r.1 p
      end
  | OnInput (OnForm Submit) net, INPUT =>
      let r := InputStage_handleSubmit (password (app p)) (input_st p) in
      match r.2 with
      | Some fd =>
          remount ANALYZING (InputStageWrapper_handleAnalyze fd net (app p)) p
      | None => with_input_st r.1 p
      end
  | OnInput ev _, INPUT =>
      with_input_st (InputStage_form_on (password (app p)) ev (input_st p)) p
  | TypeAnswer i val, QUESTIONS =>
      with_questions_st
        (type_answer (analysisData (app p)) i val (questions_st p)) p
  | PressGenerate net, QUESTIONS =>
      let r := QuestionsStage_handleGenerate (password (app p))
                 (analysisData (app p)) net (questions_st p) in
      match r.2 with
      | Some data => remount QUESTIONS (App_onGenerate data (app p)) p
      | None => with_questions_st r.1.2 p
      end
  | OnResults ev, RESULTS =>
      with_results_st
        (ResultsStage_on (resultData (app p)) ev (results_st p)).1 p
  | PressRestart, RESULTS => remount RESULTS (handleRestart (app p)) p
  | _, _ => p
  end.

(** The event of the [App] a page event amounts to. *)
Definition app_event (ev : PageEvent) (p : Page) : option AppEvent :=
  match ev with
  | OnPassword SubmitPasswordForm => Some (SubmitPassword (pwd (password_st p)))
  | OnInput (OnForm Submit) net => Some (SubmitInput (input_st p) net)
  | PressGenerate net => Some (ClickGenerate (questions_st p) net)
  | PressRestart => Some ClickRestart
  | _ => None
  end.

Definition Page_run (evs : list PageEvent) (p : Page) : Page :=
  foldl (λ p ev, Page_on ev p) p evs.

(** *** The app with its request in flight *)

(** [InputStageWrapper.handleAnalyze] and [QuestionsStage.handleGenerate]
    return at [await fetch]; what follows the [await] runs when the fetch
    has settled, which is an event of its own.  In between the page rests
    with the request in flight: in the analyzing stage for an analyze
    request ([onAnalyzing()] ran before the fetch), in the questions stage
    with [loading] set for a generate request. *)
Inductive Awaited :=
| AwaitedAnalyze (fd : FormData)
| AwaitedGenerate (body : gmap string value).

Record Live := {
  shown : AppState;
  awaited : option Awaited;
}.

Definition Live_init : Live := {| shown := App_init; awaited := None |}.

(** The events of [AppEvent], the two submits now without their reply,
    and the settling of the fetch in flight. *)
Inductive LiveEvent :=
| PasswordSubmitted (pwd : string)
| InputSubmitted (st : InputState)
| GenerateClicked (st : QuestionsState)
| RestartClicked
| Settled (r : Fetched).

(** One event.  A passing submit of the input form runs [onAnalyzing()]
    and sends the request.  The generate button is [disabled={loading}],
    so it offers no click while a generate request is in flight; a click
    sends the request when the body can be built and leaves the stage as
    it is.  When the fetch settles the rest of the handler runs:
    [onAnalyze(data)] or [onError()] for an analyze request,
    [onGenerate(data)] or nothing for a generate request. *)
Definition Live_on (ev : LiveEvent) (l : Live) : Live :=
  let a := shown l in
  match ev with
  | PasswordSubmitted pwd =>
      match stage a, PasswordStage_handleSubmit pwd with
      | PASSWORD, inl p =>
          {| shown := handlePasswordSuccess p a; awaited := awaited l |}
      | _, _ => l
      end
  | InputSubmitted st =>
      match stage a, (InputStage_handleSubmit (password a) st).2 with
      | INPUT, Some fd =>
          {| shown := setStage ANALYZING a; awaited := Some (AwaitedAnalyze fd) |}
      | _, _ => l
      end
  | GenerateClicked st =>
      match stage a, awaited l,
            generate_body (password a) (analysisData a) (answers st) with
      | QUESTIONS, None, Some body =>
          {| shown := a; awaited := Some (AwaitedGenerate body) |}
      | _, _, _ => l
      end
  | RestartClicked =>
      match stage a with
      | RESULTS => {| shown := handleRestart a; awaited := awaited l |}
      | _ => l
      end
  | Settled r =>
      match awaited l with
      | Some (AwaitedAnalyze _) =>
          {| shown := match settle "Analysis failed." r with
                      | inl data => handleAnalyze data a
                      | inr _ => setStage INPUT a
                      end;
             awaited := None |}
      | Some (AwaitedGenerate _) =>
          {| shown := match settle "Generation failed." r with
                      | inl data => App_onGenerate data a
                      | inr _ => a
                      end;
             awaited := None |}
      | None => l
      end
  end.

Definition Live_run (evs : list LiveEvent) (l : Live) : Live :=
  foldl (λ l ev, Live_on ev l) l evs.

End Frontend.

(* ===================================================================== *)
(** ** The session-scoped pipeline *)
(* ===================================================================== *)
(** The repository holds the page and the setup guide; the [backend/]
    folder the guide deploys is not among the sources.  Every definition of
    this module is therefore written from the pipeline's contract (design
    sections 3 to 7), and says so. *)
Module Pipeline.

(** *** Data model *)

(** Modelled from the spec: the three containers of section 2. *)
Inductive Container := ATS | Culture | Role.

(** Modelled from the spec: the records of the data model, section 3,
    field by field ([Finding], [Tip], [Question], [Contradiction], [Job],
    the change-log entry and [GenerationOutput]). *)
Record Finding := {
  sourceContainer : Container;
  statement : string;
  citation_url : option string;
  confidence : nat;
}.

Record Tip := {
  text : string;
  source : string;
  source_url : option string;
  action_taken : option string;
}.

Record Question := {
  id : string;
  question : string;
  context : string;
}.

Record Contradiction := {
  cv_claim : string;
  linkedin_claim : string;
}.

(** Modelled from the spec: gaps, auto-fixes and AI words are "simple
    value records", each a description. *)
Definition Gap := string.
Definition AutoFix := string.
Definition AIWord := string.

Record Job := {
  company : string;
  role : string;
  location : string;
  description : string;
}.

Record ChangeLogEntry := {
  original : string;
  changed_to : string;
  reason : string;
}.

Record GenerationOutput := {
  cv_ats_version : string;
  cv_human_version : string;
  cover_letter : string;
  linkedin_tips : list string;
  application_strategy : string;
  change_log : list ChangeLogEntry;
}.

(** Modelled from the spec: the error taxonomy of section 7 ([NotFound]
    is the [None] of [get]). *)
Inductive Error :=
| InvalidInput
| IntelligenceUnavailable
| SessionExpired
| SessionConsumed
| RateLimited
| GenerationPartialFailure.

(** Modelled from the spec: the result of [gather], one finding set per
    container. *)
Record Findings := {
  atsFindings : list Finding;
  cultureFindings : list Finding;
  roleFindings : list Finding;
}.

(** Modelled from the spec: the session of section 3; its [id] is the
    key it is stored under, times are seconds on the store's clock. *)
Record Session := {
  createdAt : nat;
  expiresAt : nat;
  cv_text : string;
  linkedin_text : option string;
  job : Job;
  findings : Findings;
  gaps : list Gap;
  contradictions : list Contradiction;
  autoFixes : list AutoFix;
  aiWords : list AIWord;
  headsUpTips : list Tip;
  questions : list Question;
  answers : gmap string string;
}.

(** *** External collaborators *)

(** Modelled from the spec: what one research query comes back with once
    it has settled (section 4.1): findings not yet in the common shape, a
    failure, or a timeout. *)
Record RawFinding := {
  raw_statement : string;
  raw_url : option string;
  raw_confidence : nat;
}.

Inductive Outcome :=
| Returned (found : list RawFinding)
| Failed
| TimedOut.

(** Modelled from the spec: the search capability as one analysis sees
    it, the settled outcome of the query sent to each container. *)
Definition Search := Container → Job → Outcome.

(** Modelled from the spec: the text-generation capability as one generate
    call sees it, the whole bundle or nothing when an artifact failed to
    synthesize ("a partially generated bundle is not returned"). *)
Definition Generator := Session → option GenerationOutput.

(** Modelled from the spec: the capabilities sections 2 and 6 leave to
    collaborators or to the implementer (text extraction, the similarity
    ranking of the Intersection Engine, the four detectors of the Gap and
    Pattern Detector, and which gaps need the user's input).  The pipeline
    is stated over any choice of them. *)
Class Collaborators := {
  extractText : list N → option string;
  intersect : Findings → list Tip;
  find_gaps : string → Job → Findings → list Gap;
  find_contradictions : string → string → list Contradiction;
  find_autoFixes : string → list AutoFix;
  find_aiWords : string → list AIWord;
  needs_user_input : Gap → bool;
}.

(** *** 4.1 Intelligence Gatherer *)

(** Modelled from the spec: a raw finding put into the common shape. *)
Definition normalise (c : Container) (r : RawFinding) : Finding :=
  {| sourceContainer := c; statement := raw_statement r;
     citation_url := raw_url r; confidence := raw_confidence r |}.

(** Modelled from the spec: "a container that fails or times out returns
    an empty finding set rather than failing the whole gather". *)
Definition contribution (c : Container) (o : Outcome) : list Finding :=
  match o with
  | Returned found => normalise c <$> found
  | Failed | TimedOut => []
  end.

(** Modelled from the spec: "zero containers return any findings". *)
Definition no_findings (f : Findings) : bool :=
  match atsFindings f, cultureFindings f, roleFindings f with
  | [], [], [] => true
  | _, _, _ => false
  end.

(** Modelled from the spec: [gather(job)], merged after all three queries
    have settled; "fails with IntelligenceUnavailable only if zero
    containers return any findings". *)
Definition gather (search : Search) (j : Job) : Error + Findings :=
  let f := {| atsFindings := contribution ATS (search ATS j);
              cultureFindings := contribution Culture (search Culture j);
              roleFindings := contribution Role (search Role j) |} in
  if no_findings f then inl IntelligenceUnavailable else inr f.

(** *** 4.3 Gap and Pattern Detector *)

(** Modelled from the spec: the four outputs of [detect]. *)
Record Detection := {
  d_gaps : list Gap;
  d_contradictions : list Contradiction;
  d_autoFixes : list AutoFix;
  d_aiWords : list AIWord;
}.

(** Modelled from the spec: [detect(cvText, linkedinText?, job,
    findings)], total except on an empty [cvText]; contradictions are
    computed only when the LinkedIn text is present. *)
Definition detect `{Collaborators} (cvText : string)
    (linkedinText : option string) (j : Job) (f : Findings)
    : Error + Detection :=
  if String.eqb cvText "" then inl InvalidInput
  else inr {| d_gaps := find_gaps cvText j f;
              d_contradictions :=
                match linkedinText with
                | Some li => find_contradictions cvText li
                | None => []
                end;
              d_autoFixes := find_autoFixes cvText;
              d_aiWords := find_aiWords cvText |}.

(** *** 4.4 Question Synthesizer *)

(** Modelled from the spec: a question about a gap asks "for any
    evidence/experience not captured in the CV"; its id is fixed by the
    gap's position. *)
Definition gap_question (i : nat) (g : Gap) : Question :=
  {| id := "gap-" +:+ pretty i;
     question := "Do you have experience or evidence for this that is not in your CV?";
     context := "The role asks for it and the CV does not show it: " +:+ g |}.

(** Modelled from the spec: a question about a contradiction asks "which
    version is authoritative". *)
Definition contradiction_question (i : nat) (c : Contradiction) : Question :=
  {| id := "contradiction-" +:+ pretty i;
     question := "Which version is authoritative?";
     context := "Your CV says: " +:+ cv_claim c +:+ " / LinkedIn says: "
                +:+ linkedin_claim c |}.

(** Modelled from the spec: [synthesize(gaps, contradictions)], "at most
    one question per gap/contradiction that cannot be resolved
    automatically": a gap gives a question when it needs the user's
    input, a contradiction always does. *)
Definition synthesize `{Collaborators} (gs : list Gap)
    (cs : list Contradiction) : list Question :=
  mjoin (imap (λ i g, if needs_user_input g then [gap_question i g] else []) gs)
  ++ imap contradiction_question cs.

(** *** 4.5 Session Store *)

(** Modelled from the spec: the documented TTL of one hour, in seconds. *)
Definition TTL : nat := 3600.

(** Modelled from the spec: the store as an id-indexed map with its clock;
    beside the sessions held at rest it keeps the ids [generate] was
    already called for, and the history of [create] and [delete] calls
    (ids with their time), which holds no session data. *)
Record Store := {
  now : nat;
  next_id : nat;
  sessions : gmap nat Session;
  consumed : gset nat;
  created_log : gmap nat nat;
  delete_log : list (nat * nat);
}.

(** Modelled from the spec: the store at start-up. *)
Definition Store_init : Store :=
  {| now := 0; next_id := 0; sessions := ∅; consumed := ∅;
     created_log := ∅; delete_log := [] |}.

(** Modelled from the spec: [create(sessionData) -> id]; the expiry is
    the TTL "measured from creation". *)
Definition create (data : Session) (st : Store) : nat * Store :=
  let i := next_id st in
  let s := {| createdAt := now st; expiresAt := now st + TTL;
              cv_text := cv_text data; linkedin_text := linkedin_text data;
              job := job data; findings := findings data; gaps := gaps data;
              contradictions := contradictions data;
              autoFixes := autoFixes data; aiWords := aiWords data;
              headsUpTips := headsUpTips data; questions := questions data;
              answers := answers data |} in
  (i, {| now := now st; next_id := S i; sessions := <[i := s]> (sessions st);
         consumed := consumed st;
         created_log := <[i := now st]> (created_log st);
         delete_log := delete_log st |}).

(** Modelled from the spec: [delete(id) -> void]. *)
Definition delete_session (i : nat) (st : Store) : Store :=
  {| now := now st; next_id := next_id st; sessions := delete i (sessions st);
     consumed := consumed st; created_log := created_log st;
     delete_log := delete_log st ++ [(i, now st)] |}.

(** Modelled from the spec: a session has expired once its TTL has
    elapsed. *)
Definition expired (t : nat) (s : Session) : bool := expiresAt s <=? t.

(** Modelled from the spec: [get(id) -> Session | NotFound]; "get on an
    expired session returns NotFound and triggers eager deletion". *)
Definition get (i : nat) (st : Store) : Store * option Session :=
  match sessions st !! i with
  | None => (st, None)
  | Some s => if expired (now st) s then (delete_session i st, None) else (st, Some s)
  end.

(** Modelled from the spec: the sessions whose TTL has run out. *)
Definition expired_ids (st : Store) : list nat :=
  (map_to_list (filter (λ kv, expired (now st) kv.2 = true) (sessions st))).*1.

(** Modelled from the spec: the expiry sweep of section 5 deletes every
    session whose TTL has run out. *)
Definition sweep (st : Store) : Store :=
  foldr delete_session st (expired_ids st).

(** Modelled from the spec: one second passes; the expiry sweep runs with
    the clock, atomically with respect to the calls. *)
Definition tick (st : Store) : Store :=
  sweep {| now := S (now st); next_id := next_id st; sessions := sessions st;
           consumed := consumed st; created_log := created_log st;
           delete_log := delete_log st |}.

(** *** 4.6 Generation Engine *)

(** Modelled from the spec: the engine records that [generate] was called
    for an id. *)
Definition mark_consumed (i : nat) (st : Store) : Store :=
  {| now := now st; next_id := next_id st; sessions := sessions st;
     consumed := {[i]} ∪ consumed st; created_log := created_log st;
     delete_log := delete_log st |}.

(** Modelled from the spec: answers are bound to the session's questions
    by id; an answer to no question of the session is not bound. *)
Definition bind_answers (s : Session) (a : gmap string string) : Session :=
  {| createdAt := createdAt s; expiresAt := expiresAt s; cv_text := cv_text s;
     linkedin_text := linkedin_text s; job := job s; findings := findings s;
     gaps := gaps s; contradictions := contradictions s;
     autoFixes := autoFixes s; aiWords := aiWords s;
     headsUpTips := headsUpTips s; questions := questions s;
     answers := filter (λ kv, kv.1 ∈ id <$> questions s) a |}.

(** Modelled from the spec: [generate(session, answers)], failing "with
    SessionExpired if the session no longer exists, SessionConsumed if
    generate was already called once for this id": a call is refused when
    one was made for the id before, whatever that one returned, and is
    recorded otherwise, before the session is looked up.  The session is
    deleted once the engine completes, "whether generation succeeded or
    failed". *)
Definition generate (i : nat) (a : gmap string string) (engine : Generator)
    (st : Store) : Store * (Error + GenerationOutput) :=
  if decide (i ∈ consumed st) then (st, inl SessionConsumed)
  else
    match get i (mark_consumed i st) with
    | (st, None) => (st, inl SessionExpired)
    | (st, Some s) =>
        match engine (bind_answers s a) with
        | Some out => (delete_session i st, inr out)
        | None => (delete_session i st, inl GenerationPartialFailure)
        end
    end.

(** *** The analyze operation *)

(** Modelled from the spec: the input and the response of the analyze
    operation, section 6 (the password belongs to the check in front of
    it). *)
Record AnalyzeInput := {
  in_job : Job;
  cv_file : list N;
  linkedin_file : option (list N);
}.

Record AnalyzeResponse := {
  session_id : nat;
  r_questions : list Question;
  gaps_found : list Gap;
  auto_fixes : list AutoFix;
  heads_up_tips : list Tip;
  ai_words_detected : list AIWord;
  linkedin_contradictions : list Contradiction;
}.

(** Modelled from the spec: the text of the optional LinkedIn export,
    absent, or extracted, or unreadable. *)
Definition extract_optional `{Collaborators} (f : option (list N))
    : option (option string) :=
  match f with
  | None => Some None
  | Some bytes =>
      match extractText bytes with
      | Some t => Some (Some t)
      | None => None
      end
  end.

(** Modelled from the spec: the control flow of section 2, Extractor,
    Gatherer, Intersection Engine and Gap Detector, Question Synthesizer,
    then the session is stored. *)
Definition analyze `{Collaborators} (input : AnalyzeInput) (search : Search)
    (st : Store) : Store * (Error + AnalyzeResponse) :=
  match extractText (cv_file input), extract_optional (linkedin_file input) with
  | Some cv, Some li =>
      match gather search (in_job input) with
      | inl e => (st, inl e)
      | inr f =>
          match detect cv li (in_job input) f with
          | inl e => (st, inl e)
          | inr d =>
              let tips := intersect f in
              let qs := synthesize (d_gaps d) (d_contradictions d) in
              let '(i, st') :=
                create {| createdAt := 0; expiresAt := 0; cv_text := cv;
                          linkedin_text := li; job := in_job input;
                          findings := f; gaps := d_gaps d;
                          contradictions := d_contradictions d;
                          autoFixes := d_autoFixes d; aiWords := d_aiWords d;
                          headsUpTips := tips; questions := qs;
                          answers := ∅ |} st in
              (st', inr {| session_id := i; r_questions := qs;
                           gaps_found := d_gaps d;
                           auto_fixes := d_autoFixes d;
                           heads_up_tips := tips;
                           ai_words_detected := d_aiWords d;
                           linkedin_contradictions := d_contradictions d |})
          end
      end
  | _, _ => (st, inl InvalidInput)
  end.

(** *** Runs of the backend *)

(** Modelled from the spec: what reaches the backend, the two operations
    of section 6 with the replies of the external capabilities they meet,
    and the passing of a second. *)
Inductive Call :=
| CallAnalyze (input : AnalyzeInput) (search : Search)
| CallGenerate (i : nat) (a : gmap string string) (engine : Generator)
| Second.

(** Modelled from the spec: the reply to an analyze or a generate call. *)
Definition Reply : Type := (Error + AnalyzeResponse) + (Error + GenerationOutput).

(** Modelled from the spec: one call served. *)
Definition serve `{Collaborators} (c : Call) (st : Store) : Store * option Reply :=
  match c with
  | CallAnalyze input search =>
      let r := analyze input search st in (r.1, Some (inl r.2))
  | CallGenerate i a engine =>
      let r := generate i a engine st in (r.1, Some (inr r.2))
  | Second => (tick st, None)
  end.

(** Modelled from the spec: a sequence of calls served in order. *)
Definition run `{Collaborators} (cs : list Call) (st : Store) : Store :=
  foldl (λ st c, (serve c st).1) st cs.

End Pipeline.

(* ===================================================================== *)
(** ** Vocabulary of the statements, and sample data *)
(* ===================================================================== *)

(** The four messages [handleSubmit] can set. *)
Definition submit_errors : list string :=
  ["Please confirm you have read the CV upload rules.";
   "All fields are required.";
   "Please upload your CV as a PDF.";
   "Job description is too short. Please paste the full JD."].

(** The condition under which the form goes out. *)
Definition submittable (st : Frontend.InputState) : Prop :=
  Frontend.rulesChecked st = true
  ∧ Frontend.company (Frontend.form st) ≠ ""
  ∧ Frontend.role (Frontend.form st) ≠ ""
  ∧ Frontend.location (Frontend.form st) ≠ ""
  ∧ Frontend.jobDescription (Frontend.form st) ≠ ""
  ∧ is_Some (Frontend.cvFile st)
  ∧ 100 ≤ String.length (Frontend.jobDescription (Frontend.form st)).

(** Every text field is within the [maxLength] of its input. *)
Definition within_maxLength (st : Frontend.InputState) : Prop :=
  ∀ field,
    (N.of_nat (String.length
       (match field with
        | Frontend.Fcompany => Frontend.company (Frontend.form st)
        | Frontend.Frole => Frontend.role (Frontend.form st)
        | Frontend.Flocation => Frontend.location (Frontend.form st)
        | Frontend.FjobDescription => Frontend.jobDescription (Frontend.form st)
        end))
     ≤ Frontend.maxLength field)%N.

(** A filled-in form used to exercise the input stage: every field set,
    the rules ticked, a CV attached and a job description of 120 code
    units. *)
Definition sample_jd : string :=
  "We are hiring a backend engineer to build and run payment services in Go and PostgreSQL, on call one week in six, remote".

Definition sample_cv : Frontend.File := {| Frontend.name := "cv.pdf"; Frontend.size := 52000 |}.

Definition sample_events : list Frontend.InputEvent :=
  [Frontend.Change Frontend.Fcompany "Acme";
   Frontend.Change Frontend.Frole "Backend Engineer";
   Frontend.Change Frontend.Flocation "Remote";
   Frontend.Change Frontend.FjobDescription sample_jd;
   Frontend.PickCv sample_cv;
   Frontend.Tick true].

Definition sample_input : Frontend.InputState :=
  foldl (λ st ev, Frontend.InputStage_on "hunter2" ev st)
        Frontend.InputStage_init sample_events.

(** The names of the fields the questions stage reads from the analyze
    response. *)
Definition analyze_fields : list string :=
  ["session_id"; "questions"; "gaps_found"; "auto_fixes"; "heads_up_tips";
   "ai_words_detected"; "linkedin_contradictions"].

(** Everything the questions stage does with the response: what it
    renders, what typing an answer does, and the generate body it
    builds. *)
Definition QuestionsStage_use (password : string) (st : Frontend.QuestionsState)
    (i : nat) (val : string) (analysisData : JS.value)
    : option (list Frontend.node) * Frontend.QuestionsState
      * option (gmap string JS.value) :=
  (Frontend.QuestionsStage analysisData st,
   Frontend.type_answer analysisData i val st,
   Frontend.generate_body password analysisData (Frontend.answers st)).

(** The property keys under which the questions of a response can be
    answered: ToPropertyKey of each question's [id]. *)
Definition question_keys (analysisData : JS.value) : list string :=
  match JS.elements_of (Frontend.list_field analysisData "questions") with
  | Some qs => omap (λ q, Frontend.answer_key <$> JS.get q "id") qs
  | None => []
  end.

(** The states the questions stage passes through while it shows one
    response: it starts with no answers, the user types into answer boxes
    and presses the generate button. *)
Inductive answering (analysisData : JS.value) : Frontend.QuestionsState → Prop :=
| answering_start : answering analysisData Frontend.QuestionsStage_init
| answering_type st i val :
    answering analysisData st →
    answering analysisData (Frontend.type_answer analysisData i val st)
| answering_generate st password net :
    answering analysisData st →
    answering analysisData
      (Frontend.QuestionsStage_handleGenerate password analysisData net st).1.2.

(** A response with one question, and the stage after the user has typed
    an answer to it. *)
Definition sample_response : gmap string JS.value :=
  <["session_id" := JS.VStr "s-1"]>
    (<["questions" :=
         JS.VArr [JS.VObj (<["id" := JS.VStr "q1"]>
                    (<["question" := JS.VStr "Have you run services in production?"]>
                       (<["context" := JS.VStr "The role is on call."]> ∅)))]]> ∅).

Definition sample_answers : Frontend.QuestionsState :=
  Frontend.type_answer (JS.VObj sample_response) 0 "Yes, for three years."
    Frontend.QuestionsStage_init.

(** The properties of a tip the page reads. *)
Definition tip_fields : list string :=
  ["tip"; "source"; "source_url"; "action_taken"].

(** A tip shaped as the data model writes it, with its advice under
    [text]. *)
Definition text_tip : gmap string JS.value :=
  <["text" := JS.VStr "Mirror the job title in your headline."]>
    (<["source" := JS.VStr "Recruiter survey"]> ∅).

(** A contradiction shaped as the data model writes it. *)
Definition claims : gmap string JS.value :=
  <["cv_claim" := JS.VStr "Engineer, 2021 to 2022"]>
    (<["linkedin_claim" := JS.VStr "Senior Engineer, 2021 to present"]> ∅).

Definition claims_record : JS.value := JS.VObj claims.

(** The row of one contradiction given as text. *)
Definition contradiction_row (s : string) : Frontend.node :=
  Frontend.El "div" []
    (Frontend.El "span" [] [Frontend.Text "⚠"]
     :: if String.eqb s "" then [] else [Frontend.Text s]).

(** The request carries the password [p]. *)
Definition carries (p : string) (r : Frontend.Request) : Prop :=
  match r with
  | Frontend.AnalyzeRequest fd => fd !! 0 = Some ("password", Frontend.FText p)
  | Frontend.GenerateRequest body => body !! "password" = Some (JS.VStr p)
  end.

(** A page load taken past the password stage, and a run from there: an
    analysis, a generation, a restart and a second analysis that fails. *)
Definition sample_app : Frontend.AppState :=
  Frontend.App_on (Frontend.SubmitPassword "  hunter2 ") Frontend.App_init.

Definition sample_run : list Frontend.AppEvent :=
  [Frontend.SubmitInput sample_input
     (λ _, Frontend.Responded true (JS.VObj sample_response));
   Frontend.ClickGenerate sample_answers
     (λ _, Frontend.Responded true (JS.VObj ∅));
   Frontend.ClickRestart;
   Frontend.SubmitInput sample_input (λ _, Frontend.Rejected "offline")].

(** Stand-ins for the collaborators, to run the pipeline on examples: a
    file is readable when it is 7-bit text, every role finding the CV
    does not quote is a gap, the CV and the LinkedIn text contradict each
    other when they differ, and a gap needs the user's input unless its
    description is empty. *)
Definition sample_extract (bytes : list N) : option string :=
  if forallb (λ b, b <? 128)%N bytes
  then Some (string_of_list_ascii (ascii_of_N <$> bytes))
  else None.

Definition sample_collaborators : Pipeline.Collaborators := {|
  Pipeline.extractText := sample_extract;
  Pipeline.intersect f :=
    (λ x, {| Pipeline.text := Pipeline.statement x; Pipeline.source := "ATS";
             Pipeline.source_url := Pipeline.citation_url x;
             Pipeline.action_taken := None |}) <$> take 5 (Pipeline.atsFindings f);
  Pipeline.find_gaps cv _ f :=
    Pipeline.statement <$>
      filter (λ x, String.eqb (Pipeline.statement x) cv = false) (Pipeline.roleFindings f);
  Pipeline.find_contradictions cv li :=
    if String.eqb cv li then []
    else [{| Pipeline.cv_claim := cv; Pipeline.linkedin_claim := li |}];
  Pipeline.find_autoFixes _ := [];
  Pipeline.find_aiWords _ := [];
  Pipeline.needs_user_input g := negb (String.eqb g "");
|}.

(** An analysis in which the ATS and culture queries time out and the role
    query returns one finding. *)
Definition sample_job : Pipeline.Job :=
  {| Pipeline.company := "Acme"; Pipeline.role := "Backend Engineer";
     Pipeline.location := "Remote"; Pipeline.description := sample_jd |}.

Definition sample_search : Pipeline.Search :=
  λ c _,
    match c with
    | Pipeline.Role =>
        Pipeline.Returned
          [{| Pipeline.raw_statement := "Production experience with PostgreSQL";
              Pipeline.raw_url := None; Pipeline.raw_confidence := 80 |}]
    | _ => Pipeline.TimedOut
    end.

Definition sample_analyze_input : Pipeline.AnalyzeInput :=
  {| Pipeline.in_job := sample_job;
     Pipeline.cv_file := [69; 110; 103; 105; 110; 101; 101; 114]%N;
     Pipeline.linkedin_file := Some [83; 101; 110; 105; 111; 114]%N |}.

(** A second analysis of the same input, in a store that already holds a
    session and whose clock has moved on. *)
Definition sample_later_store : Pipeline.Store :=
  Pipeline.tick
    (@Pipeline.analyze sample_collaborators sample_analyze_input sample_search
       Pipeline.Store_init).1.

(** The number of generate calls on [i] that succeed along a run. *)
Fixpoint successes `{Pipeline.Collaborators} (i : nat)
    (cs : list Pipeline.Call) (st : Pipeline.Store) : nat :=
  match cs with
  | [] => 0
  | c :: cs' =>
      match c, (Pipeline.serve c st).2 with
      | Pipeline.CallGenerate j _ _, Some (inr (inr _)) =>
          if decide (j = i) then 1 else 0
      | _, _ => 0
      end + successes i cs' (Pipeline.serve c st).1
  end.

(** A generator that succeeds, and a store with one analysed session on
    which it has been run. *)
Definition sample_engine : Pipeline.Generator :=
  λ s, Some {| Pipeline.cv_ats_version := Pipeline.cv_text s;
               Pipeline.cv_human_version := Pipeline.cv_text s;
               Pipeline.cover_letter := "Dear hiring manager";
               Pipeline.linkedin_tips := [];
               Pipeline.application_strategy := "Apply directly";
               Pipeline.change_log := [] |}.

Definition sample_store : Pipeline.Store :=
  (@Pipeline.analyze sample_collaborators sample_analyze_input sample_search
     Pipeline.Store_init).1.

(** The [delete] calls made for session [i], oldest first. *)
Definition deletions (i : nat) (st : Pipeline.Store) : list (nat * nat) :=
  filter (λ e, e.1 = i) (Pipeline.delete_log st).

(** What holds of the store between calls, [fresh] apart, which holds once
    the sweep has run: a session at rest was created when the log says,
    expires a TTL later, has not run out and was never deleted; a session
    that was created and is no longer at rest was deleted once, between
    its creation and its expiry. *)
Record consistent (st : Pipeline.Store) : Prop := {
  at_rest i s :
    Pipeline.sessions st !! i = Some s →
    Pipeline.created_log st !! i = Some (Pipeline.createdAt s)
    ∧ Pipeline.expiresAt s = Pipeline.createdAt s + Pipeline.TTL
    ∧ Pipeline.now st ≤ Pipeline.expiresAt s
    ∧ deletions i st = [];
  was_created i c :
    Pipeline.created_log st !! i = Some c →
    i < Pipeline.next_id st ∧ c ≤ Pipeline.now st;
  was_deleted i c :
    Pipeline.created_log st !! i = Some c →
    Pipeline.sessions st !! i = None →
    ∃ t, deletions i st = [(i, t)] ∧ c ≤ t ≤ c + Pipeline.TTL;
  never_created i :
    Pipeline.created_log st !! i = None →
    Pipeline.sessions st !! i = None ∧ deletions i st = [];
}.

Definition fresh (st : Pipeline.Store) : Prop :=
  ∀ i s, Pipeline.sessions st !! i = Some s →
         Pipeline.now st < Pipeline.expiresAt s.

(** An hour in which generate is never invoked, and one in which it is
    invoked at once. *)
Definition sample_idle_hour : list Pipeline.Call :=
  Pipeline.CallAnalyze sample_analyze_input sample_search
  :: replicate 3600 Pipeline.Second.

Definition sample_busy_hour : list Pipeline.Call :=
  Pipeline.CallAnalyze sample_analyze_input sample_search
  :: Pipeline.CallGenerate 0 ∅ sample_engine
  :: replicate 3600 Pipeline.Second.

(** The stages the app can be in after one event, by the stage it was
    in. *)
Definition next_stages (s : Frontend.Stage) : list Frontend.Stage :=
  match s with
  | Frontend.PASSWORD => [Frontend.PASSWORD; Frontend.INPUT]
  | Frontend.INPUT => [Frontend.INPUT; Frontend.ANALYZING]
  | Frontend.ANALYZING =>
      [Frontend.ANALYZING; Frontend.QUESTIONS; Frontend.INPUT]
  | Frontend.QUESTIONS => [Frontend.QUESTIONS; Frontend.RESULTS]
  | Frontend.RESULTS => [Frontend.RESULTS; Frontend.INPUT]
  | Frontend.GENERATING => [Frontend.GENERATING]
  end.

(** A password as the password stage lets it through: not empty and
    unchanged by [trim]. *)
Definition trimmed (p : string) : Prop := p ≠ "" ∧ JS.trim p = p.

(** The data the app may hold at rest in each stage; it does not rest in
    the generating stage. *)
Definition holds_no_stale_data (a : Frontend.AppState) : Prop :=
  match Frontend.stage a with
  | Frontend.PASSWORD | Frontend.INPUT | Frontend.ANALYZING =>
      Frontend.analysisData a = JS.VNull ∧ Frontend.resultData a = JS.VNull
  | Frontend.QUESTIONS => Frontend.resultData a = JS.VNull
  | Frontend.RESULTS => True
  | Frontend.GENERATING => False
  end.

(** The stage goes with the request in flight: the analyzing stage is
    shown exactly while an analyze request is in flight, and a generate
    request is in flight only in the questions stage. *)
Definition stage_awaits (l : Frontend.Live) : Prop :=
  match Frontend.awaited l with
  | Some (Frontend.AwaitedAnalyze _) =>
      Frontend.stage (Frontend.shown l) = Frontend.ANALYZING
  | Some (Frontend.AwaitedGenerate _) =>
      Frontend.stage (Frontend.shown l) = Frontend.QUESTIONS
  | None => Frontend.stage (Frontend.shown l) ≠ Frontend.ANALYZING
  end.

(** A reply the handlers take as a success: the fetch resolved and the
    response was ok. *)
Definition ok_reply (r : Frontend.Fetched) : option JS.value :=
  match r with
  | Frontend.Responded true data => Some data
  | _ => None
  end.

(** The app at rest with nothing in flight. *)
Definition idle (a : Frontend.AppState) : Frontend.Live :=
  {| Frontend.shown := a; Frontend.awaited := None |}.

(** An event of [AppEvent] as the user's part of it, and the settling of
    the request it left in flight with the reply the event carries. *)
Definition user_part (ev : Frontend.AppEvent) : Frontend.LiveEvent :=
  match ev with
  | Frontend.SubmitPassword pwd => Frontend.PasswordSubmitted pwd
  | Frontend.SubmitInput st _ => Frontend.InputSubmitted st
  | Frontend.ClickGenerate st _ => Frontend.GenerateClicked st
  | Frontend.ClickRestart => Frontend.RestartClicked
  end.

Definition reply_part (ev : Frontend.AppEvent) (l : Frontend.Live)
    : list Frontend.LiveEvent :=
  match ev, Frontend.awaited l with
  | Frontend.SubmitInput _ net, Some (Frontend.AwaitedAnalyze fd) =>
      [Frontend.Settled (net fd)]
  | Frontend.ClickGenerate _ net, Some (Frontend.AwaitedGenerate body) =>
      [Frontend.Settled (net body)]
  | _, _ => []
  end.

(** A value React can put on the page as a child: anything that holds no
    plain object. *)
Definition plain (v : JS.value) : Prop := is_Some (Frontend.child v).

(** A value whose properties can be read: anything but [null] and
    [undefined]. *)
Definition readable (v : JS.value) : Prop := v ≠ JS.VNull ∧ v ≠ JS.VUndefined.

(** A value that can stand where the page maps over a list: one whose
    length is not above zero (nothing is shown), or an array whose
    elements are all [ok]. *)
Definition shown_list (ok : JS.value → Prop) (v : JS.value) : Prop :=
  JS.length_gt0 v = false ∨ ∃ xs, v = JS.VArr xs ∧ Forall ok xs.

Definition tip_ok (t : JS.value) : Prop :=
  readable t ∧ plain (JS.get_opt t "tip") ∧ plain (JS.get_opt t "source")
  ∧ plain (JS.get_opt t "action_taken").

Definition question_ok (q : JS.value) : Prop :=
  readable q ∧ plain (JS.get_opt q "question") ∧ plain (JS.get_opt q "context").

(** The analyze responses the questions stage can render. *)
Definition response_ok (d : JS.value) : Prop :=
  shown_list tip_ok (Frontend.list_field d "heads_up_tips")
  ∧ shown_list plain (Frontend.list_field d "gaps_found")
  ∧ shown_list plain (Frontend.list_field d "ai_words_detected")
  ∧ shown_list plain (Frontend.list_field d "auto_fixes")
  ∧ shown_list plain (Frontend.list_field d "linkedin_contradictions")
  ∧ shown_list question_ok (Frontend.list_field d "questions").

(** Where the questions stage turns a value of the response into a number
    or a string: the [length] of each of its six lists in [length > 0],
    the [id] of each question in [answers[q.id]] and [key={q.id}], and the
    [source_url] of each tip in [href={tip.source_url}].  JavaScript's
    conversion of an array joins the conversions of its elements, and of
    an object it is the text [[object Object]] unless the object has a
    property of its own named [toString], which, not being a function,
    makes the conversion throw; the comparison of a string with zero
    reads the string as a number.  [elem] and [gt0] do neither of the last
    two, so the statement about which responses render is made for the
    responses in which no converted value holds an object with a
    [toString] of its own and no [length] is a string or an array. *)
Fixpoint keyable (v : JS.value) : bool :=
  match v with
  | JS.VArr xs =>
      (fix all (l : list JS.value) : bool :=
         match l with
         | [] => true
         | x :: l' => keyable x && all l'
         end) xs
  | JS.VObj o =>
      match o !! "toString" with
      | None => true
      | Some _ => false
      end
  | _ => true
  end.

Definition counted (v : JS.value) : bool :=
  match JS.length_of v with
  | JS.VStr _ | JS.VArr _ => false
  | x => keyable x
  end.

Definition analyze_lists : list string :=
  ["questions"; "gaps_found"; "auto_fixes"; "heads_up_tips";
   "ai_words_detected"; "linkedin_contradictions"].

Definition coercions_modelled (d : JS.value) : bool :=
  forallb (λ k, counted (Frontend.list_field d k)) analyze_lists
  && forallb (λ q, keyable (JS.get_opt q "id"))
       (default [] (JS.elements_of (Frontend.list_field d "questions")))
  && forallb (λ t, keyable (JS.get_opt t "source_url"))
       (default [] (JS.elements_of (Frontend.list_field d "heads_up_tips"))).

(** The properties of the generate response the results stage reads, and
    those of its [output]. *)
Definition result_fields : list string :=
  ["output"; "heads_up_tips"; "auto_fixes_applied"; "ai_words_removed"].

Definition output_fields : list string :=
  ["cv_ats_version"; "cv_human_version"; "cover_letter";
   "application_strategy"; "change_log"; "linkedin_tips"].

(** Everything the results stage does with the response: what it renders
    and what an event does. *)
Definition ResultsStage_use (st : Frontend.ResultsState)
    (ev : Frontend.ResultsEvent) (data : JS.value)
    : option (list Frontend.node) * (Frontend.ResultsState * option string) :=
  (Frontend.ResultsStage data st, Frontend.ResultsStage_on data ev st).

(** The states the results stage passes through while it shows one
    response. *)
Inductive showing (data : JS.value) : Frontend.ResultsState → Prop :=
| showing_start : showing data Frontend.ResultsStage_init
| showing_next st ev :
    showing data st → showing data (Frontend.ResultsStage_on data ev st).1.

(** [u] is the beginning of [s]. *)
Definition begins (u s : string) : Prop := ∃ rest, s = u +:+ rest.

(** The three shapes a line of the analyzing stage can have. *)
Definition done_row (s : string) : Frontend.node :=
  Frontend.El "div" [("opacity", JS.VNum 100)]
    [Frontend.El "div" [] [Frontend.El "svg" [] []];
     Frontend.El "span" [("color", JS.VStr "ghost")] [Frontend.Text s]].

Definition current_row (s : string) : Frontend.node :=
  Frontend.El "div" [("opacity", JS.VNum 100)]
    [Frontend.El "div" [] [Frontend.El "div" [] []];
     Frontend.El "span" [("color", JS.VStr "gold")] [Frontend.Text s]].

Definition pending_row (s : string) : Frontend.node :=
  Frontend.El "div" [("opacity", JS.VNum 20)]
    [Frontend.El "div" [] [];
     Frontend.El "span" [("color", JS.VStr "muted")] [Frontend.Text s]].

#[global] Instance Field_eq_dec : EqDecision Frontend.Field.
Proof. solve_decision. Defined.

(** The text a field holds after an event, given the text it held. *)
Definition typed (field : Frontend.Field) (ev : Frontend.FormEvent)
    (current : string) : string :=
  match ev with
  | Frontend.OnForm (Frontend.Change f v) =>
      if decide (f = field) then v else current
  | _ => current
  end.

(** The name of the form entry a field is sent under. *)
Definition entry_of (field : Frontend.Field) : string :=
  match field with
  | Frontend.Fcompany => "company"
  | Frontend.Frole => "role"
  | Frontend.Flocation => "location"
  | Frontend.FjobDescription => "job_description"
  end.

(** The page holds state only for the stage it shows: the state of every
    other stage component is the initial one. *)
Definition only_mounted_state (p : Frontend.Page) : Prop :=
  (Frontend.stage (Frontend.app p) ≠ Frontend.PASSWORD →
   Frontend.password_st p = Frontend.PasswordStage_init)
  ∧ (Frontend.stage (Frontend.app p) ≠ Frontend.INPUT →
     Frontend.input_st p = Frontend.InputStage_init)
  ∧ (Frontend.stage (Frontend.app p) ≠ Frontend.QUESTIONS →
     Frontend.questions_st p = Frontend.QuestionsStage_init)
  ∧ (Frontend.stage (Frontend.app p) ≠ Frontend.RESULTS →
     Frontend.results_st p = Frontend.ResultsStage_init).

(* ===================================================================== *)
(** ** The page on small inputs *)
(* ===================================================================== *)

Section Evaluations.
Import JS Frontend.

Example trim_examples :
  trim "  hunter2 " = "hunter2" ∧ trim " a b" = "a b" ∧ trim "   " = "".
Proof. vm_compute. done. Qed.

Example password_blank :
  PasswordStage_handleSubmit "   " = inr "Enter the access password.".
Proof. reflexivity. Qed.

Example password_trimmed :
  PasswordStage_handleSubmit "  hunter2 " = inl "hunter2".
Proof. reflexivity. Qed.

Example submit_untouched_form :
  InputStage_handleSubmit "hunter2" InputStage_init
  = (setError "Please confirm you have read the CV upload rules." InputStage_init,
     None).
Proof. reflexivity. Qed.

Example submit_short_description :
  (InputStage_handleSubmit "hunter2"
     (setForm (update FjobDescription "Backend engineer wanted.") sample_input)).2
  = None
  ∧ error (InputStage_handleSubmit "hunter2"
             (setForm (update FjobDescription "Backend engineer wanted.")
                sample_input)).1
    = "Job description is too short. Please paste the full JD.".
Proof. vm_compute. done. Qed.

Example submit_without_cv :
  error (InputStage_handleSubmit "hunter2"
           (foldl (λ st ev, InputStage_on "hunter2" ev st) InputStage_init
              [Change Fcompany "Acme"; Change Frole "Backend Engineer";
               Change Flocation "Remote"; Change FjobDescription sample_jd;
               Tick true])).1
  = "Please upload your CV as a PDF.".
Proof. vm_compute. done. Qed.

Example answer_keys :
  answer_key (VStr "q1") = "q1" ∧ answer_key (VNum 7) = "7"
  ∧ answer_key (VArr [VNum 1; VNull; VStr "a"]) = "1,,a".
Proof. vm_compute. done. Qed.

Example tip_card_full :
  tip_card (VObj (<["tip" := VStr "Mirror the job title in your headline."]>
                    (<["source" := VStr "Recruiter survey"]>
                       (<["source_url" := VStr "https://example.org/survey"]>
                          (<["action_taken" := VStr "Headline updated"]> ∅)))))
  = Some [El "div" []
            [El "p" [] [Text "Mirror the job title in your headline."];
             El "div" []
               [El "a" [("href", VStr "https://example.org/survey")]
                  [Text "↗ "; Text "Recruiter survey"];
                Tag "success" [Text "Headline updated"]]]].
Proof. vm_compute. done. Qed.

Example banner_first_three :
  ResultsStage_banner
    (VObj {["heads_up_tips" :=
              VArr ((λ s, VObj {["tip" := VStr s]})
                      <$> ["Mirror the job title. It is matched first.";
                           "Name PostgreSQL"; "Quantify uptime"; "Fourth tip"])]})
  = Some [El "div" []
            [El "span" [] [Text "⚡ RECRUITER TIPS APPLIED"];
             Tag "gold" [Text "Mirror the job title"];
             Tag "gold" [Text "Name PostgreSQL"];
             Tag "gold" [Text "Quantify uptime"]]].
Proof. vm_compute. done. Qed.

Example questions_stage_of_text_lists :
  QuestionsStage
    (VObj (<["gaps_found" := VArr [VStr "No Kubernetes"]]>
             (<["linkedin_contradictions" := VArr [VStr "Title differs"]]> ∅)))
    QuestionsStage_init
  = Some [El "div" []
            [Card [El "p" [] [Text "GAPS DETECTED"; Text " ("; Text "1"; Text ")"];
                   El "ul" [] [gap_item [Text "No Kubernetes"]]]];
          Card [El "p" [] [Text "LINKEDIN VS CV MISMATCHES"];
                contradiction_row "Title differs"];
          generate_button false].
Proof. vm_compute. done. Qed.

End Evaluations.

(* ===================================================================== *)
(** ** Properties of the input stage *)
(* ===================================================================== *)

Section InputStageFacts.
Import JS Frontend.

Lemma empty_false (s : string) : empty s = false ↔ s ≠ "".
Proof. unfold empty. apply String.eqb_neq. Qed.

Lemma handleSubmit_form password st :
  form (InputStage_handleSubmit password st).1 = form st.
Proof.
  unfold InputStage_handleSubmit; cbn -[Nat.ltb].
  repeat (case_match; cbn -[Nat.ltb]; try reflexivity).
Qed.

Lemma within_maxLength_reachable password st :
  input_reachable password st → within_maxLength st.
Proof.
  induction 1 as [|st field v _ IH Hv|st ev _ IH Hev].
  - intros []; cbn; lia.
  - intros f. specialize (IH f). destruct field, f; cbn in *; assumption.
  - destruct ev as [field v| | | |].
    + exfalso. by eapply Hev.
    + exact IH.
    + exact IH.
    + exact IH.
    + intros f. cbn [InputStage_on]. rewrite handleSubmit_form. apply IH.
Qed.

Lemma handleSubmit_sent password st fd :
  (InputStage_handleSubmit password st).2 = Some fd →
  submittable st
  ∧ ∃ cv, cvFile st = Some cv
      ∧ fd = [("password", FText password);
              ("company", FText (company (form st)));
              ("role", FText (role (form st)));
              ("location", FText (location (form st)));
              ("job_description", FText (jobDescription (form st)));
              ("cv_file", FFile cv)]
             ++ match linkedinFile st with
                | Some li => [("linkedin_file", FFile li)]
                | None => []
                end.
Proof.
  unfold InputStage_handleSubmit, submittable; cbn -[Nat.ltb].
  destruct (rulesChecked st) eqn:Hr; cbn -[Nat.ltb]; [|discriminate].
  destruct (empty (company (form st))) eqn:H1; cbn -[Nat.ltb]; [discriminate|].
  destruct (empty (role (form st))) eqn:H2; cbn -[Nat.ltb]; [discriminate|].
  destruct (empty (location (form st))) eqn:H3; cbn -[Nat.ltb]; [discriminate|].
  destruct (empty (jobDescription (form st))) eqn:H4; cbn -[Nat.ltb]; [discriminate|].
  destruct (cvFile st) as [cv|] eqn:Hcv; cbn -[Nat.ltb]; [|discriminate].
  destruct (String.length (jobDescription (form st)) <? 100) eqn:Hl; cbn -[Nat.ltb];
    [discriminate|].
  apply Nat.ltb_ge in Hl.
  apply empty_false in H1, H2, H3, H4.
  intros [= <-]. split; [by eauto 10|].
  exists cv. split; [done|]. by destruct (linkedinFile st).
Qed.

Lemma handleSubmit_goes password st :
  submittable st → is_Some (InputStage_handleSubmit password st).2.
Proof.
  intros (Hr & H1 & H2 & H3 & H4 & [cv Hcv] & Hl).
  unfold InputStage_handleSubmit; cbn -[Nat.ltb].
  apply empty_false in H1, H2, H3, H4.
  apply Nat.ltb_ge in Hl.
  rewrite Hr, H1, H2, H3, H4, Hcv; cbn -[Nat.ltb]. rewrite Hl. eauto.
Qed.

Lemma handleSubmit_refused password st :
  (InputStage_handleSubmit password st).2 = None →
  error (InputStage_handleSubmit password st).1 ∈ submit_errors.
Proof.
  unfold InputStage_handleSubmit, submit_errors; cbn -[Nat.ltb].
  repeat (case_match; cbn -[Nat.ltb]; try discriminate); intros _; set_solver.
Qed.

End InputStageFacts.

Section InputStageClaims.
Import JS Frontend.

Lemma sample_input_reachable : input_reachable "hunter2" sample_input.
Proof.
  unfold sample_input, sample_events; cbn [foldl].
  apply (input_other _ _ (Tick true)); [|discriminate].
  apply (input_other _ _ (PickCv sample_cv)); [|discriminate].
  apply input_change; [|vm_compute; discriminate].
  apply input_change; [|vm_compute; discriminate].
  apply input_change; [|vm_compute; discriminate].
  apply input_change; [|vm_compute; discriminate].
  apply input_start.
Qed.

(** C9: on any state the user can bring the input form to, [handleSubmit]
    hands a request to [onAnalyze] exactly when the rules box is ticked,
    the four text fields are non-empty, a CV file is attached and the job
    description has at least 100 code units; otherwise nothing is sent and
    one of the four fixed messages is set and shown.  A request that is
    sent carries the [cv_file] and a job description of 100 to 8000 code
    units. *)
Theorem C9_submit_guard (password : string) (st : InputState) :
  input_reachable password st →
  let r := InputStage_handleSubmit password st in
  (is_Some r.2 ↔ submittable st)
  ∧ (r.2 = None →
       error r.1 ∈ submit_errors
       ∧ error_box (error r.1) = [El "div" [] [Text (error r.1)]])
  ∧ (∀ fd, r.2 = Some fd →
       100 ≤ String.length (jobDescription (form st))
       ∧ (N.of_nat (String.length (jobDescription (form st))) ≤ 8000)%N
       ∧ ("job_description", FText (jobDescription (form st))) ∈ fd
       ∧ ∃ cv, cvFile st = Some cv ∧ ("cv_file", FFile cv) ∈ fd).
Proof.
  intros Hreach r. subst r. split; [|split].
  - split.
    + intros [fd Hfd]. by apply handleSubmit_sent in Hfd as [? _].
    + apply handleSubmit_goes.
  - intros Hnone. pose proof (handleSubmit_refused _ _ Hnone) as Herr.
    split; [exact Herr|].
    unfold error_box.
    destruct (String.eqb_spec (error (InputStage_handleSubmit password st).1) "")
      as [Heq|Hne]; [|done].
    rewrite Heq in Herr. unfold submit_errors in Herr.
    rewrite !elem_of_cons, elem_of_nil in Herr. intuition discriminate.
  - intros fd Hfd.
    pose proof (within_maxLength_reachable _ _ Hreach FjobDescription) as Hjd.
    cbn in Hjd.
    apply handleSubmit_sent in Hfd as [Hsub (cv & Hcv & ->)].
    destruct Hsub as (_ & _ & _ & _ & _ & _ & Hlen).
    split; [exact Hlen|]. split; [exact Hjd|].
    split; [set_solver|]. exists cv. split; [done|set_solver].
Qed.

Lemma C9_submit_guard_witness :
  input_reachable "hunter2" sample_input
  ∧ is_Some (InputStage_handleSubmit "hunter2" sample_input).2.
Proof.
  split; [exact sample_input_reachable|].
  apply (C9_submit_guard "hunter2" sample_input sample_input_reachable).
  unfold submittable. vm_compute.
  repeat split; try discriminate; try (by eexists).
  repeat constructor.
Defined.

End InputStageClaims.

(* ===================================================================== *)
(** ** The analyze exchange as the page performs it *)
(* ===================================================================== *)

Section AnalyzeExchange.
Import JS Frontend.

Lemma list_field_agree (d1 d2 : gmap string value) (k : string) :
  d1 !! k = d2 !! k → list_field (VObj d1) k = list_field (VObj d2) k.
Proof. unfold list_field, get_opt. by intros ->. Qed.

Lemma QuestionsStage_use_agree password st i val (d1 d2 : gmap string value) :
  (∀ k, k ∈ analyze_fields → d1 !! k = d2 !! k) →
  QuestionsStage_use password st i val (VObj d1)
  = QuestionsStage_use password st i val (VObj d2).
Proof.
  intros Hag. unfold QuestionsStage_use, QuestionsStage, type_answer, generate_body.
  rewrite (list_field_agree d1 d2 "questions"),
          (list_field_agree d1 d2 "gaps_found"),
          (list_field_agree d1 d2 "auto_fixes"),
          (list_field_agree d1 d2 "heads_up_tips"),
          (list_field_agree d1 d2 "ai_words_detected"),
          (list_field_agree d1 d2 "linkedin_contradictions")
    by (apply Hag; unfold analyze_fields; set_solver).
  cbn [get]. rewrite (Hag "session_id") by (unfold analyze_fields; set_solver).
  reflexivity.
Qed.

Lemma QuestionsStage_use_each (k : string) :
  k ∈ analyze_fields →
  ∃ v, QuestionsStage_use "" QuestionsStage_init 0 "yes" (VObj {[k := v]})
       ≠ QuestionsStage_use "" QuestionsStage_init 0 "yes" (VObj ∅).
Proof.
  unfold analyze_fields. rewrite !elem_of_cons, elem_of_nil.
  intros [->|[->|[->|[->|[->|[->|[->|[]]]]]]]].
  - exists (VStr "s-1"). intros H.
    apply (f_equal (λ u, u.2 ≫= (.!! "session_id"))) in H.
    vm_compute in H. discriminate.
  - exists (VArr [VObj {["id" := VStr "q1"]}]). intros H.
    apply (f_equal (λ u, answers u.1.2 !! "q1")) in H.
    vm_compute in H. discriminate.
  - exists (VArr [VStr "x"]). intros H.
    apply (f_equal (λ u, u.1.1)) in H. vm_compute in H. discriminate.
  - exists (VArr [VStr "x"]). intros H.
    apply (f_equal (λ u, u.1.1)) in H. vm_compute in H. discriminate.
  - exists (VArr [VStr "x"]). intros H.
    apply (f_equal (λ u, u.1.1)) in H. vm_compute in H. discriminate.
  - exists (VArr [VStr "x"]). intros H.
    apply (f_equal (λ u, u.1.1)) in H. vm_compute in H. discriminate.
  - exists (VArr [VStr "x"]). intros H.
    apply (f_equal (λ u, u.1.1)) in H. vm_compute in H. discriminate.
Qed.

(** C3: a submission that goes out is a form with the entries password,
    company, role, location, job_description and cv_file, in this order,
    followed by linkedin_file exactly when a LinkedIn PDF is attached;
    and of the response the questions stage uses the seven fields of
    [analyze_fields] and nothing else: two responses that agree on them
    are rendered, answered and turned into a generate body alike, and
    each of the seven changes one of these for some response. *)
Theorem C3_analyze_exchange :
  (∀ password st fd,
     (InputStage_handleSubmit password st).2 = Some fd →
     fd.*1 = ["password"; "company"; "role"; "location"; "job_description";
              "cv_file"]
             ++ match linkedinFile st with
                | Some _ => ["linkedin_file"]
                | None => []
                end
     ∧ FFile <$> linkedinFile st = snd <$> fd !! 6)
  ∧ (∀ password st i val (d1 d2 : gmap string value),
       (∀ k, k ∈ analyze_fields → d1 !! k = d2 !! k) →
       QuestionsStage_use password st i val (VObj d1)
       = QuestionsStage_use password st i val (VObj d2))
  ∧ (∀ k, k ∈ analyze_fields →
       ∃ v, QuestionsStage_use "" QuestionsStage_init 0 "yes" (VObj {[k := v]})
            ≠ QuestionsStage_use "" QuestionsStage_init 0 "yes" (VObj ∅)).
Proof.
  split; [|split].
  - intros password st fd Hfd.
    apply handleSubmit_sent in Hfd as [_ (cv & _ & ->)].
    by destruct (linkedinFile st).
  - apply QuestionsStage_use_agree.
  - apply QuestionsStage_use_each.
Qed.

Lemma C3_analyze_exchange_witness :
  (λ fd : FormData, fd.*1) <$> (InputStage_handleSubmit "hunter2" sample_input).2
  = Some ["password"; "company"; "role"; "location"; "job_description"; "cv_file"].
Proof.
  destruct (InputStage_handleSubmit "hunter2" sample_input).2 as [fd|] eqn:Hfd;
    [|vm_compute in Hfd; discriminate].
  pose proof (proj1 C3_analyze_exchange "hunter2" sample_input fd Hfd) as [H _].
  cbn. by rewrite H.
Defined.

End AnalyzeExchange.

(* ===================================================================== *)
(** ** The generate request as the page builds it *)
(* ===================================================================== *)

Section GenerateRequest.
Import JS Frontend.

Lemma handleGenerate_answers password d net st :
  answers (QuestionsStage_handleGenerate password d net st).1.2 = answers st.
Proof.
  unfold QuestionsStage_handleGenerate.
  destruct (generate_body _ _ _); [|done].
  by destruct (settle _ _).
Qed.

Lemma type_answer_answers d i val st :
  answers (type_answer d i val st) = answers st
  ∨ ∃ qs q id, elements_of (list_field d "questions") = Some qs
      ∧ qs !! i = Some q ∧ get q "id" = Some id
      ∧ answers (type_answer d i val st) = <[answer_key id := val]> (answers st).
Proof.
  unfold type_answer.
  destruct (elements_of _) as [qs|] eqn:Hqs; [|by left].
  destruct (qs !! i) as [q|] eqn:Hq; [|by left].
  destruct (get q "id") as [id|] eqn:Hid; [|by left].
  right. by exists qs, q, id.
Qed.

Lemma answers_on_questions d st k :
  answering d st → is_Some (answers st !! k) → k ∈ question_keys d.
Proof.
  induction 1 as [|st i val _ IH|st password net _ IH]; intros Hk.
  - cbn in Hk. rewrite lookup_empty in Hk. by destruct Hk.
  - destruct (type_answer_answers d i val st) as [Heq|(qs & q & id & Hqs & Hq & Hid & Heq)];
      rewrite Heq in Hk; [by apply IH|].
    destruct (decide (answer_key id = k)) as [<-|Hne].
    + unfold question_keys. rewrite Hqs. apply list_elem_of_omap.
      exists q. split; [by eapply list_elem_of_lookup_2|].
      by rewrite Hid.
    + rewrite lookup_insert_ne in Hk by done. by apply IH.
  - rewrite handleGenerate_answers in Hk. by apply IH.
Qed.

Lemma type_answer_twice d i v1 v2 st :
  answers (type_answer d i v2 (type_answer d i v1 st))
  = answers (type_answer d i v2 st).
Proof.
  unfold type_answer.
  destruct (elements_of _) as [qs|]; [|done].
  destruct (qs !! i) as [q|]; [|done].
  destruct (get q "id") as [id|]; [|done].
  cbn. unfold updateAnswer. apply insert_insert_eq.
Qed.

Lemma stringify_object_defined (o : gmap string value) :
  (∀ k v, o !! k = Some v → v ≠ VUndefined) → stringify_object o = o.
Proof.
  intros Hall. unfold stringify_object. apply map_filter_id.
  intros k v Hkv. cbn. specialize (Hall k v Hkv). by destruct v.
Qed.

Lemma generate_body_fields password (d : gmap string value) sid a :
  d !! "session_id" = Some sid → sid ≠ VUndefined →
  generate_body password (VObj d) a
  = Some (<["password" := VStr password]>
            (<["session_id" := sid]>
               (<["user_answers" := VObj (VStr <$> a)]> ∅))).
Proof.
  intros Hsid Hdef. unfold generate_body; cbn. rewrite Hsid; cbn.
  f_equal. apply stringify_object_defined.
  intros k v Hkv.
  destruct (decide (k = "password")) as [->|?];
    [rewrite lookup_insert_eq in Hkv; by injection Hkv as <-|].
  rewrite lookup_insert_ne in Hkv by done.
  destruct (decide (k = "session_id")) as [->|?];
    [rewrite lookup_insert_eq in Hkv; by injection Hkv as <-|].
  rewrite lookup_insert_ne in Hkv by done.
  destruct (decide (k = "user_answers")) as [->|?];
    [rewrite lookup_insert_eq in Hkv; by injection Hkv as <-|].
  rewrite lookup_insert_ne, lookup_empty in Hkv by done. discriminate.
Qed.

(** C4: for a response that carries a session id, the generate button
    sends a JSON body with exactly the properties password, session_id and
    user_answers: the password the stage was given, the response's
    session id, and the answers map; every key of that map is the id of a
    question of the response, and a question has one slot, so typing into
    its box again replaces what was typed before. *)
Theorem C4_generate_request (password : string) (d : gmap string value)
    (sid : value) (st : QuestionsState) (net : gmap string value → Fetched) :
  d !! "session_id" = Some sid →
  sid ≠ VUndefined →
  answering (VObj d) st →
  ∃ body,
    (QuestionsStage_handleGenerate password (VObj d) net st).1.1 = Some body
    ∧ dom body = {["password"; "session_id"; "user_answers"]}
    ∧ body !! "password" = Some (VStr password)
    ∧ body !! "session_id" = Some sid
    ∧ body !! "user_answers" = Some (VObj (VStr <$> answers st))
    ∧ (∀ k, k ∈ dom (answers st) → k ∈ question_keys (VObj d))
    ∧ (∀ i v1 v2,
         answers (type_answer (VObj d) i v2 (type_answer (VObj d) i v1 st))
         = answers (type_answer (VObj d) i v2 st)).
Proof.
  intros Hsid Hdef Hst.
  eexists. split.
  { unfold QuestionsStage_handleGenerate.
    rewrite (generate_body_fields _ _ _ _ Hsid Hdef).
    by destruct (settle _ _). }
  split; [rewrite !dom_insert_L, dom_empty_L; set_solver|].
  split; [by rewrite lookup_insert_eq|].
  split; [rewrite lookup_insert_ne by done; by rewrite lookup_insert_eq|].
  split; [rewrite !lookup_insert_ne by done; by rewrite lookup_insert_eq|].
  split.
  - intros k Hk. apply elem_of_dom in Hk. by eapply answers_on_questions.
  - intros. apply type_answer_twice.
Qed.

End GenerateRequest.

Lemma C4_generate_request_witness :
  ∃ body,
    (Frontend.QuestionsStage_handleGenerate "hunter2" (JS.VObj sample_response)
       (λ _, Frontend.Rejected "offline") sample_answers).1.1 = Some body
    ∧ body !! "session_id" = Some (JS.VStr "s-1")
    ∧ body !! "user_answers"
      = Some (JS.VObj (JS.VStr <$> {["q1" := "Yes, for three years."]})).
Proof.
  destruct (C4_generate_request "hunter2" sample_response (JS.VStr "s-1")
              sample_answers (λ _, Frontend.Rejected "offline"))
    as (body & Hsent & _ & _ & Hsid & Hans & _).
  - reflexivity.
  - discriminate.
  - apply answering_type, answering_start.
  - exists body. split; [exact Hsent|]. split; [exact Hsid|].
    rewrite Hans. reflexivity.
Defined.

(* ===================================================================== *)
(** ** What the page shows of a tip and of a contradiction *)
(* ===================================================================== *)

Section Shown.
Import JS Frontend.

(** The advice of a tip that carries it under [text] is not shown: the
    questions stage renders its card with an empty paragraph, as if the
    property were absent, and the results banner fails on it. *)
Lemma C1_text_field_not_shown :
  tip_card (VObj text_tip)
  = Some [El "div" []
            [El "p" [] [];
             El "div" [] [El "span" [] [Text "Recruiter survey"]]]]
  ∧ tip_card (VObj text_tip) = tip_card (VObj (delete "text" text_tip))
  ∧ banner_tag (VObj text_tip) = None.
Proof. vm_compute. done. Qed.

Lemma tip_card_agree (o1 o2 : gmap string value) :
  (∀ k, k ∈ tip_fields → o1 !! k = o2 !! k) →
  tip_card (VObj o1) = tip_card (VObj o2).
Proof.
  intros Hag. unfold tip_card; cbn [get].
  rewrite (Hag "tip"), (Hag "source"), (Hag "source_url"), (Hag "action_taken")
    by (unfold tip_fields; set_solver).
  reflexivity.
Qed.

Lemma banner_tag_agree (o1 o2 : gmap string value) :
  o1 !! "tip" = o2 !! "tip" → banner_tag (VObj o1) = banner_tag (VObj o2).
Proof. intros Hag. unfold banner_tag; cbn [get]. by rewrite Hag. Qed.

Lemma tip_card_shape (o : gmap string value) out :
  tip_card (VObj o) = Some out →
  ∃ kt ks ka,
    child (default VUndefined (o !! "tip")) = Some kt
    ∧ child (default VUndefined (o !! "source")) = Some ks
    ∧ child (default VUndefined (o !! "action_taken")) = Some ka
    ∧ out = [El "div" []
               [El "p" [] kt;
                El "div" []
                  ((if truthy (default VUndefined (o !! "source_url"))
                    then [El "a" [("href", default VUndefined (o !! "source_url"))]
                            (Text "↗ " :: ks)]
                    else [El "span" [] ks])
                   ++ (if truthy (default VUndefined (o !! "action_taken"))
                       then [Tag "success" ka] else ka))]].
Proof.
  unfold tip_card; cbn [get]. cbn [mbind option_bind].
  destruct (child (default VUndefined (o !! "tip"))) as [kt|]; [|discriminate].
  cbn [mbind option_bind].
  destruct (child (default VUndefined (o !! "source"))) as [ks|]; [|discriminate].
  cbn [mbind option_bind].
  destruct (child (default VUndefined (o !! "action_taken"))) as [ka|]; [|discriminate].
  cbn [mbind option_bind].
  intros [= <-]. by exists kt, ks, ka.
Qed.

Lemma tip_card_each (k : string) :
  k ∈ tip_fields →
  ∃ v, tip_card (VObj {[k := v]}) ≠ tip_card (VObj ∅).
Proof.
  unfold tip_fields. rewrite !elem_of_cons, elem_of_nil.
  intros [->|[->|[->|[->|[]]]]]; exists (VStr "x"); vm_compute; discriminate.
Qed.

(** C1 (as the page has it): a tip's advice text is read from the
    property [tip].  The card of the questions stage depends on a tip
    only through [tip], [source], [source_url] and [action_taken], shows
    [tip] in its paragraph, [source] as a link to [source_url] when that
    is truthy and as plain text otherwise, and [action_taken] in a tag when
    truthy; each of the four changes the card of some tip.  The banner of
    the results stage depends on [tip] only and shows the first 50 code
    units of its first sentence. *)
Theorem C1_tip_fields (o1 o2 : gmap string value) :
  (∀ k, k ∈ tip_fields → o1 !! k = o2 !! k) →
  tip_card (VObj o1) = tip_card (VObj o2)
  ∧ banner_tag (VObj o1) = banner_tag (VObj o2)
  ∧ (∀ out, tip_card (VObj o1) = Some out →
       ∃ kt ks ka,
         child (default VUndefined (o1 !! "tip")) = Some kt
         ∧ child (default VUndefined (o1 !! "source")) = Some ks
         ∧ child (default VUndefined (o1 !! "action_taken")) = Some ka
         ∧ out = [El "div" []
                    [El "p" [] kt;
                     El "div" []
                       ((if truthy (default VUndefined (o1 !! "source_url"))
                         then [El "a" [("href", default VUndefined (o1 !! "source_url"))]
                                 (Text "↗ " :: ks)]
                         else [El "span" [] ks])
                        ++ (if truthy (default VUndefined (o1 !! "action_taken"))
                            then [Tag "success" ka] else ka))]])
  ∧ (∀ s, o1 !! "tip" = Some (VStr s) →
       banner_tag (VObj o1)
       = (k ← child (VStr (substring0 50 (before_dot s))); Some [Tag "gold" k]))
  ∧ (∀ k, k ∈ tip_fields → ∃ v, tip_card (VObj {[k := v]}) ≠ tip_card (VObj ∅)).
Proof.
  intros Hag. split; [by apply tip_card_agree|].
  split; [apply banner_tag_agree, Hag; unfold tip_fields; set_solver|].
  split; [apply tip_card_shape|].
  split; [|apply tip_card_each].
  intros s Hs. unfold banner_tag; cbn [get]. by rewrite Hs.
Qed.

Lemma C1_tip_fields_witness :
  tip_card (VObj (<["tip" := VStr "Mirror the job title."]> text_tip))
  = tip_card (VObj (<["tip" := VStr "Mirror the job title."]> (delete "text" text_tip))).
Proof.
  apply (C1_tip_fields (<["tip" := VStr "Mirror the job title."]> text_tip)
           (<["tip" := VStr "Mirror the job title."]> (delete "text" text_tip))).
  unfold tip_fields. intros k. rewrite !elem_of_cons, elem_of_nil.
  intros [->|[->|[->|[->|[]]]]]; reflexivity.
Defined.

End Shown.

Section Contradictions.
Import JS Frontend.

(** A contradiction given as a record of the two claims is not shown:
    React refuses an object as a child, so the card, and with it the whole
    questions stage, fails to render. *)
Lemma C2_claims_record_not_shown :
  contradictions_card (VArr [claims_record]) = None
  ∧ QuestionsStage (VObj {["linkedin_contradictions" := VArr [claims_record]]})
      QuestionsStage_init = None.
Proof. vm_compute. done. Qed.

Lemma render_each_fails (f : nat → value → option (list node)) x l i :
  x ∈ l → (∀ j, f j x = None) → render_each f i l = None.
Proof.
  intros Hx Hf. revert i.
  induction l as [|y l IH]; intros i; [by apply elem_of_nil in Hx|].
  apply elem_of_cons in Hx as [<-|Hx]; cbn.
  - by rewrite Hf.
  - destruct (f i y); cbn; [|done]. by rewrite IH.
Qed.

Lemma render_rows (ss : list string) i :
  render_each (λ _ c, k ← child c; Some [El "div" [] (El "span" [] [Text "⚠"] :: k)])
    i (VStr <$> ss)
  = Some (contradiction_row <$> ss).
Proof.
  revert i. induction ss as [|s ss IH]; intros i; [done|].
  cbn. rewrite IH. cbn. reflexivity.
Qed.

(** C2 (as the page has it): each element of [linkedin_contradictions] is
    put on the page as it is, after a warning sign: a list of texts is
    shown one row per text, and the page reads no [cv_claim] or
    [linkedin_claim]; a list that holds a record fails to render. *)
Theorem C2_contradictions_as_text :
  (∀ s ss,
     contradictions_card (VArr (VStr <$> s :: ss))
     = Some [Card (El "p" [] [Text "LINKEDIN VS CV MISMATCHES"]
                   :: (contradiction_row <$> s :: ss))])
  ∧ (∀ cs o, VObj o ∈ cs → contradictions_card (VArr cs) = None).
Proof.
  split.
  - intros s ss. unfold contradictions_card, when_nonempty.
    cbn [length_gt0 length_of gt0 fmap list_fmap length elements_of].
    replace (0 <? Z.of_nat (S (length (VStr <$> ss))))%Z with true
      by (symmetry; apply Z.ltb_lt; lia).
    cbn [mbind option_bind].
    change (VStr s :: (VStr <$> ss)) with (VStr <$> s :: ss).
    by rewrite render_rows.
  - intros cs o Ho. unfold contradictions_card, when_nonempty.
    cbn [length_gt0 length_of gt0 elements_of].
    destruct cs as [|c cs]; [by apply elem_of_nil in Ho|].
    replace (0 <? Z.of_nat (length (c :: cs)))%Z with true
      by (symmetry; apply Z.ltb_lt; cbn [length]; lia).
    cbn [mbind option_bind].
    by rewrite (render_each_fails _ (VObj o) (c :: cs) 0 Ho).
Qed.

Lemma C2_contradictions_as_text_witness :
  contradictions_card
    (VArr [VStr "Title differs: Engineer on the CV, Senior Engineer on LinkedIn";
           claims_record]) = None.
Proof.
  unfold claims_record.
  apply (proj2 C2_contradictions_as_text _ claims).
  apply elem_of_cons. right. apply elem_of_cons. left. reflexivity.
Defined.

End Contradictions.

(* ===================================================================== *)
(** ** The App: stages and the password *)
(* ===================================================================== *)

Section AppFacts.
Import JS Frontend.

Lemma App_on_keeps (ev : AppEvent) (a : AppState) :
  stage a ≠ PASSWORD →
  stage (App_on ev a) ≠ PASSWORD ∧ password (App_on ev a) = password a.
Proof.
  intros Hst. unfold App_on.
  destruct ev as [pwd|st net|st net|], (stage a) eqn:Hs; try done;
    try (by rewrite Hs).
  - destruct (InputStage_handleSubmit _ _).2; [|by rewrite Hs].
    unfold InputStageWrapper_handleAnalyze. by destruct (settle _ _).
  - destruct (QuestionsStage_handleGenerate _ _ _ _).2; [|by rewrite Hs]. done.
Qed.

Lemma generate_body_password p d a body :
  generate_body p d a = Some body → body !! "password" = Some (VStr p).
Proof.
  unfold generate_body. destruct (get d "session_id") as [sid|]; [|discriminate].
  cbn [mbind option_bind]. intros Hb. apply (inj Some) in Hb. subst body.
  unfold stringify_object.
  apply map_lookup_filter_Some. split; [by rewrite lookup_insert_eq|done].
Qed.

Lemma App_sends_carry (ev : AppEvent) (a : AppState) :
  Forall (carries (password a)) (App_sends ev a).
Proof.
  unfold App_sends.
  destruct ev as [pwd|st net|st net|], (stage a); try by constructor.
  - destruct (InputStage_handleSubmit _ _).2 as [fd|] eqn:Hfd; [|by constructor].
    apply handleSubmit_sent in Hfd as [_ (cv & _ & ->)].
    by repeat constructor.
  - unfold QuestionsStage_handleGenerate.
    destruct (generate_body _ _ _) as [body|] eqn:Hb; [|by constructor].
    apply generate_body_password in Hb.
    destruct (settle _ _); by repeat constructor.
Qed.

Lemma App_run_keeps (evs : list AppEvent) (a : AppState) :
  stage a ≠ PASSWORD →
  Forall (λ a', stage a' ≠ PASSWORD ∧ password a' = password a) (App_run evs a).1
  ∧ Forall (carries (password a)) (App_run evs a).2.
Proof.
  revert a. induction evs as [|ev evs IH]; intros a Hst; cbn; [by split|].
  destruct (App_on_keeps ev a Hst) as [Hst' Hpw].
  destruct (IH _ Hst') as [IH1 IH2]. rewrite Hpw in IH1, IH2.
  split.
  - constructor; [done|exact IH1].
  - apply Forall_app. split; [apply App_sends_carry|exact IH2].
Qed.

(** C10: the restart action sets the stage to the input stage and clears
    the analysis data and the result data, and leaves the password as it
    is.  From any state past the password stage, whatever happens next,
    the app never shows the password stage again, keeps the password, and
    puts that password in every analyze and generate request it sends. *)
Theorem C10_restart_keeps_password (a : AppState) (evs : list AppEvent) :
  handleRestart a
  = {| stage := INPUT; password := password a;
       analysisData := VNull; resultData := VNull |}
  ∧ (stage a ≠ PASSWORD →
       Forall (λ a', stage a' ≠ PASSWORD ∧ password a' = password a)
         (App_run evs a).1
       ∧ Forall (carries (password a)) (App_run evs a).2)
  ∧ Forall (λ a', stage a' ≠ PASSWORD ∧ password a' = password a)
      (App_run evs (handleRestart a)).1
  ∧ Forall (carries (password a)) (App_run evs (handleRestart a)).2.
Proof.
  split; [done|]. split; [apply App_run_keeps|].
  apply (App_run_keeps evs (handleRestart a)). done.
Qed.

End AppFacts.

Example sample_run_stages :
  Frontend.stage <$> (Frontend.App_run sample_run sample_app).1
  = [Frontend.QUESTIONS; Frontend.RESULTS; Frontend.INPUT; Frontend.INPUT]
  ∧ length (Frontend.App_run sample_run sample_app).2 = 3.
Proof. vm_compute. done. Qed.

Lemma C10_restart_keeps_password_witness :
  Frontend.stage sample_app ≠ Frontend.PASSWORD
  ∧ Forall (carries "hunter2") (Frontend.App_run sample_run sample_app).2.
Proof.
  assert (Frontend.stage sample_app ≠ Frontend.PASSWORD) as Hst
    by (vm_compute; discriminate).
  split; [exact Hst|].
  destruct (C10_restart_keeps_password sample_app sample_run) as (_ & H & _).
  exact (proj2 (H Hst)).
Defined.

(* ===================================================================== *)
(** ** The Intelligence Gatherer *)
(* ===================================================================== *)

Section GatherFacts.
Import Pipeline.

Lemma no_findings_spec (f : Findings) :
  no_findings f = true
  ↔ atsFindings f = [] ∧ cultureFindings f = [] ∧ roleFindings f = [].
Proof.
  unfold no_findings.
  destruct (atsFindings f), (cultureFindings f), (roleFindings f);
    split; intros H; try done; destruct H as (?&?&?); done.
Qed.

Lemma gather_unavailable (search : Search) (j : Job) :
  gather search j = inl IntelligenceUnavailable
  ↔ ∀ c, contribution c (search c j) = [].
Proof.
  unfold gather.
  destruct (no_findings _) eqn:Hn.
  - apply no_findings_spec in Hn as (Ha & Hb & Hc); cbn in *.
    split; [|done]. intros _ []; assumption.
  - split; [discriminate|]. intros Hall.
    apply not_true_iff_false in Hn. destruct Hn.
    apply no_findings_spec; cbn. auto.
Qed.

Lemma analyze_completes `{Collaborators} (input : AnalyzeInput)
    (search : Search) (st : Store) (cv : string) :
  extractText (cv_file input) = Some cv → cv ≠ "" →
  is_Some (extract_optional (linkedin_file input)) →
  (∃ c, contribution c (search c (in_job input)) ≠ []) →
  ∃ resp, (analyze input search st).2 = inr resp
          ∧ r_questions resp
            = synthesize (gaps_found resp) (linkedin_contradictions resp).
Proof.
  intros Hcv Hne [li Hli] [c Hc]. unfold analyze. rewrite Hcv, Hli.
  destruct (gather search (in_job input)) as [e|f] eqn:Hg.
  { exfalso. assert (e = IntelligenceUnavailable) as ->.
    { unfold gather in Hg. destruct (no_findings _); by inversion Hg. }
    by apply Hc, (proj1 (gather_unavailable _ _) Hg). }
  unfold detect. apply String.eqb_neq in Hne. rewrite Hne.
  cbn. eexists. split; reflexivity.
Qed.

(** C7: [gather] fails with [IntelligenceUnavailable] exactly when none of
    the three containers contributes a finding, and with nothing else; a
    container that failed or timed out contributes the empty set; and on a
    readable, non-empty CV the analysis completes with a response (whose
    question list may be empty) as soon as one container contributed a
    finding. *)
Theorem C7_gather_partial (search : Search) (j : Job) :
  (gather search j = inl IntelligenceUnavailable
   ↔ ∀ c, contribution c (search c j) = [])
  ∧ (∀ e, gather search j = inl e → e = IntelligenceUnavailable)
  ∧ (∀ c, search c j = Failed ∨ search c j = TimedOut →
          contribution c (search c j) = [])
  ∧ (∀ (C : Collaborators) (input : AnalyzeInput) (st : Store) (cv : string),
       in_job input = j →
       extractText (cv_file input) = Some cv → cv ≠ "" →
       is_Some (extract_optional (linkedin_file input)) →
       (∃ c, contribution c (search c j) ≠ []) →
       ∃ resp, (analyze input search st).2 = inr resp).
Proof.
  split; [apply gather_unavailable|]. split; [|split].
  - intros e. unfold gather. destruct (no_findings _); by intros [= <-].
  - by intros c [->| ->].
  - intros C input st cv <- Hcv Hne Hli Hc.
    destruct (analyze_completes input search st cv Hcv Hne Hli Hc) as (resp & Hr & _).
    by exists resp.
Qed.

End GatherFacts.

Example sample_analysis :
  Pipeline.r_questions <$>
    match (@Pipeline.analyze sample_collaborators sample_analyze_input
             sample_search Pipeline.Store_init).2 with
    | inr resp => Some resp
    | inl _ => None
    end
  = Some [Pipeline.gap_question 0 "Production experience with PostgreSQL";
          Pipeline.contradiction_question 0
            {| Pipeline.cv_claim := "Engineer"; Pipeline.linkedin_claim := "Senior" |}].
Proof. vm_compute. reflexivity. Qed.

Lemma C7_gather_partial_witness :
  ∃ resp,
    (@Pipeline.analyze sample_collaborators sample_analyze_input sample_search
       Pipeline.Store_init).2
    = inr resp.
Proof.
  apply (proj2 (proj2 (proj2 (C7_gather_partial sample_search sample_job)))
           sample_collaborators sample_analyze_input Pipeline.Store_init "Engineer").
  - reflexivity.
  - reflexivity.
  - discriminate.
  - by eexists.
  - exists Pipeline.Role. discriminate.
Defined.

(* ===================================================================== *)
(** ** The Question Synthesizer *)
(* ===================================================================== *)

Section SynthesizeFacts.
Import Pipeline.
Context `{Collaborators}.

Lemma gap_questions_sublist (k : nat) (gs : list Gap) :
  id <$> mjoin (imap (λ i g, if needs_user_input g
                             then [gap_question (k + i) g] else []) gs)
  `sublist_of` (λ i, "gap-" +:+ pretty i) <$> seq k (length gs).
Proof.
  revert k. induction gs as [|g gs IH]; intros k; [constructor|].
  rewrite imap_cons. cbn [mjoin list_join length seq]. rewrite fmap_app, fmap_cons.
  rewrite (imap_ext _ (λ i g, if needs_user_input g
                              then [gap_question (S k + i) g] else []))
    by (intros i x _; cbn; by rewrite Nat.add_succ_r).
  destruct (needs_user_input g); cbn [fmap list_fmap app].
  - rewrite Nat.add_0_r. apply sublist_skip, IH.
  - apply sublist_cons, IH.
Qed.

Lemma contradiction_questions_ids (k : nat) (cs : list Contradiction) :
  id <$> imap (λ i c, contradiction_question (k + i) c) cs
  = (λ i, "contradiction-" +:+ pretty i) <$> seq k (length cs).
Proof.
  revert k. induction cs as [|c cs IH]; intros k; [done|].
  rewrite imap_cons. cbn [length seq]. rewrite !fmap_cons.
  rewrite (imap_ext _ (λ i c, contradiction_question (S k + i) c))
    by (intros i x _; cbn; by rewrite Nat.add_succ_r).
  rewrite IH, Nat.add_0_r. reflexivity.
Qed.

Lemma synthesize_ids_sublist (gs : list Gap) (cs : list Contradiction) :
  id <$> synthesize gs cs
  `sublist_of` ((λ i, "gap-" +:+ pretty i) <$> seq 0 (length gs))
               ++ ((λ i, "contradiction-" +:+ pretty i) <$> seq 0 (length cs)).
Proof.
  unfold synthesize. rewrite fmap_app. apply sublist_app.
  - apply (gap_questions_sublist 0).
  - rewrite <- (contradiction_questions_ids 0). reflexivity.
Qed.

Lemma synthesize_ids_NoDup (gs : list Gap) (cs : list Contradiction) :
  NoDup (id <$> synthesize gs cs).
Proof.
  eapply sublist_NoDup; [|apply synthesize_ids_sublist].
  apply NoDup_app. split; [|split].
  - apply NoDup_fmap_2; [|apply NoDup_seq].
    intros i j Hij. by apply (inj (String.append "gap-")), (inj pretty) in Hij.
  - intros x (i & -> & _)%list_elem_of_fmap (j & Hj & _)%list_elem_of_fmap.
    discriminate.
  - apply NoDup_fmap_2; [|apply NoDup_seq].
    intros i j Hij. by apply (inj (String.append "contradiction-")), (inj pretty) in Hij.
Qed.

Lemma synthesize_length (gs : list Gap) (cs : list Contradiction) :
  length (synthesize gs cs) ≤ length gs + length cs.
Proof.
  pose proof (sublist_length _ _ (synthesize_ids_sublist gs cs)) as Hl.
  rewrite length_app, !length_fmap, !length_seq in Hl. exact Hl.
Qed.

Lemma gap_questions_origin (k : nat) (gs : list Gap) (q : Question) :
  q ∈ mjoin (imap (λ i g, if needs_user_input g
                          then [gap_question (k + i) g] else []) gs) →
  ∃ i g, gs !! i = Some g ∧ needs_user_input g = true ∧ q = gap_question (k + i) g.
Proof.
  revert k. induction gs as [|g gs IH]; intros k; [by intros ?%elem_of_nil|].
  rewrite imap_cons. cbn [mjoin list_join].
  rewrite (imap_ext _ (λ i g, if needs_user_input g
                              then [gap_question (S k + i) g] else []))
    by (intros i x _; cbn; by rewrite Nat.add_succ_r).
  intros [Hq|Hq]%elem_of_app.
  - destruct (needs_user_input g) eqn:Hg; [|by apply elem_of_nil in Hq].
    apply list_elem_of_singleton in Hq as ->. by exists 0, g.
  - destruct (IH _ Hq) as (i & g' & Hi & Hg' & ->).
    exists (S i), g'. split; [done|]. split; [done|].
    by rewrite Nat.add_succ_r.
Qed.

Lemma synthesize_origin (gs : list Gap) (cs : list Contradiction) (q : Question) :
  q ∈ synthesize gs cs →
  (∃ i g, gs !! i = Some g ∧ needs_user_input g = true ∧ q = gap_question i g)
  ∨ (∃ i c, cs !! i = Some c ∧ q = contradiction_question i c).
Proof.
  unfold synthesize. intros [Hq|Hq]%elem_of_app.
  - left. by apply (gap_questions_origin 0).
  - right. apply elem_of_lookup_imap in Hq as (i & c & -> & Hc). by exists i, c.
Qed.

Lemma analyze_questions (input : AnalyzeInput) (search : Search) (st : Store) resp :
  (analyze input search st).2 = inr resp →
  r_questions resp = synthesize (gaps_found resp) (linkedin_contradictions resp).
Proof.
  unfold analyze.
  destruct (extractText _); [|discriminate].
  destruct (extract_optional _); [|discriminate].
  destruct (gather _ _); [discriminate|].
  destruct (detect _ _ _ _); [discriminate|].
  cbn. by intros [= <-].
Qed.

End SynthesizeFacts.

(** C8: the questions of an analysis are [synthesize] of its gaps and
    contradictions and of nothing else, so two analyses, whatever their
    inputs, search replies and stores, that find the same gaps and
    contradictions ask the same questions with the same ids in the same
    order; every question comes from one gap or one contradiction, named
    by its position, no two questions share an id, and there are at most
    as many questions as gaps and contradictions. *)
Theorem C8_synthesize_deterministic (C : Pipeline.Collaborators)
    (input1 input2 : Pipeline.AnalyzeInput) (search1 search2 : Pipeline.Search)
    (st1 st2 : Pipeline.Store) (r1 r2 : Pipeline.AnalyzeResponse) :
  (Pipeline.analyze input1 search1 st1).2 = inr r1 →
  (Pipeline.analyze input2 search2 st2).2 = inr r2 →
  Pipeline.gaps_found r1 = Pipeline.gaps_found r2 →
  Pipeline.linkedin_contradictions r1 = Pipeline.linkedin_contradictions r2 →
  Pipeline.r_questions r1 = Pipeline.r_questions r2
  ∧ Pipeline.r_questions r1
    = Pipeline.synthesize (Pipeline.gaps_found r1) (Pipeline.linkedin_contradictions r1)
  ∧ length (Pipeline.r_questions r1)
    ≤ length (Pipeline.gaps_found r1) + length (Pipeline.linkedin_contradictions r1)
  ∧ NoDup (Pipeline.id <$> Pipeline.r_questions r1)
  ∧ (∀ q, q ∈ Pipeline.r_questions r1 →
       (∃ i g, Pipeline.gaps_found r1 !! i = Some g
               ∧ Pipeline.needs_user_input g = true
               ∧ q = Pipeline.gap_question i g)
       ∨ (∃ i c, Pipeline.linkedin_contradictions r1 !! i = Some c
                 ∧ q = Pipeline.contradiction_question i c)).
Proof.
  intros H1 H2 Hg Hc.
  apply analyze_questions in H1, H2.
  split; [by rewrite H1, H2, Hg, Hc|]. split; [exact H1|].
  rewrite H1. split; [apply synthesize_length|].
  split; [apply synthesize_ids_NoDup|apply synthesize_origin].
Qed.

Lemma C8_synthesize_deterministic_witness :
  match (@Pipeline.analyze sample_collaborators sample_analyze_input
           sample_search Pipeline.Store_init).2,
        (@Pipeline.analyze sample_collaborators sample_analyze_input
           sample_search sample_later_store).2 with
  | inr r1, inr r2 =>
      Pipeline.session_id r1 ≠ Pipeline.session_id r2
      ∧ Pipeline.r_questions r1 = Pipeline.r_questions r2
  | _, _ => False
  end.
Proof.
  destruct (@Pipeline.analyze sample_collaborators sample_analyze_input
              sample_search Pipeline.Store_init).2 as [e1|r1] eqn:H1;
    [vm_compute in H1; discriminate|].
  destruct (@Pipeline.analyze sample_collaborators sample_analyze_input
              sample_search sample_later_store).2 as [e2|r2] eqn:H2;
    [vm_compute in H2; discriminate|].
  split.
  - vm_compute in H1, H2. injection H1 as <-. injection H2 as <-. discriminate.
  - apply (C8_synthesize_deterministic sample_collaborators _ _ _ _ _ _ r1 r2 H1 H2).
    + vm_compute in H1, H2. injection H1 as <-. injection H2 as <-. reflexivity.
    + vm_compute in H1, H2. injection H1 as <-. injection H2 as <-. reflexivity.
Defined.

(* ===================================================================== *)
(** ** The Generation Engine runs once per session *)
(* ===================================================================== *)

Section GenerateOnce.
Import Pipeline.
Context `{Collaborators}.

Lemma get_consumed i st : consumed (get i st).1 = consumed st.
Proof. unfold get. destruct (_ !! _); [|done]. by destruct (expired _ _). Qed.

Lemma foldr_delete_consumed ids st :
  consumed (foldr delete_session st ids) = consumed st.
Proof. induction ids as [|i ids IH]; [done|]. cbn. exact IH. Qed.

Lemma tick_consumed st : consumed (tick st) = consumed st.
Proof. unfold tick, sweep. by rewrite foldr_delete_consumed. Qed.

Lemma analyze_consumed input search st :
  consumed (analyze input search st).1 = consumed st.
Proof.
  unfold analyze.
  destruct (extractText _); [|done].
  destruct (extract_optional _); [|done].
  destruct (gather _ _); [done|].
  destruct (detect _ _ _ _); done.
Qed.

Lemma generate_consumed i a engine st :
  i ∉ consumed st →
  consumed (generate i a engine st).1 = {[i]} ∪ consumed st.
Proof.
  intros Hi. unfold generate. rewrite decide_False by done.
  pose proof (get_consumed i (mark_consumed i st)) as Hg.
  destruct (get i (mark_consumed i st)) as [st' [s|]]; cbn in Hg; [|done].
  by destruct (engine _).
Qed.

Lemma generate_consumed_mono i j a engine st :
  j ∈ consumed st → j ∈ consumed (generate i a engine st).1.
Proof.
  intros Hj. destruct (decide (i ∈ consumed st)) as [Hi|Hi].
  - unfold generate. by rewrite decide_True.
  - rewrite generate_consumed by done. by apply elem_of_union_r.
Qed.

Lemma generate_marks i a engine st :
  i ∈ consumed (generate i a engine st).1.
Proof.
  destruct (decide (i ∈ consumed st)) as [Hi|Hi].
  - unfold generate. by rewrite decide_True.
  - rewrite generate_consumed by done. by apply elem_of_union_l, elem_of_singleton.
Qed.

Lemma generate_refuses i a engine st :
  i ∈ consumed st → generate i a engine st = (st, inl SessionConsumed).
Proof. intros Hi. unfold generate. by rewrite decide_True. Qed.

Lemma serve_consumed_mono c j st :
  j ∈ consumed st → j ∈ consumed (serve c st).1.
Proof.
  destruct c as [input search|i a engine|]; cbn.
  - by rewrite analyze_consumed.
  - apply generate_consumed_mono.
  - by rewrite tick_consumed.
Qed.

Lemma run_consumed_mono cs j st :
  j ∈ consumed st → j ∈ consumed (run cs st).
Proof.
  revert st. induction cs as [|c cs IH]; intros st Hj; [done|].
  cbn. apply IH, serve_consumed_mono, Hj.
Qed.

Lemma successes_consumed i cs st :
  i ∈ consumed st → successes i cs st = 0.
Proof.
  revert st. induction cs as [|c cs IH]; intros st Hi; [done|].
  cbn [successes]. rewrite (IH _ (serve_consumed_mono c i st Hi)).
  destruct c as [input search|j a engine|]; cbn; try done.
  destruct (decide (j = i)) as [->|?].
  - by rewrite generate_refuses.
  - by destruct (generate j a engine st).2.
Qed.

Lemma successes_once i cs st : successes i cs st ≤ 1.
Proof.
  revert st. induction cs as [|c cs IH]; intros st; [cbn; lia|].
  cbn [successes].
  destruct c as [input search|j a engine|]; cbn [serve fst snd];
    try (specialize (IH (serve (CallAnalyze input search) st).1); cbn in *; lia);
    try (specialize (IH (tick st)); lia).
  destruct (generate j a engine st).2 as [e|out] eqn:Hr;
    [specialize (IH (generate j a engine st).1); lia|].
  destruct (decide (j = i)) as [->|?];
    [|specialize (IH (generate j a engine st).1); lia].
  rewrite successes_consumed; [lia|].
  apply generate_marks.
Qed.

End GenerateOnce.

(** C5: after a generate call on an id, in any store and whatever that
    call returned (the output, a generation failure, [SessionExpired] for
    an id whose session is gone, or [SessionConsumed] itself), every later
    generate call on that id, after any other calls and however much time,
    returns [SessionConsumed]; and along any run at most one generate call
    on an id succeeds. *)
Theorem C5_generate_once (C : Pipeline.Collaborators) (st : Pipeline.Store)
    (i : nat) (a a' : gmap string string) (engine engine' : Pipeline.Generator)
    (cs : list Pipeline.Call) :
  (Pipeline.generate i a' engine'
     (Pipeline.run cs (Pipeline.generate i a engine st).1)).2
  = inl Pipeline.SessionConsumed
  ∧ successes i (Pipeline.CallGenerate i a engine :: cs
                 ++ [Pipeline.CallGenerate i a' engine']) st ≤ 1
  ∧ (∀ cs0 st0, successes i cs0 st0 ≤ 1).
Proof.
  split; [|split].
  - rewrite generate_refuses; [done|].
    apply run_consumed_mono, generate_marks.
  - apply successes_once.
  - apply successes_once.
Qed.

Example generate_twice :
  let first := Pipeline.generate 0 ∅ sample_engine sample_store in
  let gone := Pipeline.generate 0 ∅ sample_engine
                (@Pipeline.run sample_collaborators
                   (replicate 3600 Pipeline.Second) sample_store) in
  (∃ out, first.2 = inr out)
  ∧ (Pipeline.generate 0 ∅ sample_engine first.1).2 = inl Pipeline.SessionConsumed
  ∧ gone.2 = inl Pipeline.SessionExpired
  ∧ (Pipeline.generate 0 ∅ sample_engine gone.1).2 = inl Pipeline.SessionConsumed.
Proof. vm_compute. split; [by eexists|done]. Qed.

Lemma C5_generate_once_witness :
  (@Pipeline.generate 0 ∅ sample_engine
     (@Pipeline.run sample_collaborators
        [Pipeline.Second;
         Pipeline.CallAnalyze sample_analyze_input sample_search]
        (Pipeline.generate 0 ∅ sample_engine sample_store).1)).2
  = inl Pipeline.SessionConsumed.
Proof.
  apply (C5_generate_once sample_collaborators sample_store 0 ∅ ∅
           sample_engine sample_engine
           [Pipeline.Second;
            Pipeline.CallAnalyze sample_analyze_input sample_search]).
Defined.

(* ===================================================================== *)
(** ** Sessions are deleted once, within the TTL *)
(* ===================================================================== *)

Section DeletedOnce.
Import Pipeline.
Context `{Collaborators}.

Lemma deletions_delete_same i st :
  deletions i (delete_session i st) = deletions i st ++ [(i, now st)].
Proof.
  unfold deletions; cbn. rewrite filter_app, filter_cons_True by done.
  by rewrite filter_nil.
Qed.

Lemma deletions_delete_other i j st :
  i ≠ j → deletions j (delete_session i st) = deletions j st.
Proof.
  intros Hne. unfold deletions; cbn.
  rewrite filter_app, filter_cons_False by done.
  by rewrite filter_nil, app_nil_r.
Qed.

Lemma consistent_init : consistent Store_init ∧ fresh Store_init.
Proof.
  split; [split|].
  - intros i s Hs. by destruct (lookup_empty_Some (M := gmap nat) i s).
  - intros i c Hc. by destruct (lookup_empty_Some (M := gmap nat) i c).
  - intros i c Hc. by destruct (lookup_empty_Some (M := gmap nat) i c).
  - intros i _. split; [apply lookup_empty|done].
  - intros i s Hs. by destruct (lookup_empty_Some (M := gmap nat) i s).
Qed.

Lemma consistent_delete i s st :
  sessions st !! i = Some s →
  consistent st → consistent (delete_session i st).
Proof.
  intros Hi Hc.
  destruct (at_rest st Hc i s Hi) as (Hcr & Hex & Hnow & Hdel).
  split; cbn [sessions created_log now next_id delete_session].
  - intros j s'. destruct (decide (i = j)) as [<-|Hne];
      [by rewrite lookup_delete_eq|].
    rewrite lookup_delete_ne by done. intros Hj.
    rewrite deletions_delete_other by done. by apply (at_rest st Hc).
  - apply (was_created st Hc).
  - intros j c Hj. destruct (decide (i = j)) as [<-|Hne].
    + intros _. exists (now st). rewrite deletions_delete_same, Hdel.
      split; [done|].
      rewrite Hcr in Hj. injection Hj as <-.
      destruct (was_created st Hc i _ Hcr). lia.
    + rewrite lookup_delete_ne, deletions_delete_other by done.
      by apply (was_deleted st Hc).
  - intros j Hj. destruct (decide (i = j)) as [<-|Hne];
      [by rewrite Hcr in Hj|].
    rewrite lookup_delete_ne, deletions_delete_other by done.
    by apply (never_created st Hc).
Qed.

Lemma fresh_delete i st : fresh st → fresh (delete_session i st).
Proof.
  intros Hf j s; cbn. intros Hj%lookup_delete_Some. apply (Hf j s), Hj.
Qed.

Lemma consistent_mark i st : consistent st → consistent (mark_consumed i st).
Proof. intros [? ? ? ?]. by split. Qed.

Lemma consistent_create data st :
  consistent st → fresh st →
  consistent (create data st).2 ∧ fresh (create data st).2.
Proof.
  intros Hc Hf.
  assert (created_log st !! next_id st = None) as Hnew.
  { destruct (created_log st !! next_id st) as [c|] eqn:Hn; [|done].
    destruct (was_created st Hc _ _ Hn). lia. }
  destruct (never_created st Hc _ Hnew) as [Hs Hd].
  split; [split|]; cbn [create snd fst sessions created_log now next_id].
  - intros j s. destruct (decide (next_id st = j)) as [<-|Hne].
    + rewrite !lookup_insert_eq. intros [= <-]. cbn.
      split; [done|]. split; [done|]. split; [lia|exact Hd].
    + rewrite !lookup_insert_ne by done. apply (at_rest st Hc).
  - intros j c. destruct (decide (next_id st = j)) as [<-|Hne].
    + rewrite lookup_insert_eq. intros [= <-]. lia.
    + rewrite lookup_insert_ne by done. intros Hj.
      destruct (was_created st Hc _ _ Hj). lia.
  - intros j c. destruct (decide (next_id st = j)) as [<-|Hne].
    + by rewrite !lookup_insert_eq.
    + rewrite !lookup_insert_ne by done. apply (was_deleted st Hc).
  - intros j. destruct (decide (next_id st = j)) as [<-|Hne].
    + by rewrite lookup_insert_eq.
    + rewrite !lookup_insert_ne by done. apply (never_created st Hc).
  - intros j s. cbn [create snd sessions now].
    destruct (decide (next_id st = j)) as [<-|Hne].
    + rewrite lookup_insert_eq. intros [= <-]. cbn. unfold TTL. lia.
    + rewrite lookup_insert_ne by done. apply Hf.
Qed.

Lemma consistent_get i st :
  consistent st → fresh st →
  consistent (get i st).1 ∧ fresh (get i st).1
  ∧ ∀ s, (get i st).2 = Some s → (get i st).1 = st ∧ sessions st !! i = Some s.
Proof.
  intros Hc Hf. unfold get.
  destruct (sessions st !! i) as [s|] eqn:Hi; [|done].
  destruct (expired (now st) s) eqn:He; cbn.
  - split; [by eapply consistent_delete|]. split; [by apply fresh_delete|done].
  - split; [done|]. split; [done|]. by intros s' [= <-].
Qed.

Lemma consistent_generate i a engine st :
  consistent st → fresh st →
  consistent (generate i a engine st).1 ∧ fresh (generate i a engine st).1.
Proof.
  intros Hc Hf. unfold generate.
  destruct (decide (i ∈ consumed st)); [done|].
  destruct (consistent_get i (mark_consumed i st)
              (consistent_mark i st Hc) Hf) as (Hc' & Hf' & Hs).
  destruct (get i (mark_consumed i st)) as [st' [s|]]; cbn in *; [|done].
  destruct (Hs s eq_refl) as [-> Hi].
  assert (consistent (delete_session i (mark_consumed i st))
          ∧ fresh (delete_session i (mark_consumed i st))) as Hgoal.
  { split.
    - eapply consistent_delete; [exact Hi|by apply consistent_mark].
    - by apply fresh_delete. }
  by destruct (engine _).
Qed.

Lemma consistent_analyze input search st :
  consistent st → fresh st →
  consistent (analyze input search st).1 ∧ fresh (analyze input search st).1.
Proof.
  intros Hc Hf. unfold analyze.
  destruct (extractText _); [|done].
  destruct (extract_optional _); [|done].
  destruct (gather _ _); [done|].
  destruct (detect _ _ _ _); [done|].
  match goal with
  | |- context [create ?data st] =>
      pose proof (consistent_create data st Hc Hf) as Hn;
      destruct (create data st) as [j st']
  end.
  exact Hn.
Qed.

End DeletedOnce.

Section Sweep.
Import Pipeline.
Context `{Collaborators}.

Lemma expired_ids_NoDup st : NoDup (expired_ids st).
Proof. unfold expired_ids. apply NoDup_fst_map_to_list. Qed.

Lemma elem_of_expired_ids i st :
  i ∈ expired_ids st
  ↔ ∃ s, sessions st !! i = Some s ∧ expired (now st) s = true.
Proof.
  unfold expired_ids. rewrite list_elem_of_fmap. split.
  - intros ([j s] & -> & Hjs). apply elem_of_map_to_list in Hjs.
    apply map_lookup_filter_Some in Hjs as [Hj He]. by exists s.
  - intros (s & Hi & He). exists (i, s). split; [done|].
    apply elem_of_map_to_list, map_lookup_filter_Some. by split.
Qed.

Lemma delete_each (ids : list nat) (st : Store) :
  NoDup ids →
  (∀ i, i ∈ ids → is_Some (sessions st !! i)) →
  consistent st →
  consistent (foldr delete_session st ids)
  ∧ now (foldr delete_session st ids) = now st
  ∧ ∀ j, sessions (foldr delete_session st ids) !! j
         = if decide (j ∈ ids) then None else sessions st !! j.
Proof.
  induction ids as [|i ids IH]; intros Hnd Hall Hc.
  { cbn. split; [done|]. split; [done|]. intros j.
    rewrite decide_False; [done|]. apply not_elem_of_nil. }
  apply NoDup_cons in Hnd as [Hi Hnd].
  destruct IH as (IHc & IHn & IHs); [done| |done|].
  { intros j Hj. apply Hall. by right. }
  cbn [foldr].
  destruct (Hall i) as [s Hs]; [by left|].
  assert (sessions (foldr delete_session st ids) !! i = Some s) as Hs'.
  { rewrite IHs, decide_False by done. exact Hs. }
  split; [by eapply consistent_delete|]. split; [exact IHn|].
  intros j. cbn [sessions delete_session].
  destruct (decide (i = j)) as [<-|Hne].
  - rewrite lookup_delete_eq, decide_True; [done|by left].
  - rewrite lookup_delete_ne, IHs by done.
    destruct (decide (j ∈ ids)) as [Hj|Hj].
    + rewrite decide_True; [done|by right].
    + rewrite decide_False; [done|].
      intros [->|?]%elem_of_cons; done.
Qed.

Lemma consistent_tick st :
  consistent st → fresh st → consistent (tick st) ∧ fresh (tick st).
Proof.
  intros Hc Hf. unfold tick, sweep.
  set (st' := {| now := S (now st); next_id := next_id st;
                 sessions := sessions st; consumed := consumed st;
                 created_log := created_log st; delete_log := delete_log st |}).
  assert (consistent st') as Hc'.
  { split; subst st'; cbn [sessions created_log now next_id].
    - intros i s Hi. destruct (at_rest st Hc i s Hi) as (? & ? & ? & ?).
      specialize (Hf i s Hi). repeat split; done || lia.
    - intros i c Hi. destruct (was_created st Hc i c Hi). lia.
    - apply (was_deleted st Hc).
    - apply (never_created st Hc). }
  destruct (delete_each (expired_ids st') st') as (Hd & Hn & Hs).
  - apply expired_ids_NoDup.
  - intros i (s & Hi & _)%elem_of_expired_ids. by exists s.
  - exact Hc'.
  - split; [exact Hd|]. intros j s. rewrite Hs, Hn.
    destruct (decide (j ∈ expired_ids st')) as [|Hj]; [discriminate|].
    intros Hjs. destruct (expired (now st') s) eqn:He.
    + destruct Hj. apply elem_of_expired_ids. by exists s.
    + unfold expired in He. apply Nat.leb_gt in He. exact He.
Qed.

Lemma consistent_serve c st :
  consistent st → fresh st →
  consistent (serve c st).1 ∧ fresh (serve c st).1.
Proof.
  intros Hc Hf. destruct c as [input search|i a engine|]; cbn.
  - by apply consistent_analyze.
  - by apply consistent_generate.
  - by apply consistent_tick.
Qed.

Lemma consistent_run cs st :
  consistent st → fresh st → consistent (run cs st) ∧ fresh (run cs st).
Proof.
  revert st. induction cs as [|c cs IH]; intros st Hc Hf; [done|].
  cbn. destruct (consistent_serve c st Hc Hf). by apply IH.
Qed.

Lemma generate_deletes i a engine st :
  consistent st → fresh st →
  (generate i a engine st).2 ≠ inl SessionExpired →
  (generate i a engine st).2 ≠ inl SessionConsumed →
  ∃ s, sessions st !! i = Some s
       ∧ sessions (generate i a engine st).1 !! i = None
       ∧ delete_log (generate i a engine st).1 = delete_log st ++ [(i, now st)].
Proof.
  intros Hc Hf. unfold generate.
  destruct (decide (i ∈ consumed st)); [done|].
  destruct (consistent_get i (mark_consumed i st)
              (consistent_mark i st Hc) Hf) as (_ & _ & Hs).
  destruct (get i (mark_consumed i st)) as [st' [s|]]; cbn in *; [|done].
  destruct (Hs s eq_refl) as [-> Hi]. intros _ _. exists s.
  split; [done|].
  destruct (engine _); cbn; by rewrite lookup_delete_eq.
Qed.

End Sweep.

(** C6: in any run of the backend, a session that was created at time [c]
    has at most one [delete] call, made between [c] and [c + TTL]; it is
    at rest exactly as long as no such call was made, and once the TTL has
    passed the call has been made, whether or not generate was invoked.
    When a generate call runs the engine on the session, the session is
    deleted by that call, whether the engine returned the output or
    failed. *)
Theorem C6_deleted_once (C : Pipeline.Collaborators)
    (cs : list Pipeline.Call) (i c : nat) :
  let st := Pipeline.run cs Pipeline.Store_init in
  Pipeline.created_log st !! i = Some c →
  length (deletions i st) ≤ 1
  ∧ (∀ t, (i, t) ∈ deletions i st → c ≤ t ≤ c + Pipeline.TTL)
  ∧ (Pipeline.sessions st !! i = None ↔ length (deletions i st) = 1)
  ∧ (c + Pipeline.TTL ≤ Pipeline.now st → length (deletions i st) = 1)
  ∧ (∀ a engine,
       (Pipeline.generate i a engine st).2 ≠ inl Pipeline.SessionExpired →
       (Pipeline.generate i a engine st).2 ≠ inl Pipeline.SessionConsumed →
       Pipeline.sessions (Pipeline.generate i a engine st).1 !! i = None
       ∧ deletions i (Pipeline.generate i a engine st).1
         = [(i, Pipeline.now st)]).
Proof.
  intros st Hi.
  destruct (consistent_run cs Pipeline.Store_init) as [Hc Hf];
    [apply consistent_init..|].
  fold st in Hc, Hf.
  assert (Pipeline.sessions st !! i = None ↔ length (deletions i st) = 1) as Hiff.
  { split.
    - intros Hn. destruct (was_deleted st Hc i c Hi Hn) as (t & -> & _). done.
    - intros Hl. destruct (Pipeline.sessions st !! i) as [s|] eqn:Hs; [|done].
      destruct (at_rest st Hc i s Hs) as (_ & _ & _ & Hd).
      by rewrite Hd in Hl. }
  destruct (Pipeline.sessions st !! i) as [s|] eqn:Hs.
  - destruct (at_rest st Hc i s Hs) as (Hcr & Hex & _ & Hd).
    assert (Pipeline.createdAt s = c) as Hsc by congruence.
    split; [rewrite Hd; cbn; lia|].
    split; [intros t Ht; rewrite Hd in Ht; by apply elem_of_nil in Ht|].
    split; [exact Hiff|]. split.
    + intros Hpast. specialize (Hf i s Hs). lia.
    + intros a engine H1 H2.
      destruct (generate_deletes i a engine st Hc Hf H1 H2) as (_ & _ & Hgone & Hlog).
      split; [exact Hgone|].
      unfold deletions in *. rewrite Hlog, filter_app, Hd.
      by rewrite filter_cons_True, filter_nil.
  - destruct (was_deleted st Hc i c Hi Hs) as (t & Hd & Ht).
    split; [rewrite Hd; cbn; lia|].
    split; [intros t' Ht'; rewrite Hd in Ht';
            apply list_elem_of_singleton in Ht'; by injection Ht' as ->|].
    split; [exact Hiff|]. split; [by rewrite Hd|].
    intros a engine H1 H2.
    destruct (generate_deletes i a engine st Hc Hf H1 H2) as (s & Hs' & _).
    congruence.
Qed.

Example sample_hours :
  deletions 0 (@Pipeline.run sample_collaborators sample_idle_hour Pipeline.Store_init)
  = [(0, 3600)]
  ∧ deletions 0 (@Pipeline.run sample_collaborators sample_busy_hour Pipeline.Store_init)
    = [(0, 0)].
Proof. vm_compute. done. Qed.

Lemma C6_deleted_once_witness :
  length (deletions 0 (@Pipeline.run sample_collaborators sample_idle_hour
                         Pipeline.Store_init)) = 1.
Proof.
  apply (C6_deleted_once sample_collaborators sample_idle_hour 0 0).
  - vm_compute. reflexivity.
  - apply Nat.leb_le. vm_compute. reflexivity.
Defined.


(* ===================================================================== *)
(** ** The password stage and the stages of the App *)
(* ===================================================================== *)

Section PasswordFacts.
Import JS Frontend.

Lemma trim_start_head (s : string) :
  trim_start s = "" ∨ ∃ c r, trim_start s = String c r ∧ is_white c = false.
Proof.
  induction s as [|c s IH]; [by left|]. cbn.
  destruct (is_white c) eqn:Hc; [exact IH|]. right. by exists c, s.
Qed.

Lemma trim_end_twice (s : string) : trim_end (trim_end s) = trim_end s.
Proof.
  induction s as [|c s IH]; [done|]. cbn.
  destruct (String.eqb (trim_end s) "" && is_white c) eqn:Hc; [done|].
  cbn. by rewrite IH, Hc.
Qed.

Lemma trim_end_head (c : ascii) (r : string) :
  is_white c = false → trim_end (String c r) = String c (trim_end r).
Proof. intros Hc. cbn. by rewrite Hc, andb_false_r. Qed.

Lemma trim_twice (s : string) : trim (trim s) = trim s.
Proof.
  unfold trim. destruct (trim_start_head s) as [->|(c & r & -> & Hc)]; [done|].
  rewrite (trim_end_head c r Hc). cbn [trim_start]. rewrite Hc.
  rewrite <- (trim_end_head c r Hc). apply trim_end_twice.
Qed.

Lemma trim_head (s : string) (c : ascii) (r : string) :
  trim s = String c r → is_white c = false.
Proof.
  unfold trim. destruct (trim_start_head s) as [->|(c' & r' & -> & Hc)];
    [discriminate|].
  rewrite (trim_end_head c' r' Hc). by intros [= <- _].
Qed.

Lemma handleSubmit_passes (typed p : string) :
  PasswordStage_handleSubmit typed = inl p ↔ p = trim typed ∧ trim typed ≠ "".
Proof.
  unfold PasswordStage_handleSubmit.
  destruct (String.eqb_spec (trim typed) "") as [He|Hne].
  - split; [discriminate|]. by intros [_ ?].
  - split; [by intros [= <-]|]. by intros [-> _].
Qed.

(** X1: the password form calls [onSuccess] exactly when the typed text
    has something besides white space, and then with the trimmed text:
    it is not empty, starts with no white space, and [trim] leaves it as
    it is, so typing it back passes with the same password.  A blank
    submit calls nothing, keeps the typed text and sets the message, which
    the next keystroke clears. *)
Theorem password_form_trims (st : PasswordState) :
  let r := PasswordStage_on SubmitPasswordForm st in
  (∀ p, r.2 = Some p →
        p = trim (pwd st) ∧ p ≠ "" ∧ trim p = p
        ∧ (∀ c rest, p = String c rest → is_white c = false)
        ∧ PasswordStage_handleSubmit p = inl p
        ∧ r.1 = st)
  ∧ (r.2 = None →
       trim (pwd st) = ""
       ∧ r.1 = {| pwd := pwd st; pw_error := "Enter the access password.";
                  show := show st |}
       ∧ ∀ v, pw_error (PasswordStage_on (TypePassword v) r.1).1 = "").
Proof.
  cbn. destruct (PasswordStage_handleSubmit (pwd st)) as [p|e] eqn:Hs; cbn.
  - split; [|discriminate]. intros ? [= <-].
    apply handleSubmit_passes in Hs as [-> Hne].
    split; [done|]. split; [done|]. split; [apply trim_twice|].
    split; [intros c rest; apply trim_head|].
    split; [|done]. apply handleSubmit_passes. by rewrite trim_twice.
  - split; [discriminate|]. intros _.
    unfold PasswordStage_handleSubmit in Hs.
    destruct (String.eqb_spec (trim (pwd st)) ""); [|discriminate].
    injection Hs as <-. done.
Qed.

Lemma App_on_password (ev : AppEvent) (a : AppState) :
  stage a = PASSWORD → password a = "" →
  (stage (App_on ev a) = PASSWORD ∧ password (App_on ev a) = "")
  ∨ (stage (App_on ev a) ≠ PASSWORD ∧ trimmed (password (App_on ev a))).
Proof.
  intros Hs Hp. unfold App_on. rewrite Hs.
  destruct ev as [typed|st net|st net|]; try (left; by rewrite Hs, Hp).
  destruct (PasswordStage_handleSubmit typed) as [p|e] eqn:Hsub;
    [|left; by rewrite Hs, Hp].
  right. split; [done|]. cbn.
  apply handleSubmit_passes in Hsub as [-> Hne]. split; [done|apply trim_twice].
Qed.

Lemma App_run_password (evs : list AppEvent) (a : AppState) :
  (stage a = PASSWORD ∧ password a = "")
  ∨ (stage a ≠ PASSWORD ∧ trimmed (password a)) →
  Forall (λ a', (stage a' = PASSWORD ∧ password a' = "")
                ∨ (stage a' ≠ PASSWORD ∧ trimmed (password a')))
    (App_run evs a).1
  ∧ Forall (λ r, ∃ p, carries p r ∧ trimmed p) (App_run evs a).2.
Proof.
  revert a. induction evs as [|ev evs IH]; intros a Ha; cbn; [by split|].
  assert ((stage (App_on ev a) = PASSWORD ∧ password (App_on ev a) = "")
          ∨ (stage (App_on ev a) ≠ PASSWORD ∧ trimmed (password (App_on ev a))))
    as Ha'.
  { destruct Ha as [[Hs Hp]|[Hs Hp]]; [by apply App_on_password|].
    right. destruct (App_on_keeps ev a Hs) as [Hs' Hp']. by rewrite Hp'. }
  destruct (IH _ Ha') as [IH1 IH2]. split; [by constructor|].
  apply Forall_app. split; [|exact IH2].
  destruct Ha as [[Hs Hp]|[Hs Hp]].
  - unfold App_sends. rewrite Hs. destruct ev; constructor.
  - eapply Forall_impl; [apply App_sends_carry|].
    intros r Hr. by exists (password a).
Qed.

(** X2: from page load on, the app holds the empty password while it shows
    the password stage and a trimmed, non-empty one in every other stage;
    every analyze and generate request it ever sends carries a password
    that is not empty and has no white space around it. *)
Theorem requests_carry_trimmed_password (evs : list AppEvent) :
  Forall (λ a, (stage a = PASSWORD ∧ password a = "")
               ∨ (stage a ≠ PASSWORD ∧ trimmed (password a)))
    (App_run evs App_init).1
  ∧ Forall (λ r, ∃ p, carries p r ∧ trimmed p) (App_run evs App_init).2.
Proof. apply App_run_password. by left. Qed.

Lemma settle_cases (fallback : string) (r : Fetched) :
  match ok_reply r with
  | Some data => settle fallback r = inl data
  | None => ∃ m, settle fallback r = inr m
  end.
Proof.
  destruct r as [m|[] data]; cbn; eauto.
  destruct (get data "detail"); eauto.
Qed.

Lemma Live_on_rests (ev : LiveEvent) (l : Live) :
  holds_no_stale_data (shown l) → stage_awaits l →
  holds_no_stale_data (shown (Live_on ev l)) ∧ stage_awaits (Live_on ev l).
Proof.
  intros Hd Hw. unfold Live_on.
  destruct ev as [typed|st|st| |r].
  - destruct (stage (shown l)) eqn:Hs; try done.
    destruct (PasswordStage_handleSubmit typed); [|done].
    unfold holds_no_stale_data, stage_awaits in *. rewrite Hs in *. cbn.
    split; [done|]. destruct (awaited l) as [[]|]; congruence.
  - destruct (stage (shown l)) eqn:Hs; try done.
    destruct (InputStage_handleSubmit _ _).2; [|done].
    unfold holds_no_stale_data, stage_awaits in *. rewrite Hs in *. done.
  - destruct (stage (shown l)) eqn:Hs; try done.
    destruct (awaited l) as [[]|] eqn:Ha; try done.
    destruct (generate_body _ _ _); [|done].
    split; [done|]. exact Hs.
  - destruct (stage (shown l)) eqn:Hs; try done.
    unfold holds_no_stale_data, stage_awaits in *. rewrite Hs in *. cbn.
    split; [done|]. destruct (awaited l) as [[]|]; congruence.
  - unfold holds_no_stale_data, stage_awaits in *.
    destruct (awaited l) as [[fd|body]|] eqn:Ha; cbn.
    + rewrite Hw in Hd. destruct (settle _ r); cbn; [|done]. by destruct Hd.
    + rewrite Hw in Hd. destruct (settle _ r); cbn; [done|]. by rewrite Hw.
    + rewrite Ha. done.
Qed.

Lemma Live_run_rests (evs : list LiveEvent) :
  holds_no_stale_data (shown (Live_run evs Live_init))
  ∧ stage_awaits (Live_run evs Live_init).
Proof.
  assert (holds_no_stale_data (shown Live_init) ∧ stage_awaits Live_init)
    as Hi by done.
  revert Hi. generalize Live_init. unfold Live_run.
  induction evs as [|ev evs IH]; intros l [Hd Hw]; [done|].
  cbn. by apply IH, Live_on_rests.
Qed.

(** X3: with the settling of a fetch counted as an event of its own, one
    event moves the app at most one stage along password, input,
    analyzing, then questions or back to input, results, input.  The app
    leaves the input stage only for the analyzing stage and only by a
    submit that passes, with that request then in flight.  The analyzing
    stage offers no event: everything but the settling of the request
    leaves the app as it is, and the settling takes it to the questions
    stage with the body as analysis data when the reply is ok, and back
    to the input stage with no data otherwise.  A generate request goes
    in flight only by the generate button with a body that could be
    built, and the app leaves the questions stage only when that request
    settles with an ok reply, whose body becomes the result data. *)
Theorem App_stages_in_order (evs : list LiveEvent) (ev : LiveEvent) :
  let l := Live_run evs Live_init in
  let l' := Live_on ev l in
  stage (shown l') ∈ next_stages (stage (shown l))
  ∧ (stage (shown l) = INPUT → stage (shown l') ≠ INPUT →
       ∃ st fd,
         ev = InputSubmitted st
         ∧ (InputStage_handleSubmit (password (shown l)) st).2 = Some fd
         ∧ stage (shown l') = ANALYZING
         ∧ awaited l' = Some (AwaitedAnalyze fd))
  ∧ (stage (shown l) = ANALYZING → (∀ r, ev ≠ Settled r) → l' = l)
  ∧ (stage (shown l) = ANALYZING → ∀ r, ev = Settled r →
       awaited l' = None
       ∧ match ok_reply r with
         | Some data =>
             stage (shown l') = QUESTIONS ∧ analysisData (shown l') = data
         | None =>
             stage (shown l') = INPUT ∧ analysisData (shown l') = VNull
         end)
  ∧ (stage (shown l) = QUESTIONS → awaited l = None → ∀ body,
       awaited l' = Some (AwaitedGenerate body) →
       ∃ st, ev = GenerateClicked st
             ∧ generate_body (password (shown l)) (analysisData (shown l))
                 (answers st) = Some body)
  ∧ (stage (shown l) = QUESTIONS → stage (shown l') ≠ QUESTIONS →
       ∃ body data,
         awaited l = Some (AwaitedGenerate body)
         ∧ ev = Settled (Responded true data)
         ∧ stage (shown l') = RESULTS
         ∧ resultData (shown l') = data
         ∧ analysisData (shown l') = analysisData (shown l)).
Proof.
  cbn zeta. destruct (Live_run_rests evs) as [Hd Hw].
  revert Hd Hw. generalize (Live_run evs Live_init). intros l Hd Hw.
  unfold holds_no_stale_data, stage_awaits in Hd, Hw.
  split; [|split; [|split; [|split; [|split]]]].
  - unfold Live_on.
    destruct ev as [typed|st|st| |r].
    + destruct (stage (shown l)) eqn:Hs; rewrite ?Hs; try by repeat constructor.
      destruct (PasswordStage_handleSubmit typed); cbn; rewrite ?Hs;
        by repeat constructor.
    + destruct (stage (shown l)) eqn:Hs; rewrite ?Hs; try by repeat constructor.
      destruct (InputStage_handleSubmit _ _).2; cbn; rewrite ?Hs;
        by repeat constructor.
    + destruct (stage (shown l)) eqn:Hs; rewrite ?Hs; try by repeat constructor.
      destruct (awaited l) as [[]|]; rewrite ?Hs; try by repeat constructor.
      destruct (generate_body _ _ _); cbn; rewrite ?Hs; by repeat constructor.
    + destruct (stage (shown l)) eqn:Hs; cbn; rewrite ?Hs; by repeat constructor.
    + destruct (awaited l) as [[fd|body]|]; cbn.
      * rewrite Hw. destruct (settle _ r); cbn; by repeat constructor.
      * rewrite Hw. destruct (settle _ r); cbn; rewrite ?Hw; by repeat constructor.
      * destruct (stage (shown l)); by repeat constructor.
  - intros Hs Hne. unfold Live_on in *. rewrite Hs in *.
    destruct ev as [typed|st|st| |r]; try done.
    + destruct (InputStage_handleSubmit _ _).2 as [fd|] eqn:Hfd; [|done].
      by exists st, fd.
    + destruct (awaited l) as [[fd|body]|]; [congruence|congruence|done].
  - intros Hs Hev. unfold Live_on. rewrite Hs.
    destruct ev as [typed|st|st| |r]; try done. by destruct (Hev r).
  - intros Hs r ->. unfold Live_on.
    destruct (awaited l) as [[fd|body]|]; [|congruence|congruence].
    cbn. split; [done|]. rewrite Hs in Hd. destruct Hd as [Ha Hr].
    pose proof (settle_cases "Analysis failed." r) as Hc.
    destruct (ok_reply r) as [data|]; [by rewrite Hc|].
    destruct Hc as [m ->]. done.
  - intros Hs Hn body. unfold Live_on. rewrite Hs, Hn.
    destruct ev as [typed|st|st| |r]; cbn; rewrite ?Hn; try done.
    destruct (generate_body _ _ _) as [b|] eqn:Hb; cbn; rewrite ?Hn; [|done].
    intros [= <-]. by exists st.
  - intros Hs Hne. unfold Live_on in *. rewrite Hs in *.
    destruct ev as [typed|st|st| |r]; try done.
    + destruct (awaited l) as [[]|]; try done.
      destruct (generate_body _ _ _); done.
    + destruct (awaited l) as [[fd|body]|]; [congruence| |done].
      cbn in *. exists body.
      destruct r as [m|[] data]; cbn in *; [done| |].
      * by exists data.
      * by destruct (get data "detail").
Qed.

(** X4: from page load on, with the settling of a fetch counted as an
    event of its own, the app never rests in the generating stage (it is
    passed through within the handling of the reply); it holds neither
    analysis nor result data while it shows the password, the input or
    the analyzing stage, and no result data while it shows the questions
    stage, so after a restart or a failed analysis nothing of the
    previous application is kept; it shows the analyzing stage exactly
    while an analyze request is in flight, and a generate request is in
    flight only in the questions stage. *)
Theorem App_keeps_no_stale_data (evs : list LiveEvent) :
  holds_no_stale_data (shown (Live_run evs Live_init))
  ∧ stage_awaits (Live_run evs Live_init).
Proof. apply Live_run_rests. Qed.

(** X21: an event of [App_on], which carries its reply, is the user's
    part of it followed at once by the settling of the request that part
    left in flight: the app that takes every reply at once is the app
    with its request in flight, run on these two events. *)
Theorem App_on_settles_at_once (ev : AppEvent) (a : AppState) :
  let sent := Live_on (user_part ev) (idle a) in
  App_on ev a = shown (Live_run (reply_part ev sent) sent)
  ∧ awaited (Live_run (reply_part ev sent) sent) = None.
Proof.
  cbn zeta. unfold App_on, Live_on, idle, user_part, reply_part, Live_run.
  destruct ev as [typed|st net|st net|]; cbn.
  - destruct (stage a); try done. by destruct (PasswordStage_handleSubmit typed).
  - destruct (stage a); try done.
    destruct (InputStage_handleSubmit _ _).2 as [fd|]; cbn; [|done].
    unfold InputStageWrapper_handleAnalyze. done.
  - destruct (stage a); try done.
    unfold QuestionsStage_handleGenerate.
    destruct (generate_body _ _ _) as [body|]; cbn; [|done].
    by destruct (settle _ (net body)).
  - by destruct (stage a).
Qed.

End PasswordFacts.

(* ===================================================================== *)
(** ** Answers and the generate button *)
(* ===================================================================== *)

Section AnswerFacts.
Import JS Frontend.

Lemma PasswordStage_on_witness_state :
  PasswordStage_on SubmitPasswordForm
    {| pwd := "  hunter2 "; pw_error := ""; show := false |}
  = ({| pwd := "  hunter2 "; pw_error := ""; show := false |}, Some "hunter2").
Proof. reflexivity. Qed.

Lemma password_form_trims_witness :
  trim "hunter2" = "hunter2" ∧ PasswordStage_handleSubmit "hunter2" = inl "hunter2".
Proof.
  destruct (proj1 (password_form_trims
                     {| pwd := "  hunter2 "; pw_error := ""; show := false |})
              "hunter2" eq_refl) as (_ & _ & Ht & _ & Hs & _).
  by split.
Defined.

Lemma App_stages_in_order_witness :
  let l := Live_run [PasswordSubmitted " hunter2 "; InputSubmitted sample_input]
             Live_init in
  awaited (Live_on (Settled (Rejected "offline")) l) = None
  ∧ stage (shown (Live_on (Settled (Rejected "offline")) l)) = INPUT
  ∧ analysisData (shown (Live_on (Settled (Rejected "offline")) l)) = VNull.
Proof.
  refine (proj1 (proj2 (proj2 (proj2
            (App_stages_in_order
               [PasswordSubmitted " hunter2 "; InputSubmitted sample_input]
               (Settled (Rejected "offline"))))))
            _ (Rejected "offline") eq_refl).
  vm_compute. reflexivity.
Defined.

(** X5: typing [val] into the box of a question writes [val] under the
    property key of that question's id and touches no other key: every
    question whose id has the same key (the number 1 and the text 1 do)
    shows [val] from then on, every other box keeps what it showed, and
    clearing a box leaves its key in the map with the empty text. *)
Theorem answer_slots (d : value) (qs : list value) (i : nat) (q id : value)
    (val : string) (st : QuestionsState) :
  elements_of (list_field d "questions") = Some qs →
  qs !! i = Some q →
  get q "id" = Some id →
  (∀ k, answers (type_answer d i val st) !! k
        = if decide (k = answer_key id) then Some val else answers st !! k)
  ∧ (∀ id', answer_key id' = answer_key id →
            default "" (answers (type_answer d i val st) !! answer_key id') = val)
  ∧ dom (answers (type_answer d i val st)) = {[answer_key id]} ∪ dom (answers st)
  ∧ loading (type_answer d i val st) = loading st
  ∧ q_error (type_answer d i val st) = q_error st.
Proof.
  intros Hqs Hq Hid. unfold type_answer. rewrite Hqs, Hq, Hid. cbn.
  unfold updateAnswer. split; [|split; [|split]].
  - intros k. destruct (decide (k = answer_key id)) as [->|Hne].
    + apply lookup_insert_eq.
    + by apply lookup_insert_ne.
  - intros id' ->. by rewrite lookup_insert_eq.
  - apply dom_insert_L.
  - done.
Qed.

Lemma answer_slots_witness :
  default ""
    (answers (type_answer
                (VObj {["questions" := VArr [VObj {["id" := VNum 1]};
                                             VObj {["id" := VStr "1"]}]]})
                0 "Five years" QuestionsStage_init)
     !! answer_key (VStr "1"))
  = "Five years".
Proof.
  refine (proj1 (proj2 (answer_slots
            (VObj {["questions" := VArr [VObj {["id" := VNum 1]};
                                         VObj {["id" := VStr "1"]}]]})
            [VObj {["id" := VNum 1]}; VObj {["id" := VStr "1"]}]
            0 (VObj {["id" := VNum 1]}) (VNum 1) "Five years"
            QuestionsStage_init _ _ _)) (VStr "1") _);
    vm_compute; reflexivity.
Defined.

Lemma stringify_object_lookup (o : gmap string value) (k : string) :
  stringify_object o !! k
  = match o !! k with
    | Some v => if is_undefined v then None else Some v
    | None => None
    end.
Proof.
  unfold stringify_object. destruct (o !! k) as [v|] eqn:Hk.
  - destruct (is_undefined v) eqn:Hv.
    + apply map_lookup_filter_None_2. right. intros x Hx.
      rewrite Hk in Hx. injection Hx as <-. cbn. by rewrite Hv.
    + by apply map_lookup_filter_Some.
  - apply map_lookup_filter_None_2. by left.
Qed.

(** X6: the generate button with analysis data that is [null] or
    [undefined] sends nothing: the read of [session_id] throws, the
    handler shows the thrown message and keeps the answers.  With a
    response that has no [session_id] the request does go out, and its
    body has the properties [password] and [user_answers] only. *)
Theorem generate_without_session (password : string)
    (net : gmap string value → Fetched) (st : QuestionsState) :
  (∀ d, d = VNull ∨ d = VUndefined →
        QuestionsStage_handleGenerate password d net st
        = (None,
           {| answers := answers st; loading := false;
              q_error := type_error_message |},
           None))
  ∧ (∀ d : gmap string value,
       d !! "session_id" = None ∨ d !! "session_id" = Some VUndefined →
       ∃ body,
         (QuestionsStage_handleGenerate password (VObj d) net st).1.1 = Some body
         ∧ dom body = {["password"; "user_answers"]}
         ∧ body !! "password" = Some (VStr password)
         ∧ body !! "user_answers" = Some (VObj (VStr <$> answers st))).
Proof.
  split.
  - by intros d [-> | ->].
  - intros d Hd.
    assert (get (VObj d) "session_id" = Some VUndefined) as Hg.
    { cbn. by destruct Hd as [-> | ->]. }
    unfold QuestionsStage_handleGenerate, generate_body. rewrite Hg.
    cbn [mbind option_bind].
    set (full := <["password" := VStr password]>
                   (<["session_id" := VUndefined]>
                      (<["user_answers" := VObj (VStr <$> answers st)]> ∅))).
    assert (stringify_object full
            = <["password" := VStr password]>
                (<["user_answers" := VObj (VStr <$> answers st)]> ∅)) as Hbody.
    { apply map_eq. intros k. rewrite stringify_object_lookup. unfold full.
      rewrite !lookup_insert, lookup_empty.
      repeat case_decide; subst; done. }
    rewrite Hbody.
    eexists. split; [by destruct (settle _ _)|].
    split; [rewrite !dom_insert_L, dom_empty_L; set_solver|].
    split; [by rewrite lookup_insert_eq|].
    rewrite lookup_insert_ne by done. by rewrite lookup_insert_eq.
Qed.

Lemma generate_without_session_witness :
  ∃ body,
    (QuestionsStage_handleGenerate "hunter2" (VObj ∅)
       (λ _, Rejected "offline") QuestionsStage_init).1.1 = Some body
    ∧ dom body = {["password"; "user_answers"]}.
Proof.
  destruct (proj2 (generate_without_session "hunter2" (λ _, Rejected "offline")
                     QuestionsStage_init) ∅ (or_introl (lookup_empty _)))
    as (body & H1 & H2 & _).
  exists body. split; assumption.
Defined.

Lemma settle_ok (fallback : string) (r : Fetched) (data : value) :
  settle fallback r = inl data ↔ r = Responded true data.
Proof.
  destruct r as [m|[] data']; cbn.
  - split; discriminate.
  - split; by intros [= <-].
  - destruct (get data' "detail"); split; discriminate.
Qed.

Lemma handleGenerate_sent password d net st body :
  (QuestionsStage_handleGenerate password d net st).1.1 = Some body →
  generate_body password d (answers st) = Some body
  ∧ q_error (QuestionsStage_handleGenerate password d net st).1.2
    = match settle "Generation failed." (net body) with
      | inl _ => ""
      | inr m => m
      end
  ∧ (QuestionsStage_handleGenerate password d net st).2
    = match settle "Generation failed." (net body) with
      | inl data => Some data
      | inr _ => None
      end.
Proof.
  unfold QuestionsStage_handleGenerate.
  destruct (generate_body password d (answers st)) as [b|]; [|discriminate].
  destruct (settle _ (net b)) as [data|m] eqn:Hs; cbn; intros Hb;
    apply (inj Some) in Hb; subst b; by rewrite Hs.
Qed.

Lemma handleGenerate_called password d net st data :
  (QuestionsStage_handleGenerate password d net st).2 = Some data →
  ∃ body, (QuestionsStage_handleGenerate password d net st).1.1 = Some body
          ∧ q_error (QuestionsStage_handleGenerate password d net st).1.2 = ""
          ∧ net body = Responded true data.
Proof.
  unfold QuestionsStage_handleGenerate.
  destruct (generate_body password d (answers st)) as [b|]; [|discriminate].
  destruct (settle _ (net b)) as [data'|m] eqn:Hs; cbn; [|discriminate].
  intros [= <-]. exists b. by apply settle_ok in Hs.
Qed.

(** X7: whatever the reply, the generate handler keeps the answers and
    ends with [loading] off.  It hands data to [onGenerate] exactly when
    it sent a request and the reply was ok, and then shows no error.
    After a reply that is not ok it shows the reply's [detail] when that
    is a non-empty text, and the fixed message when [detail] is absent,
    [null], empty, [false] or zero; after a rejected fetch it shows the
    rejection's message. *)
Theorem generate_outcome (password : string) (d : value)
    (net : gmap string value → Fetched) (st : QuestionsState) :
  let r := QuestionsStage_handleGenerate password d net st in
  answers r.1.2 = answers st
  ∧ loading r.1.2 = false
  ∧ (∀ data, r.2 = Some data ↔
       ∃ body, r.1.1 = Some body ∧ net body = Responded true data)
  ∧ (is_Some r.2 → q_error r.1.2 = "")
  ∧ (∀ body m, r.1.1 = Some body → net body = Rejected m → q_error r.1.2 = m)
  ∧ (∀ body (o : gmap string value) s,
       r.1.1 = Some body → net body = Responded false (VObj o) →
       o !! "detail" = Some (VStr s) → s ≠ "" → q_error r.1.2 = s)
  ∧ (∀ body (o : gmap string value),
       r.1.1 = Some body → net body = Responded false (VObj o) →
       truthy (default VUndefined (o !! "detail")) = false →
       q_error r.1.2 = "Generation failed.").
Proof.
  cbn zeta. split; [apply handleGenerate_answers|].
  split.
  { unfold QuestionsStage_handleGenerate.
    destruct (generate_body _ _ _); [|done]. by destruct (settle _ _). }
  split.
  { intros data. split.
    - intros Hd. destruct (handleGenerate_called _ _ _ _ _ Hd) as (b & ? & _ & ?).
      by exists b.
    - intros (b & Hb & Hn).
      destruct (handleGenerate_sent _ _ _ _ _ Hb) as (_ & _ & ->).
      by rewrite Hn. }
  split.
  { intros [data Hd]. by destruct (handleGenerate_called _ _ _ _ _ Hd) as (b & _ & ? & _). }
  split.
  { intros b m Hb Hn. destruct (handleGenerate_sent _ _ _ _ _ Hb) as (_ & -> & _).
    by rewrite Hn. }
  split.
  { intros b o s Hb Hn Ho Hs.
    destruct (handleGenerate_sent _ _ _ _ _ Hb) as (_ & -> & _).
    rewrite Hn. cbn. rewrite Ho. unfold or_else. cbn.
    apply String.eqb_neq in Hs. by rewrite Hs. }
  intros b o Hb Hn Ho.
  destruct (handleGenerate_sent _ _ _ _ _ Hb) as (_ & -> & _).
  rewrite Hn. cbn. unfold or_else. by rewrite Ho.
Qed.

Lemma generate_outcome_witness :
  q_error (QuestionsStage_handleGenerate "hunter2" (VObj sample_response)
             (λ _, Responded false (VObj {["detail" := VStr "Session expired"]}))
             sample_answers).1.2
  = "Session expired".
Proof.
  destruct (generate_body "hunter2" (VObj sample_response) (answers sample_answers))
    as [body|] eqn:Hb; [|vm_compute in Hb; discriminate].
  eapply (proj1 (proj2 (proj2 (proj2 (proj2 (proj2
            (generate_outcome "hunter2" (VObj sample_response)
               (λ _, Responded false (VObj {["detail" := VStr "Session expired"]}))
               sample_answers)))))) body {["detail" := VStr "Session expired"]}).
  - unfold QuestionsStage_handleGenerate. rewrite Hb. reflexivity.
  - reflexivity.
  - reflexivity.
  - discriminate.
Defined.

End AnswerFacts.

(* ===================================================================== *)
(** ** When the questions stage renders *)
(* ===================================================================== *)

Section RenderFacts.
Import JS Frontend.

Lemma bind_is_Some {A B : Type} (a : option A) (f : A → option B) :
  is_Some (a ≫= f) ↔ ∃ x, a = Some x ∧ is_Some (f x).
Proof.
  destruct a as [x|]; cbn.
  - split; [by exists x|by intros (? & [= <-] & ?)].
  - split; [by intros [? ?]|by intros (? & ? & _)].
Qed.

Lemma get_readable (v : value) (k : string) :
  (readable v → get v k = Some (get_opt v k))
  ∧ (is_Some (get v k) → readable v).
Proof.
  unfold readable. destruct v; cbn; split; try done;
    try (by intros [? ?]); try (intros [? ?]; congruence).
Qed.

Lemma render_each_is_Some (f : nat → value → option (list node))
    (P : value → Prop) (l : list value) (i : nat) :
  (∀ j x, is_Some (f j x) ↔ P x) →
  is_Some (render_each f i l) ↔ Forall P l.
Proof.
  intros Hf. revert i. induction l as [|x l IH]; intros i; cbn.
  - split; [constructor|by eexists].
  - rewrite bind_is_Some. split.
    + intros (a & Ha & Hrest). apply bind_is_Some in Hrest as (b & Hb & _).
      constructor; [apply (Hf i); by rewrite Ha|].
      apply (IH (S i)). by rewrite Hb.
    + intros [Hx Hl]%Forall_cons. apply (Hf i) in Hx as [a Ha].
      exists a. split; [done|]. apply bind_is_Some.
      apply (IH (S i)) in Hl as [b Hb]. exists b. by split.
Qed.

Lemma when_nonempty_is_Some (v : value)
    (body : list value → option (list node)) (P : value → Prop) :
  (∀ xs, v = VArr xs → is_Some (body xs) ↔ Forall P xs) →
  is_Some (when_nonempty v body) ↔ shown_list P v.
Proof.
  intros Hb. unfold when_nonempty, shown_list.
  destruct (length_gt0 v) eqn:Hl.
  - split.
    + intros Hs. right. destruct v; try (by destruct Hs).
      eexists. split; [done|]. apply Hb; [done|]. exact Hs.
    + intros [?|(xs & -> & Hxs)]; [done|]. cbn. by apply Hb.
  - split; [by left|by eexists].
Qed.

Lemma tip_card_is_Some (t : value) : is_Some (tip_card t) ↔ tip_ok t.
Proof.
  unfold tip_card, tip_ok, plain. split.
  - intros Hs.
    apply bind_is_Some in Hs as (x1 & H1 & Hs).
    assert (readable t) as Hr by (apply (get_readable t "tip"); by rewrite H1).
    rewrite (proj1 (get_readable t "tip") Hr) in H1. injection H1 as <-.
    apply bind_is_Some in Hs as (k1 & Hk1 & Hs).
    rewrite (proj1 (get_readable t "source_url") Hr) in Hs. cbn in Hs.
    rewrite (proj1 (get_readable t "source") Hr) in Hs. cbn in Hs.
    apply bind_is_Some in Hs as (k2 & Hk2 & Hs).
    rewrite (proj1 (get_readable t "action_taken") Hr) in Hs. cbn in Hs.
    apply bind_is_Some in Hs as (k3 & Hk3 & _).
    by rewrite Hk1, Hk2, Hk3.
  - intros (Hr & [k1 Hk1] & [k2 Hk2] & [k3 Hk3]).
    rewrite (proj1 (get_readable t "tip") Hr),
            (proj1 (get_readable t "source_url") Hr),
            (proj1 (get_readable t "source") Hr),
            (proj1 (get_readable t "action_taken") Hr).
    cbn. rewrite Hk1. cbn. rewrite Hk2. cbn. rewrite Hk3. cbn. by eexists.
Qed.

Lemma question_item_is_Some (a : gmap string string) (i : nat) (q : value) :
  is_Some (question_item a i q) ↔ question_ok q.
Proof.
  unfold question_item, question_ok, plain. split.
  - intros Hs.
    apply bind_is_Some in Hs as (x1 & H1 & Hs).
    assert (readable q) as Hr by (apply (get_readable q "id"); by rewrite H1).
    rewrite (proj1 (get_readable q "question") Hr) in Hs. cbn in Hs.
    apply bind_is_Some in Hs as (k1 & Hk1 & Hs).
    rewrite (proj1 (get_readable q "context") Hr) in Hs. cbn in Hs.
    apply bind_is_Some in Hs as (k2 & Hk2 & _).
    by rewrite Hk1, Hk2.
  - intros (Hr & [k1 Hk1] & [k2 Hk2]).
    rewrite (proj1 (get_readable q "id") Hr),
            (proj1 (get_readable q "question") Hr),
            (proj1 (get_readable q "context") Hr).
    cbn. rewrite Hk1. cbn. rewrite Hk2. cbn. by eexists.
Qed.

Lemma heads_up_card_is_Some (v : value) :
  is_Some (heads_up_card v) ↔ shown_list tip_ok v.
Proof.
  apply when_nonempty_is_Some. intros xs _.
  rewrite bind_is_Some.
  rewrite <- (render_each_is_Some (λ _ tip, tip_card tip) tip_ok xs 0)
    by (intros _ x; apply tip_card_is_Some).
  split; [by intros (c & -> & _)|]. intros [c Hc]. exists c. by split.
Qed.

Lemma counted_card_is_Some label container item (v : value) :
  is_Some (counted_card label container item v) ↔ shown_list plain v.
Proof.
  apply when_nonempty_is_Some. intros xs ->. cbn [length_of child].
  cbn [mbind option_bind].
  rewrite bind_is_Some.
  rewrite <- (render_each_is_Some
                (λ _ x, k ← child x; Some [item k]) plain xs 0).
  - split; [by intros (c & -> & _)|]. intros [c Hc]. exists c. by split.
  - intros _ x. unfold plain. destruct (child x); cbn; split; by eauto.
Qed.

Lemma contradictions_card_is_Some (v : value) :
  is_Some (contradictions_card v) ↔ shown_list plain v.
Proof.
  apply when_nonempty_is_Some. intros xs _.
  rewrite bind_is_Some.
  rewrite <- (render_each_is_Some
                (λ _ c, k ← child c;
                        Some [El "div" [] (El "span" [] [Text "⚠"] :: k)])
                plain xs 0).
  - split; [by intros (c & -> & _)|]. intros [c Hc]. exists c. by split.
  - intros _ x. unfold plain. destruct (child x); cbn; split; by eauto.
Qed.

Lemma questions_card_is_Some (a : gmap string string) (v : value) :
  is_Some (questions_card a v) ↔ shown_list question_ok v.
Proof.
  apply when_nonempty_is_Some. intros xs _.
  rewrite bind_is_Some.
  rewrite <- (render_each_is_Some (question_item a) question_ok xs 0)
    by (intros j x; apply question_item_is_Some).
  split; [by intros (c & -> & _)|]. intros [c Hc]. exists c. by split.
Qed.

(** X8: among the responses in which the values the stage converts to a
    number or a string are ones whose conversion is modelled (the [length]
    of a record standing for a list is not a string or an array, and no
    such [length], question [id] or tip [source_url] holds an object with
    a [toString] property of its own), the questions stage renders exactly
    those in which each of the six lists is either not shown (absent,
    [null], empty, or another value without a positive length) or an array
    of elements it can show: tips and questions that are not [null] and
    whose texts hold no object, and gaps, AI words, auto-fixes and
    contradictions that hold no object.  On any other such response (a
    [null] tip, a record among the gaps, a non-empty text in place of a
    list) the whole stage fails to render, whatever the state of the
    answers. *)
Theorem QuestionsStage_renders_iff (d : value) (st : QuestionsState) :
  coercions_modelled d = true →
  (is_Some (QuestionsStage d st) ↔ response_ok d).
Proof.
  intros _. unfold QuestionsStage, response_ok. cbn zeta.
  rewrite <- heads_up_card_is_Some.
  rewrite <- (counted_card_is_Some "GAPS DETECTED" "ul" gap_item).
  rewrite <- (counted_card_is_Some "AI WORDS TO REMOVE" "div" ai_word_item).
  rewrite <- (counted_card_is_Some "AUTO-FIXES" "ul" auto_fix_item).
  rewrite <- contradictions_card_is_Some.
  rewrite <- (questions_card_is_Some (answers st)).
  destruct (heads_up_card _) as [h|]; cbn;
    [|split; [by intros [? ?]|by intros ([? ?] & _)]].
  destruct (counted_card "GAPS DETECTED" _ _ _) as [g|]; cbn;
    [|split; [by intros [? ?]|by intros (_ & [? ?] & _)]].
  destruct (counted_card "AI WORDS TO REMOVE" _ _ _) as [w|]; cbn;
    [|split; [by intros [? ?]|by intros (_ & _ & [? ?] & _)]].
  destruct (counted_card "AUTO-FIXES" _ _ _) as [f|]; cbn;
    [|split; [by intros [? ?]|by intros (_ & _ & _ & [? ?] & _)]].
  destruct (contradictions_card _) as [c|]; cbn;
    [|split; [by intros [? ?]|by intros (_ & _ & _ & _ & [? ?] & _)]].
  destruct (questions_card _ _) as [q|]; cbn;
    [|split; [by intros [? ?]|by intros (_ & _ & _ & _ & _ & [? ?])]].
  split; [|by eexists]. intros _. repeat split; by eexists.
Qed.

Example length_as_text_not_modelled :
  coercions_modelled
    (VObj {[ "gaps_found" := VObj {[ "length" := VStr "5" ]} ]}) = false
  ∧ coercions_modelled
      (VObj {[ "questions" :=
                 VArr [VObj {[ "id" := VObj {[ "toString" := VNum 1 ]} ]}] ]})
    = false.
Proof. vm_compute. done. Qed.

Lemma QuestionsStage_renders_iff_witness :
  response_ok (VObj sample_response).
Proof.
  apply (proj1 (QuestionsStage_renders_iff (VObj sample_response)
                  QuestionsStage_init eq_refl)).
  vm_compute. by eexists.
Defined.

End RenderFacts.

(* ===================================================================== *)
(** ** The results stage *)
(* ===================================================================== *)

Section ResultsFacts.
Import JS Frontend.

Lemma output_of_agree (d1 d2 : gmap string value) :
  d1 !! "output" = d2 !! "output" → output_of (VObj d1) = output_of (VObj d2).
Proof. unfold output_of, get_opt. by intros ->. Qed.

Lemma ResultsStage_use_agree st ev (d1 d2 : gmap string value) :
  (∀ k, k ∈ result_fields → d1 !! k = d2 !! k) →
  ResultsStage_use st ev (VObj d1) = ResultsStage_use st ev (VObj d2).
Proof.
  intros Hag.
  unfold ResultsStage_use, ResultsStage, ResultsStage_panel,
    ResultsStage_banner, ResultsStage_on.
  rewrite (output_of_agree d1 d2),
          (list_field_agree d1 d2 "heads_up_tips"),
          (list_field_agree d1 d2 "auto_fixes_applied"),
          (list_field_agree d1 d2 "ai_words_removed")
    by (apply Hag; unfold result_fields; set_solver).
  reflexivity.
Qed.

Lemma output_of_insert (d o : gmap string value) :
  output_of (VObj (<["output" := VObj o]> d)) = VObj o.
Proof. unfold output_of, get_opt. by rewrite lookup_insert_eq. Qed.

Lemma tabContent_agree (o1 o2 : gmap string value) (tab : string) :
  (∀ k, k ∈ output_fields → o1 !! k = o2 !! k) →
  tabContent (VObj o1) tab = tabContent (VObj o2) tab.
Proof.
  intros Hag. unfold tabContent, get_opt.
  rewrite (Hag "cv_ats_version"), (Hag "cv_human_version"), (Hag "cover_letter")
    by (unfold output_fields; set_solver).
  reflexivity.
Qed.

Lemma ResultsStage_use_output_agree st ev (d o1 o2 : gmap string value) :
  (∀ k, k ∈ output_fields → o1 !! k = o2 !! k) →
  ResultsStage_use st ev (VObj (<["output" := VObj o1]> d))
  = ResultsStage_use st ev (VObj (<["output" := VObj o2]> d)).
Proof.
  intros Hag.
  unfold ResultsStage_use, ResultsStage, ResultsStage_panel,
    ResultsStage_banner, ResultsStage_on, text_panel, strategy_panel.
  rewrite !output_of_insert.
  rewrite (list_field_agree (<["output" := VObj o1]> d)
             (<["output" := VObj o2]> d) "heads_up_tips"),
          (list_field_agree (<["output" := VObj o1]> d)
             (<["output" := VObj o2]> d) "auto_fixes_applied"),
          (list_field_agree (<["output" := VObj o1]> d)
             (<["output" := VObj o2]> d) "ai_words_removed")
    by (by rewrite !lookup_insert_ne).
  rewrite (list_field_agree o1 o2 "change_log"),
          (list_field_agree o1 o2 "linkedin_tips")
    by (apply Hag; unfold output_fields; set_solver).
  rewrite !(tabContent_agree o1 o2) by done.
  cbn [get_opt].
  rewrite (Hag "application_strategy") by (unfold output_fields; set_solver).
  reflexivity.
Qed.

Lemma ResultsStage_each_field (k : string) :
  k ∈ ["heads_up_tips"; "auto_fixes_applied"; "ai_words_removed"] →
  ∃ v, ResultsStage (VObj {[k := v]}) ResultsStage_init
       ≠ ResultsStage (VObj ∅) ResultsStage_init.
Proof.
  rewrite !elem_of_cons, elem_of_nil. intros [->|[->|[->|[]]]].
  - exists (VArr [VObj {["tip" := VStr "x"]}]). vm_compute. discriminate.
  - exists (VArr [VStr "x"]). vm_compute. discriminate.
  - exists (VArr [VStr "x"]). vm_compute. discriminate.
Qed.

Lemma ResultsStage_each_output_field (k : string) :
  k ∈ output_fields →
  ∃ v tab, ResultsStage (VObj {["output" := VObj {[k := v]}]})
             {| activeTab := tab; copied := "" |}
           ≠ ResultsStage (VObj ∅) {| activeTab := tab; copied := "" |}.
Proof.
  unfold output_fields. rewrite !elem_of_cons, elem_of_nil.
  intros [->|[->|[->|[->|[->|[->|[]]]]]]].
  - exists (VStr "x"), "cv-ats". vm_compute. discriminate.
  - exists (VStr "x"), "cv-human". vm_compute. discriminate.
  - exists (VStr "x"), "cover". vm_compute. discriminate.
  - exists (VStr "x"), "strategy". vm_compute. discriminate.
  - exists (VArr [VObj ∅]), "changelog". vm_compute. discriminate.
  - exists (VArr [VObj ∅]), "linkedin". vm_compute. discriminate.
Qed.

(** X9: of the generate response the results stage reads [output],
    [heads_up_tips], [auto_fixes_applied] and [ai_words_removed], and of
    [output] the six properties [cv_ats_version], [cv_human_version],
    [cover_letter], [application_strategy], [change_log] and
    [linkedin_tips], and nothing else: two responses that agree on them
    are rendered alike in every tab and copied alike, and each of these
    properties changes what is rendered for some response. *)
Theorem ResultsStage_reads :
  (∀ st ev (d1 d2 : gmap string value),
     (∀ k, k ∈ result_fields → d1 !! k = d2 !! k) →
     ResultsStage_use st ev (VObj d1) = ResultsStage_use st ev (VObj d2))
  ∧ (∀ st ev (d o1 o2 : gmap string value),
       (∀ k, k ∈ output_fields → o1 !! k = o2 !! k) →
       ResultsStage_use st ev (VObj (<["output" := VObj o1]> d))
       = ResultsStage_use st ev (VObj (<["output" := VObj o2]> d)))
  ∧ (∀ k, k ∈ ["heads_up_tips"; "auto_fixes_applied"; "ai_words_removed"] →
       ∃ v, ResultsStage (VObj {[k := v]}) ResultsStage_init
            ≠ ResultsStage (VObj ∅) ResultsStage_init)
  ∧ (∀ k, k ∈ output_fields →
       ∃ v tab, ResultsStage (VObj {["output" := VObj {[k := v]}]})
                  {| activeTab := tab; copied := "" |}
                ≠ ResultsStage (VObj ∅) {| activeTab := tab; copied := "" |}).
Proof.
  split; [apply ResultsStage_use_agree|].
  split; [apply ResultsStage_use_output_agree|].
  split; [apply ResultsStage_each_field|apply ResultsStage_each_output_field].
Qed.

Lemma ResultsStage_reads_witness :
  ResultsStage_use ResultsStage_init PressCopy
    (VObj (<["output" := VObj {["cover_letter" := VStr "Dear team"]}]>
             {["debug" := VStr "trace"]}))
  = ResultsStage_use ResultsStage_init PressCopy
      (VObj {["output" := VObj {["cover_letter" := VStr "Dear team"]}]}).
Proof.
  apply (proj1 ResultsStage_reads).
  unfold result_fields. intros k. rewrite !elem_of_cons, elem_of_nil.
  intros [->|[->|[->|[->|[]]]]]; reflexivity.
Defined.

Lemma is_text_tab_spec (tab : string) :
  is_text_tab tab = true → tab = "cv-ats" ∨ tab = "cv-human" ∨ tab = "cover".
Proof.
  unfold is_text_tab. rewrite !orb_true_iff, !String.eqb_eq. tauto.
Qed.

Lemma text_tab_only (data : value) (st : ResultsState) :
  is_text_tab (activeTab st) = true →
  ResultsStage_panel data st = text_panel (output_of data) st.
Proof.
  intros Ht. unfold ResultsStage_panel. cbn zeta.
  unfold linkedin_panel, strategy_panel, changelog_panel.
  apply is_text_tab_spec in Ht.
  assert (String.eqb (activeTab st) "linkedin" = false
          ∧ String.eqb (activeTab st) "strategy" = false
          ∧ String.eqb (activeTab st) "changelog" = false) as (-> & -> & ->).
  { destruct Ht as [->|[->| ->]]; done. }
  destruct (text_panel _ _) as [t|]; cbn; [|done]. by rewrite !app_nil_r.
Qed.

(** X10: on a text tab (ATS CV, polished CV, cover letter) whose content
    is missing, [null], empty or otherwise falsy, the panel shows no card,
    no copy button and no placeholder, only what React makes of the falsy
    value, and the copy action does nothing.  When the content is a
    non-empty text the panel shows the tab's blurb, the copy button and the
    text, and copying hands exactly that text to the clipboard and marks
    this tab as copied. *)
Theorem text_tab_panel (data : value) (st : ResultsState) :
  is_text_tab (activeTab st) = true →
  (truthy (tabContent (output_of data) (activeTab st)) = false →
     ResultsStage_panel data st
     = child (tabContent (output_of data) (activeTab st))
     ∧ ResultsStage_on data PressCopy st = (st, None))
  ∧ (∀ s, tabContent (output_of data) (activeTab st) = VStr s → s ≠ "" →
       ResultsStage_panel data st
       = Some [El "div" []
                 [El "div" []
                    [El "div" [] (text_blurb (activeTab st));
                     El "button" []
                       [Text (if String.eqb (copied st) (activeTab st)
                              then "✓ Copied!" else "⎘ Copy")]];
                  Card [El "pre" [] [Text s]]]]
       ∧ ResultsStage_on data PressCopy st
         = ({| activeTab := activeTab st; copied := activeTab st |}, Some s)).
Proof.
  intros Ht. split.
  - intros Hf. rewrite (text_tab_only data st Ht).
    unfold text_panel, when_truthy, ResultsStage_on. rewrite Ht, Hf. cbn.
    split; [|done]. by destruct (child _).
  - intros s Hs Hne. rewrite (text_tab_only data st Ht).
    unfold text_panel, when_truthy, ResultsStage_on. rewrite Ht, Hs. cbn.
    apply String.eqb_neq in Hne. rewrite Hne. cbn. done.
Qed.

Lemma text_tab_panel_witness :
  ResultsStage_panel (VObj {["output" := VObj {["cover_letter" := VStr "Dear team"]}]})
    ResultsStage_init = Some []
  ∧ ResultsStage_on
      (VObj {["output" := VObj {["cover_letter" := VStr "Dear team"]}]})
      PressCopy ResultsStage_init = (ResultsStage_init, None).
Proof.
  assert (is_text_tab (activeTab ResultsStage_init) = true) as Ht
    by reflexivity.
  destruct (text_tab_panel
              (VObj {["output" := VObj {["cover_letter" := VStr "Dear team"]}]})
              ResultsStage_init Ht) as [Hfalsy _].
  apply Hfalsy. vm_compute. reflexivity.
Defined.

Lemma render_each_length (f : nat → value → option (list node))
    (l : list value) (i : nat) (out : list node) :
  (∀ j x r, f j x = Some r → length r = 1) →
  render_each f i l = Some out → length out = length l.
Proof.
  intros Hf. revert i out. induction l as [|x l IH]; intros i out; cbn.
  - by intros [= <-].
  - destruct (f i x) as [a|] eqn:Ha; cbn; [|discriminate].
    destruct (render_each f (S i) l) as [b|] eqn:Hb; cbn; [|discriminate].
    intros [= <-]. rewrite length_app, (Hf _ _ _ Ha), (IH _ _ Hb). done.
Qed.

Lemma change_card_single (c : value) (r : list node) :
  change_card c = Some r → length r = 1.
Proof.
  unfold change_card.
  destruct (get c "original") as [o|]; cbn; [|discriminate].
  destruct (child o); cbn; [|discriminate].
  destruct (get c "changed_to") as [t|]; cbn; [|discriminate].
  destruct (child t); cbn; [|discriminate].
  destruct (get c "reason") as [rs|]; cbn; [|discriminate].
  destruct (child rs); cbn; [|discriminate].
  by intros [= <-].
Qed.

(** X11: the Changes Made counter and the change-log tab agree.  For a
    change log of n entries the counter shows n; the tab shows the
    placeholder when n is zero and, when it renders, one card per entry
    otherwise. *)
Theorem change_log_counts (data : value) (st : ResultsState)
    (entries : list value) :
  list_field (output_of data) "change_log" = VArr entries →
  activeTab st = "changelog" →
  summary_card "Changes Made" (list_field (output_of data) "change_log")
  = Some [Card [El "p" [] [Text (pretty (Z.of_nat (length entries)))];
                El "p" [] [Text "Changes Made"]]]
  ∧ (entries = [] →
       ResultsStage_panel data st
       = Some [El "div" []
                 [El "p" [] [Text "Every change made to your CV — and exactly why. Full transparency."];
                  Card [El "p" [] [Text "No detailed change log available."]]]])
  ∧ (∀ out, entries ≠ [] → ResultsStage_panel data st = Some out →
       ∃ cards,
         out = [El "div" []
                  (El "p" [] [Text "Every change made to your CV — and exactly why. Full transparency."]
                   :: cards)]
         ∧ length cards = length entries).
Proof.
  intros Hlog Htab. rewrite Hlog.
  assert (∀ out, ResultsStage_panel data st = Some out ↔
                 changelog_panel (VArr entries) st = Some out) as Hpanel.
  { intros out. unfold ResultsStage_panel. cbn zeta. rewrite Hlog.
    unfold text_panel, linkedin_panel, strategy_panel. rewrite Htab. cbn.
    by destruct (changelog_panel _ _). }
  split; [done|]. split.
  - intros He. apply Hpanel. unfold changelog_panel. by rewrite Htab, He.
  - intros out Hne Hout. apply Hpanel in Hout.
    unfold changelog_panel, cards_or in Hout. rewrite Htab in Hout.
    destruct entries as [|e es]; [done|]. cbn in Hout.
    destruct (change_card e) as [a|] eqn:Ha; cbn in Hout; [|discriminate].
    destruct (render_each _ 1 es) as [b|] eqn:Hb; cbn in Hout; [|discriminate].
    injection Hout as <-. exists (a ++ b). split; [done|].
    rewrite length_app, (change_card_single _ _ Ha). cbn. f_equal.
    eapply render_each_length; [|exact Hb].
    intros j x r. apply change_card_single.
Qed.

Lemma change_log_counts_witness :
  summary_card "Changes Made"
    (list_field
       (output_of
          (VObj {["output" :=
                    VObj {["change_log" :=
                             VArr [VObj (<["original" := VStr "01/23"]>
                                           (<["changed_to" := VStr "Jan 2023"]>
                                              {["reason" := VStr "date format"]}))]]}]}))
       "change_log")
  = Some [Card [El "p" [] [Text "1"]; El "p" [] [Text "Changes Made"]]].
Proof.
  refine (proj1 (change_log_counts _ {| activeTab := "changelog"; copied := "" |}
                   [VObj (<["original" := VStr "01/23"]>
                            (<["changed_to" := VStr "Jan 2023"]>
                               {["reason" := VStr "date format"]}))] _ _));
    reflexivity.
Defined.

Lemma showing_tab (data : value) (st : ResultsState) :
  showing data st →
  activeTab st ∈ ["cv-ats"; "cv-human"; "cover"; "linkedin"; "strategy"; "changelog"]
  ∧ copied st ∈ [""; "cv-ats"; "cv-human"; "cover"].
Proof.
  induction 1 as [|st ev _ [IHa IHc]]; [split; repeat constructor|].
  destruct ev as [i| |]; cbn.
  - destruct (TABS !! i) as [t|] eqn:Ht; cbn; [|done]. split; [|done].
    apply list_elem_of_lookup_2 in Ht. unfold TABS in Ht.
    rewrite !elem_of_cons, elem_of_nil in Ht.
    destruct Ht as [->|[->|[->|[->|[->|[->|[]]]]]]]; cbn; repeat constructor.
  - destruct (is_text_tab (activeTab st)) eqn:Htt; cbn; [|done].
    destruct (truthy _); cbn; [|done]. split; [done|].
    apply is_text_tab_spec in Htt as [->|[->| ->]]; repeat constructor.
  - split; [done|]. repeat constructor.
Qed.

(** X12: while the results stage shows a response, the active tab is
    always one of the six tabs, exactly one button of the tab bar is marked
    active, exactly one of the four panels applies (text, LinkedIn,
    strategy, change log), and the copied mark is empty or the id of a
    text tab. *)
Theorem one_tab_active (data : value) (st : ResultsState) :
  showing data st →
  activeTab st ∈ TABS.*1.*1
  ∧ length (filter (λ n, n = true)
              ((λ t : string * string * string,
                  String.eqb (activeTab st) t.1.1) <$> TABS)) = 1
  ∧ length (filter (λ b, b = true)
              [is_text_tab (activeTab st);
               String.eqb (activeTab st) "linkedin";
               String.eqb (activeTab st) "strategy";
               String.eqb (activeTab st) "changelog"]) = 1
  ∧ copied st ∈ [""; "cv-ats"; "cv-human"; "cover"].
Proof.
  intros Hs. destruct (showing_tab data st Hs) as [Ha Hc].
  split; [exact Ha|]. split; [|split; [|exact Hc]];
    rewrite !elem_of_cons, elem_of_nil in Ha;
    destruct Ha as [->|[->|[->|[->|[->|[->|[]]]]]]]; reflexivity.
Qed.

Lemma one_tab_active_witness :
  activeTab (ResultsStage_on (VObj ∅) (PickTab 4) ResultsStage_init).1
  ∈ TABS.*1.*1.
Proof.
  apply (one_tab_active (VObj ∅)
           (ResultsStage_on (VObj ∅) (PickTab 4) ResultsStage_init).1).
  apply showing_next, showing_start.
Defined.

End ResultsFacts.

(* ===================================================================== *)
(** ** The banner of the results stage *)
(* ===================================================================== *)

Section BannerFacts.
Import JS Frontend.

Lemma append_String (c : ascii) (a b : string) :
  String c a +:+ b = String c (a +:+ b).
Proof. reflexivity. Qed.

Lemma before_dot_begins (s : string) : begins (before_dot s) s.
Proof.
  induction s as [|c s [rest IH]]; [by exists ""|]. cbn.
  destruct (Ascii.eqb c "."); [by eexists|].
  exists rest. rewrite append_String. f_equal. exact IH.
Qed.

Lemma before_dot_no_dot (s : string) :
  "."%char ∉ list_ascii_of_string (before_dot s).
Proof.
  induction s as [|c s IH]; cbn; [apply not_elem_of_nil|].
  destruct (Ascii.eqb_spec c "."); cbn; [apply not_elem_of_nil|].
  apply not_elem_of_cons. by split.
Qed.

Lemma substring0_begins (n : nat) (s : string) : begins (substring0 n s) s.
Proof.
  revert s. induction n as [|n IH]; intros s; [by exists s; destruct s|].
  destruct s as [|c s]; [by exists ""|]. cbn.
  destruct (IH s) as [rest Hr]. exists rest. rewrite append_String.
  f_equal. exact Hr.
Qed.

Lemma substring0_length (n : nat) (s : string) :
  String.length (substring0 n s) ≤ n.
Proof.
  revert s. induction n as [|n IH]; intros s; [by destruct s|].
  destruct s as [|c s]; cbn; [lia|]. specialize (IH s). lia.
Qed.

Lemma substring0_all (n : nat) (s : string) :
  String.length s ≤ n → substring0 n s = s.
Proof.
  revert s. induction n as [|n IH]; intros s Hl.
  - destruct s; [done|cbn in Hl; lia].
  - destruct s as [|c s]; [done|]. cbn in *. rewrite IH; [done|lia].
Qed.

Lemma substring0_chars (n : nat) (s : string) (c : ascii) :
  c ∈ list_ascii_of_string (substring0 n s) → c ∈ list_ascii_of_string s.
Proof.
  revert s. induction n as [|n IH]; intros s.
  - destruct s; cbn; by intros ?%elem_of_nil.
  - destruct s as [|c' s]; cbn; [by intros ?%elem_of_nil|].
    rewrite !elem_of_cons. intros [->|Hc]; [by left|]. right. by apply IH.
Qed.

Lemma begins_trans (u v s : string) : begins u v → begins v s → begins u s.
Proof.
  intros [r1 ->] [r2 ->]. exists (r1 +:+ r2).
  induction u as [|c u IH]; [done|]. rewrite !append_String.
  f_equal. exact IH.
Qed.

(** X13: the tag the results banner makes of a tip is the beginning of
    the tip's text up to its first full stop, cut to 50 code units: it
    begins the tip, is at most 50 long, holds no full stop, and is the
    whole first sentence when that is at most 50 long. *)
Theorem banner_tag_text (t : value) (s : string) :
  get t "tip" = Some (VStr s) →
  ∃ u, banner_tag t
       = Some [Tag "gold" (if String.eqb u "" then [] else [Text u])]
       ∧ begins u s
       ∧ String.length u ≤ 50
       ∧ ("."%char ∉ list_ascii_of_string u)
       ∧ (String.length (before_dot s) ≤ 50 → u = before_dot s).
Proof.
  intros Ht. exists (substring0 50 (before_dot s)).
  split; [unfold banner_tag; by rewrite Ht|].
  split; [eapply begins_trans; [apply substring0_begins|apply before_dot_begins]|].
  split; [apply substring0_length|].
  split; [|apply substring0_all].
  intros Hc%substring0_chars. by apply before_dot_no_dot in Hc.
Qed.

Lemma banner_tag_text_witness :
  ∃ u, banner_tag (VObj {["tip" := VStr "Mirror the job title. It is matched first."]})
       = Some [Tag "gold" (if String.eqb u "" then [] else [Text u])]
       ∧ String.length u ≤ 50.
Proof.
  assert (get (VObj {["tip" := VStr "Mirror the job title. It is matched first."]})
            "tip"
          = Some (VStr "Mirror the job title. It is matched first.")) as Ht
    by (vm_compute; reflexivity).
  destruct (banner_tag_text _ _ Ht) as (u & H1 & _ & H2 & _).
  exists u. split; assumption.
Defined.

Lemma banner_tag_is_Some (t : value) :
  is_Some (banner_tag t) ↔ ∃ s, get t "tip" = Some (VStr s).
Proof.
  unfold banner_tag. destruct (get t "tip") as [v|]; cbn.
  2:{ split; [by intros [? ?]|]. intros [s Hs]. discriminate. }
  destruct v as [| |b|n|s|xs|o]; cbn;
    try (split; [by intros [? ?]|intros [s0 Hs]; discriminate]).
  split; [intros _; by exists s|]. intros _.
  destruct (String.eqb _ ""); by eexists.
Qed.

Lemma banner_tag_single (j : nat) (t : value) (r : list node) :
  banner_tag t = Some r → length r = 1.
Proof.
  unfold banner_tag. destruct (get t "tip") as [[]|]; cbn; try discriminate.
  destruct (String.eqb _ ""); cbn; by intros [= <-].
Qed.

(** X14: for a response with at least one tip, the results banner shows
    one tag for each of the first three tips when each of them carries its
    advice as a text under [tip].  If one of the first three does not (a
    number, a record, a missing [tip]), the banner throws and the whole
    results stage fails to render, in every tab. *)
Theorem banner_first_three_tips (d : value) (tips : list value) :
  list_field d "heads_up_tips" = VArr tips →
  tips ≠ [] →
  (Forall (λ t, ∃ s, get t "tip" = Some (VStr s)) (take 3 tips) →
     ∃ tags,
       ResultsStage_banner d
       = Some [El "div" []
                 (El "span" [] [Text "⚡ RECRUITER TIPS APPLIED"] :: tags)]
       ∧ length tags = Nat.min 3 (length tips))
  ∧ (∀ t, t ∈ take 3 tips → (∀ s, get t "tip" ≠ Some (VStr s)) →
       ResultsStage_banner d = None ∧ ∀ st, ResultsStage d st = None).
Proof.
  intros Hd Hne.
  assert (ResultsStage_banner d
          = (tags ← render_each (λ _ t, banner_tag t) 0 (take 3 tips);
             Some [El "div" []
                     (El "span" [] [Text "⚡ RECRUITER TIPS APPLIED"] :: tags)]))
    as Hb.
  { unfold ResultsStage_banner, when_nonempty. rewrite Hd.
    destruct tips as [|t tips]; [done|].
    unfold length_gt0. cbn [length_of gt0 length].
    replace (0 <? Z.of_nat (S (length tips)))%Z with true
      by (symmetry; apply Z.ltb_lt; lia).
    reflexivity. }
  split.
  - intros Hall.
    apply (render_each_is_Some (λ _ t, banner_tag t) _ _ 0) in Hall as [tags Ht];
      [|intros _ x; apply banner_tag_is_Some].
    exists tags. rewrite Hb, Ht. split; [done|].
    rewrite (render_each_length _ _ _ _ banner_tag_single Ht).
    rewrite length_take. lia.
  - intros t Hin Hbad.
    assert (ResultsStage_banner d = None) as Hnone.
    { rewrite Hb, (render_each_fails _ t (take 3 tips) 0 Hin); [done|].
      intros _. destruct (banner_tag t) eqn:Hbt; [|done].
      destruct (proj1 (banner_tag_is_Some t)) as [s Hs]; [by eexists|].
      by destruct (Hbad s). }
    split; [exact Hnone|]. intros st. unfold ResultsStage. cbn zeta.
    by rewrite Hnone.
Qed.

Lemma banner_first_three_tips_witness :
  ResultsStage_banner
    (VObj {["heads_up_tips" := VArr [VObj {["text" := VStr "Mirror the title"]}]]})
  = None.
Proof.
  assert (list_field
            (VObj {["heads_up_tips" :=
                      VArr [VObj {["text" := VStr "Mirror the title"]}]]})
            "heads_up_tips"
          = VArr [VObj {["text" := VStr "Mirror the title"]}]) as Hd
    by (vm_compute; reflexivity).
  assert ([VObj {["text" := VStr "Mirror the title"]}] ≠ []) as Hne
    by discriminate.
  apply (proj2 (banner_first_three_tips _ _ Hd Hne)
           (VObj {["text" := VStr "Mirror the title"]})).
  - apply list_elem_of_here.
  - intros s. vm_compute. discriminate.
Defined.

End BannerFacts.

(* ===================================================================== *)
(** ** The analyzing stage *)
(* ===================================================================== *)

Section AnalyzingFacts.
Import JS Frontend.

Lemma ticks_count (n : nat) :
  Nat.iter n AnalyzingStage_tick 0 = Nat.min n 6.
Proof.
  induction n as [|n IH]; [done|]. rewrite Nat.iter_succ, IH.
  unfold AnalyzingStage_tick. cbn [length ANALYSIS_STEPS]. lia.
Qed.

(** X15: after any number of ticks of its timer the analyzing stage is at
    step min(n, 6): it advances one line per tick and stops on the last
    line.  Every line before the step shows the check mark, the line of
    the step shows the pulsing dot, every later line is dimmed; so exactly
    one line is current, and the last line, Preparing your questions, is
    never shown as done however long the analysis takes. *)
Theorem analyzing_progress (n : nat) :
  Nat.iter n AnalyzingStage_tick 0 = Nat.min n 6
  ∧ length (AnalyzingStage (Nat.iter n AnalyzingStage_tick 0)) = 7
  ∧ (∀ i s, ANALYSIS_STEPS !! i = Some s →
       AnalyzingStage (Nat.iter n AnalyzingStage_tick 0) !! i
       = Some (if decide (i < Nat.min n 6) then done_row s
               else if decide (i = Nat.min n 6) then current_row s
               else pending_row s))
  ∧ AnalyzingStage (Nat.iter n AnalyzingStage_tick 0) !! 6
    = Some (if decide (6 ≤ n) then current_row "Preparing your questions..."
            else pending_row "Preparing your questions...").
Proof.
  rewrite ticks_count. split; [done|]. split; [done|].
  assert (∀ i s, ANALYSIS_STEPS !! i = Some s →
            AnalyzingStage (Nat.min n 6) !! i
            = Some (if decide (i < Nat.min n 6) then done_row s
                    else if decide (i = Nat.min n 6) then current_row s
                    else pending_row s)) as Hrows.
  { intros i s Hi. unfold AnalyzingStage. rewrite list_lookup_imap, Hi. cbn.
    f_equal. unfold step_row.
    destruct (decide (i < Nat.min n 6)) as [Hlt|Hge].
    - assert ((i <=? Nat.min n 6) = true) as -> by (apply Nat.leb_le; lia).
      assert ((i <? Nat.min n 6) = true) as -> by (apply Nat.ltb_lt; lia).
      assert ((i =? Nat.min n 6) = false) as -> by (apply Nat.eqb_neq; lia).
      reflexivity.
    - assert ((i <? Nat.min n 6) = false) as -> by (apply Nat.ltb_ge; lia).
      destruct (decide (i = Nat.min n 6)) as [Heq|Hne].
      + assert ((i <=? Nat.min n 6) = true) as -> by (apply Nat.leb_le; lia).
        assert ((i =? Nat.min n 6) = true) as -> by (apply Nat.eqb_eq; lia).
        reflexivity.
      + assert ((i <=? Nat.min n 6) = false) as -> by (apply Nat.leb_gt; lia).
        assert ((i =? Nat.min n 6) = false) as -> by (apply Nat.eqb_neq; lia).
        reflexivity. }
  split; [exact Hrows|].
  rewrite (Hrows 6 "Preparing your questions..." eq_refl).
  f_equal. repeat case_decide; try done; lia.
Qed.

Lemma analyzing_progress_witness :
  AnalyzingStage (Nat.iter 2 AnalyzingStage_tick 0) !! 1
  = Some (done_row "Gathering ATS intelligence (Container A)...").
Proof.
  apply (proj1 (proj2 (proj2 (analyzing_progress 2)))
           1 "Gathering ATS intelligence (Container A)...").
  reflexivity.
Defined.

End AnalyzingFacts.

(* ===================================================================== *)
(** ** The file zones and the text fields of the input stage *)
(* ===================================================================== *)

Section FormFacts.
Import JS Frontend.

Lemma handleSubmit_files password st :
  cvFile (InputStage_handleSubmit password st).1 = cvFile st
  ∧ linkedinFile (InputStage_handleSubmit password st).1 = linkedinFile st.
Proof.
  unfold InputStage_handleSubmit; cbn -[Nat.ltb].
  repeat (case_match; cbn -[Nat.ltb]; try done).
Qed.

Lemma form_on_files password ev st :
  (is_Some (cvFile st) → is_Some (cvFile (InputStage_form_on password ev st)))
  ∧ (is_Some (linkedinFile st) →
     is_Some (linkedinFile (InputStage_form_on password ev st))).
Proof.
  destruct ev as [[field v|f|f|b|]|z|z]; cbn; try done.
  - destruct (handleSubmit_files password st) as [-> ->]. done.
  - destruct (FileZone_files z); cbn; done.
  - destruct (FileZone_files z); cbn; done.
Qed.

(** X16: neither file zone can be emptied.  Whatever is done on the input
    stage (typing, ticking, failed submits, choosing or dropping files,
    closing the file dialog without a choice), a CV or a LinkedIn PDF
    that is attached stays attached, possibly replaced; so once a
    LinkedIn PDF is attached every request sent from this form has a
    [linkedin_file] entry.  An empty selection or drop changes nothing. *)
Theorem attached_files_stay (password : string) (evs : list FormEvent)
    (st : InputState) :
  let st' := foldl (λ st ev, InputStage_form_on password ev st) st evs in
  (is_Some (cvFile st) → is_Some (cvFile st'))
  ∧ (is_Some (linkedinFile st) →
       is_Some (linkedinFile st')
       ∧ ∀ fd, (InputStage_handleSubmit password st').2 = Some fd →
               ∃ li, fd !! 6 = Some ("linkedin_file", FFile li))
  ∧ (∀ z, FileZone_files z = [] →
          InputStage_form_on password (OnCvZone z) st = st
          ∧ InputStage_form_on password (OnLinkedinZone z) st = st).
Proof.
  cbn zeta.
  assert ((is_Some (cvFile st) →
           is_Some (cvFile (foldl (λ st ev, InputStage_form_on password ev st) st evs)))
          ∧ (is_Some (linkedinFile st) →
             is_Some (linkedinFile
                        (foldl (λ st ev, InputStage_form_on password ev st) st evs))))
    as [Hcv Hli].
  { revert st. induction evs as [|ev evs IH]; intros st; [done|]. cbn.
    destruct (form_on_files password ev st) as [H1 H2].
    destruct (IH (InputStage_form_on password ev st)) as [H3 H4]. split; auto. }
  split; [exact Hcv|]. split.
  - intros Hsome. split; [by apply Hli|].
    intros fd Hfd. apply handleSubmit_sent in Hfd as [_ (cv & _ & ->)].
    destruct (Hli Hsome) as [li ->]. by exists li.
  - intros z Hz. cbn. by rewrite Hz.
Qed.

Lemma attached_files_stay_witness :
  is_Some (cvFile (foldl (λ st ev, InputStage_form_on "hunter2" ev st) sample_input
                     [OnCvZone (Choose []); OnCvZone (Drop []);
                      OnForm (Change Fcompany "Initech"); OnForm Submit])).
Proof.
  apply (attached_files_stay "hunter2"
           [OnCvZone (Choose []); OnCvZone (Drop []);
            OnForm (Change Fcompany "Initech"); OnForm Submit] sample_input).
  by eexists.
Defined.

(** X17: the size a file zone shows is the file's size in kilobytes
    rounded to the nearest whole number, halves upwards: it is within half
    a kilobyte of the real size, exact on whole kilobytes, zero for a file
    under 512 bytes, and never decreases with the size. *)
Theorem kilobytes_nearest (bytes : N) :
  (1024 * kilobytes bytes ≤ bytes + 512
   ∧ bytes + 512 < 1024 * kilobytes bytes + 1024
   ∧ (bytes < 512 → kilobytes bytes = 0)
   ∧ (∀ k, bytes = 1024 * k → kilobytes bytes = k)
   ∧ (∀ more, kilobytes bytes ≤ kilobytes (bytes + more)))%N.
Proof.
  unfold kilobytes.
  pose proof (N.Div0.mul_div_le (bytes + 512) 1024) as Hle.
  pose proof (N.mul_succ_div_gt (bytes + 512) 1024 ltac:(done)) as Hlt.
  split; [lia|]. split; [lia|]. split; [|split].
  - intros Hs. apply N.div_small. lia.
  - intros k ->. symmetry. apply (N.div_unique _ 1024 k 512); lia.
  - intros more. apply N.Div0.div_le_mono. lia.
Qed.

Lemma kilobytes_nearest_witness : kilobytes (1024 * 5120) = 5120%N.
Proof.
  apply (proj1 (proj2 (proj2 (proj2 (kilobytes_nearest (1024 * 5120)))))).
  reflexivity.
Defined.

Lemma form_on_typed password ev field st :
  field_of field (form (InputStage_form_on password ev st))
  = typed field ev (field_of field (form st)).
Proof.
  destruct ev as [[f v|f|f|b|]|z|z]; cbn; try done.
  - destruct f, field; done.
  - by rewrite handleSubmit_form.
  - by destruct (FileZone_files z).
  - by destruct (FileZone_files z).
Qed.

(** X18: each text field holds exactly what was last typed into it,
    whatever else happened on the form in between, and a submit that
    passes sends that text as it is, neither trimmed nor cut, under the
    field's entry name. *)
Theorem fields_hold_last_typed (password : string) (evs : list FormEvent)
    (field : Field) (st : InputState) :
  let st' := foldl (λ st ev, InputStage_form_on password ev st) st evs in
  field_of field (form st')
  = foldl (λ current ev, typed field ev current) (field_of field (form st)) evs
  ∧ ∀ fd, (InputStage_handleSubmit password st').2 = Some fd →
          (entry_of field, FText (field_of field (form st'))) ∈ fd.
Proof.
  cbn zeta. split.
  - revert st. induction evs as [|ev evs IH]; intros st; [done|]. cbn.
    by rewrite IH, form_on_typed.
  - intros fd Hfd. apply handleSubmit_sent in Hfd as [_ (cv & _ & ->)].
    destruct field; cbn; rewrite !elem_of_cons; tauto.
Qed.

Lemma fields_hold_last_typed_witness :
  field_of Fcompany
    (form (foldl (λ st ev, InputStage_form_on "hunter2" ev st) sample_input
             [OnForm (Change Fcompany " Initech "); OnForm (Tick false);
              OnForm Submit]))
  = " Initech ".
Proof.
  apply (proj1 (fields_hold_last_typed "hunter2"
                  [OnForm (Change Fcompany " Initech "); OnForm (Tick false);
                   OnForm Submit] Fcompany sample_input)).
Defined.

End FormFacts.

(* ===================================================================== *)
(** ** The page: which stage component holds state *)
(* ===================================================================== *)

Section PageFacts.
Import JS Frontend.

Lemma remount_app old a' kept : app (remount old a' kept) = a'.
Proof. unfold remount. by case_decide. Qed.

Lemma remount_fresh old a' kept :
  stage a' ≠ old →
  remount old a' kept
  = {| app := a'; password_st := PasswordStage_init;
       input_st := InputStage_init; questions_st := QuestionsStage_init;
       results_st := ResultsStage_init |}.
Proof. intros Hne. unfold remount. by rewrite decide_False. Qed.

Lemma handleAnalyze_not_analyzing fd net a :
  stage (InputStageWrapper_handleAnalyze fd net a) ≠ ANALYZING.
Proof. unfold InputStageWrapper_handleAnalyze. by destruct (settle _ _). Qed.

(** X19: the page moves its app exactly as [App_on] does on the event the
    page event amounts to (a submit of the password form with the typed
    text, a submit of the input form in its current state, the generate
    button with the current answers, the restart button), and leaves the
    app alone on every other event: typing, ticking, attaching files,
    switching tabs and copying never change the stage, the password or
    the data. *)
Theorem Page_moves_as_App (ev : PageEvent) (p : Page) :
  app (Page_on ev p)
  = match app_event ev p with
    | Some e => App_on e (app p)
    | None => app p
    end.
Proof.
  unfold Page_on, app_event, App_on.
  destruct ev as [[v| |]|[[field v|f|f|b|]|z|z] net|i val|net|rv|];
    destruct (stage (app p)) eqn:Hs; cbn; try done; rewrite ?Hs; try done.
  - destruct (PasswordStage_handleSubmit (pwd (password_st p))); cbn;
      [by rewrite remount_app|done].
  - destruct (InputStage_handleSubmit _ _).2; cbn; [by rewrite remount_app|done].
  - destruct (QuestionsStage_handleGenerate _ _ _ _).2; cbn;
      [by rewrite remount_app|done].
Qed.

Lemma Page_on_changes_stage (ev : PageEvent) (p : Page) :
  stage (app (Page_on ev p)) ≠ stage (app p) →
  Page_on ev p
  = {| app := app (Page_on ev p); password_st := PasswordStage_init;
       input_st := InputStage_init; questions_st := QuestionsStage_init;
       results_st := ResultsStage_init |}.
Proof.
  unfold Page_on.
  destruct ev as [[v| |]|[[field v|f|f|b|]|z|z] net|i val|net|rv|];
    destruct (stage (app p)) eqn:Hs; cbn; try (by rewrite ?Hs);
    try (by destruct (FileZone_files z); cbn; rewrite ?Hs).
  - destruct (PasswordStage_handleSubmit (pwd (password_st p))); cbn;
      [|by rewrite Hs].
    intros _. by rewrite remount_fresh.
  - destruct (InputStage_handleSubmit _ _).2; cbn; [|by rewrite Hs].
    intros _. rewrite remount_fresh by apply handleAnalyze_not_analyzing.
    by rewrite remount_app || done.
  - destruct (QuestionsStage_handleGenerate _ _ _ _).2; cbn; [|by rewrite Hs].
    intros _. by rewrite remount_fresh.
Qed.

Lemma Page_on_mounted (ev : PageEvent) (p : Page) :
  only_mounted_state p → only_mounted_state (Page_on ev p).
Proof.
  intros Hp.
  destruct (decide (stage (app (Page_on ev p)) = stage (app p))) as [Heq|Hne].
  2:{ rewrite (Page_on_changes_stage ev p Hne). by repeat split. }
  destruct Hp as (H1 & H2 & H3 & H4).
  revert Heq. unfold Page_on.
  destruct ev as [[v| |]|[[field v|f|f|b|]|z|z] net|i val|net|rv|];
    destruct (stage (app p)) eqn:Hs; cbn;
    try (intros _; unfold only_mounted_state; cbn; rewrite Hs;
         repeat split; intros; (done || auto)).
  - destruct (PasswordStage_handleSubmit (pwd (password_st p))); cbn.
    + rewrite remount_app. cbn. discriminate.
    + intros _. unfold only_mounted_state. cbn. rewrite Hs.
      repeat split; intros; (done || auto).
  - destruct (InputStage_handleSubmit _ _).2 as [fd|]; cbn.
    + intros _. rewrite remount_fresh by apply handleAnalyze_not_analyzing.
      by repeat split.
    + intros _. unfold only_mounted_state. cbn. rewrite Hs.
      repeat split; intros; (done || auto).
  - destruct (QuestionsStage_handleGenerate _ _ _ _).2; cbn.
    + rewrite remount_app. cbn. discriminate.
    + intros _. unfold only_mounted_state. cbn. rewrite Hs.
      repeat split; intros; (done || auto).
  - rewrite remount_app. cbn. discriminate.
Qed.

(** X20: a stage component holds state only while it is shown.  From page
    load on, the state of every stage other than the shown one is its
    initial state; an event that changes the stage leaves every stage
    component in its initial state; and an input form whose submit passes
    is back in its initial state afterwards (empty fields, nothing
    attached, rules unticked) whether the analysis succeeded or failed, as
    are the answers of the questions stage that an ok reply opens. *)
Theorem stages_mount_fresh (evs : list PageEvent) (ev : PageEvent) (p : Page) :
  only_mounted_state (Page_run evs Page_init)
  ∧ (stage (app (Page_on ev p)) ≠ stage (app p) →
       password_st (Page_on ev p) = PasswordStage_init
       ∧ input_st (Page_on ev p) = InputStage_init
       ∧ questions_st (Page_on ev p) = QuestionsStage_init
       ∧ results_st (Page_on ev p) = ResultsStage_init)
  ∧ (∀ net fd,
       stage (app p) = INPUT →
       (InputStage_handleSubmit (password (app p)) (input_st p)).2 = Some fd →
       input_st (Page_on (OnInput (OnForm Submit) net) p) = InputStage_init
       ∧ questions_st (Page_on (OnInput (OnForm Submit) net) p)
         = QuestionsStage_init
       ∧ stage (app (Page_on (OnInput (OnForm Submit) net) p))
         ∈ [INPUT; QUESTIONS]).
Proof.
  split; [|split].
  - assert (only_mounted_state Page_init) as Hi by (by repeat split).
    revert Hi. generalize Page_init. unfold Page_run.
    induction evs as [|e evs IH]; intros q Hq; [done|].
    cbn. by apply IH, Page_on_mounted.
  - intros Hne. rewrite (Page_on_changes_stage ev p Hne). done.
  - intros net fd Hs Hfd. unfold Page_on. rewrite Hs. cbn. rewrite Hfd.
    rewrite remount_fresh by apply handleAnalyze_not_analyzing. cbn.
    split; [done|]. split; [done|].
    unfold InputStageWrapper_handleAnalyze.
    destruct (settle _ _); cbn; repeat constructor.
Qed.

Lemma stages_mount_fresh_witness :
  input_st
    (Page_on (OnInput (OnForm Submit) (λ _, Rejected "offline"))
       {| app := sample_app; password_st := PasswordStage_init;
          input_st := sample_input; questions_st := QuestionsStage_init;
          results_st := ResultsStage_init |})
  = InputStage_init.
Proof.
  destruct (InputStage_handleSubmit "hunter2" sample_input).2 as [fd|] eqn:Hfd;
    [|vm_compute in Hfd; discriminate].
  eapply (proj2 (proj2 (stages_mount_fresh [] (OnPassword ToggleShow)
            {| app := sample_app; password_st := PasswordStage_init;
               input_st := sample_input; questions_st := QuestionsStage_init;
               results_st := ResultsStage_init |}))
            (λ _, Rejected "offline") fd).
  - reflexivity.
  - exact Hfd.
Defined.

End PageFacts.
